(** * WhisperGrid: the client protocol engine (src/client/index.ts)

    A shallow embedding of the [Client] class: self-encryption, the
    invitation handshake, and the per-thread reply / append operations,
    together with the parts of the JavaScript platform they lean on
    (number formatting in radix 16, [Buffer]'s base64 codecs). *)

From Stdlib Require Import ZArith NArith QArith Lia List.
From Stdlib.Strings Require Import String Ascii Byte.
From stdpp Require Import gmap strings.

Local Open Scope string_scope.
Local Open Scope N_scope.

(** ** JavaScript numbers, as far as message ids use them

    Message ids are JS numbers obtained by [parseInt(s, 16)], incremented,
    and printed back with [Number(n).toString(16)].  Every value that
    occurs is an integer, [NaN] or an infinity; an integer is kept as the
    exact [Z] it denotes, and each arithmetic result is rounded to the 53
    significant bits of a double. *)
Module JS.

Inductive num : Type :=
  | NaN
  | Inf (negative : bool)
  | Num (z : Z).

(** Round a non-negative integer to the nearest double, ties to even. *)
Definition round53 (z : Z) : Z :=
  let e := (Z.log2 z - 52)%Z in
  if (e <=? 0)%Z then z
  else
    let q := (z / 2 ^ e)%Z in
    let r := (z mod 2 ^ e)%Z in
    let half := (2 ^ (e - 1))%Z in
    if (r <? half)%Z then (q * 2 ^ e)%Z
    else if (half <? r)%Z then ((q + 1) * 2 ^ e)%Z
    else if Z.even q then (q * 2 ^ e)%Z
    else ((q + 1) * 2 ^ e)%Z.

Definition of_Z (z : Z) : num :=
  let m := round53 (Z.abs z) in
  if (2 ^ 1024 <=? m)%Z then Inf (z <? 0)%Z
  else Num (if (z <? 0)%Z then - m else m)%Z.

(** [x + 1] on numbers. *)
Definition succ (x : num) : num :=
  match x with
  | NaN => NaN
  | Inf s => Inf s
  | Num z => of_Z (z + 1)
  end.

(** [a === b] on numbers: [NaN] is equal to nothing. *)
Definition strict_eq (a b : num) : bool :=
  match a, b with
  | Num x, Num y => (x =? y)%Z
  | Inf s, Inf t => Bool.eqb s t
  | _, _ => false
  end.

(** *** [parseInt(s, 16)] *)

(** White space among the characters a [string] can hold (code < 256). *)
Definition is_space (c : ascii) : bool :=
  let n := N_of_ascii c in
  ((9 <=? n) && (n <=? 13)) || (n =? 32) || (n =? 160).

Fixpoint skip_space (s : string) : string :=
  match s with
  | String c s' => if is_space c then skip_space s' else s
  | EmptyString => s
  end.

Definition hex_value (c : ascii) : option N :=
  let n := N_of_ascii c in
  if (48 <=? n) && (n <=? 57) then Some (n - 48)
  else if (97 <=? n) && (n <=? 102) then Some (n - 87)
  else if (65 <=? n) && (n <=? 70) then Some (n - 55)
  else None.

(** Value of the longest prefix of hex digits; [acc] is [None] until a
    digit has been read. *)
Fixpoint parse_hex_digits (s : string) (acc : option N) : option N :=
  match s with
  | String c s' =>
      match hex_value c with
      | Some d =>
          parse_hex_digits s'
            (Some (16 * (match acc with Some a => a | None => 0 end) + d))
      | None => acc
      end
  | EmptyString => acc
  end.

Definition strip_sign (s : string) : bool * string :=
  match s with
  | String "-" s' => (true, s')
  | String "+" s' => (false, s')
  | _ => (false, s)
  end.

Definition strip_0x (s : string) : string :=
  match s with
  | String "0" (String "x" s') => s'
  | String "0" (String "X" s') => s'
  | _ => s
  end.

Definition parseInt16 (s : string) : num :=
  let '(neg, s1) := strip_sign (skip_space s) in
  match parse_hex_digits (strip_0x s1) None with
  | None => NaN
  | Some n => of_Z (if neg then - Z.of_N n else Z.of_N n)
  end.

(** [parseInt(undefined, 16)] reads the text "undefined": not a number. *)
Definition parseInt16_opt (o : option string) : num :=
  match o with
  | Some s => parseInt16 s
  | None => parseInt16 "undefined"
  end.

(** *** [Number(n).toString(16)] *)

Definition hex_digit (d : N) : ascii :=
  if d <? 10 then ascii_of_N (48 + d) else ascii_of_N (87 + d).

Fixpoint to_hex_aux (fuel : nat) (n : N) (acc : string) : string :=
  match fuel with
  | O => acc
  | S f =>
      let acc' := String (hex_digit (n mod 16)) acc in
      if n <? 16 then acc' else to_hex_aux f (n / 16) acc'
  end.

Definition to_hex (n : N) : string :=
  to_hex_aux (S (N.to_nat (N.log2 n))) n "".

Definition toString16 (x : num) : string :=
  match x with
  | NaN => "NaN"
  | Inf true => "-Infinity"
  | Inf false => "Infinity"
  | Num z =>
      if (z <? 0)%Z then String "-" (to_hex (Z.to_N (- z)))
      else to_hex (Z.to_N z)
  end.

End JS.

(** [MAX_MESSAGE_ID = Number.MAX_SAFE_INTEGER / 2] (line 51): not an
    integer, so it is kept as a rational. *)
Definition MAX_SAFE_INTEGER : Z := (2 ^ 53 - 1)%Z.
Definition MAX_MESSAGE_ID : Q := (MAX_SAFE_INTEGER # 2)%Q.

(** ** [Buffer]'s base64 codecs

    [buf.toString("base64")] writes the standard alphabet with padding,
    [buf.toString("base64url")] the URL alphabet without padding;
    [Buffer.from(s, "base64" | "base64url")] reads either alphabet, skips
    characters of neither, and stops at the first padding character. *)
Module Base64.

Definition byte_of_N (n : N) : byte :=
  match Byte.of_N (n mod 256) with
  | Some b => b
  | None => x00
  end.

Definition char (url : bool) (n : N) : ascii :=
  if n <? 26 then ascii_of_N (65 + n)
  else if n <? 52 then ascii_of_N (71 + n)
  else if n <? 62 then ascii_of_N (n - 4)
  else if n =? 62 then (if url then "-" else "+")%char
  else (if url then "_" else "/")%char.

Definition value (c : ascii) : option N :=
  let n := N_of_ascii c in
  if (65 <=? n) && (n <=? 90) then Some (n - 65)
  else if (97 <=? n) && (n <=? 122) then Some (n - 71)
  else if (48 <=? n) && (n <=? 57) then Some (n + 4)
  else if (n =? 43) || (n =? 45) then Some 62
  else if (n =? 47) || (n =? 95) then Some 63
  else None.

Fixpoint encode (url : bool) (bs : list byte) : string :=
  match bs with
  | a :: b :: c :: rest =>
      let n := Byte.to_N a * 65536 + Byte.to_N b * 256 + Byte.to_N c in
      String (char url (n / 262144))
        (String (char url ((n / 4096) mod 64))
           (String (char url ((n / 64) mod 64))
              (String (char url (n mod 64)) (encode url rest))))
  | [a; b] =>
      let n := (Byte.to_N a * 256 + Byte.to_N b) * 4 in
      String (char url (n / 4096))
        (String (char url ((n / 64) mod 64))
           (String (char url (n mod 64)) (if url then "" else "=")))
  | [a] =>
      let n := Byte.to_N a * 16 in
      String (char url (n / 64))
        (String (char url (n mod 64)) (if url then "" else "=="))
  | [] => ""
  end.

Fixpoint sextets (s : string) : list N :=
  match s with
  | String c s' =>
      if Ascii.eqb c "=" then []
      else match value c with
           | Some v => v :: sextets s'
           | None => sextets s'
           end
  | EmptyString => []
  end.

Fixpoint bytes (l : list N) : list byte :=
  match l with
  | s0 :: s1 :: s2 :: s3 :: rest =>
      let n := ((s0 * 64 + s1) * 64 + s2) * 64 + s3 in
      byte_of_N (n / 65536) :: byte_of_N (n / 256) :: byte_of_N n
        :: bytes rest
  | [s0; s1; s2] =>
      let n := (s0 * 64 + s1) * 64 + s2 in
      [byte_of_N (n / 1024); byte_of_N (n / 4)]
  | [s0; s1] => [byte_of_N ((s0 * 64 + s1) / 16)]
  | _ => []
  end.

Definition decode (s : string) : list byte := bytes (sextets s).

End Base64.

(** [Buffer.from(x, enc)] throws on [undefined]. *)
Definition Buffer_from (x : option string) : option (list byte) :=
  Base64.decode <$> x.


(** ** Errors

    One constructor per throw site of the engine; the comment gives the
    message of the [invariant] or [throw] it stands for. *)
Inductive Error : Type :=
  | JWSVerificationFailed      (* parseJWS: the signature check failed *)
  | PlatformError              (* a WebCrypto, Buffer or JSON call threw *)
  | ErrorEncryptingMessage     (* "Error encrypting message" *)
  | ErrorEncryptingMessageBecause (cause : Error)
                               (* "Error encrypting message: <cause>" *)
  | SelfEncryptMismatch        (* "Decrypted message mismatch" *)
  | InvalidInvitationSignature (* "Invalid invitation signature" *)
  | ThreadKeyNotFound          (* "Thread key not found <thumbprint>" *)
  | ThreadNotFound             (* "Thread not found" *)
  | PublicKeyNotFound          (* "Public key not found <jwk>" *)
  | InvalidMessageId           (* "Invalid message id <value>" *)
  | MalformedFirstReply        (* "First message must have an epk" *)
  | UnknownInvitation          (* "Invitation not found <thumbprint>" *)
  | OutOfOrder                 (* "Expected to find a reply to ..." *)
  | UnverifiedSigner           (* "Unable to determine public key" *)
  | BadSignature               (* "expected message addressed to ..." *)
  | ErrorAppendingThread       (* "Error appending thread <cause>" *)
  | OutOfFuel.                 (* the recursion did not settle *)

(** ** Envelopes

    A JWS after decoding: header, payload and signature.  The payload is
    the JSON object as the engine reads it, every member possibly
    missing ([undefined]); the compact text form is the business of
    [utils] and is not modelled. *)
Record Header (J : Type) : Type := mkHeader {
  alg : string;
  jwk : option J
}.
Arguments mkHeader {J}.
Arguments alg {J}.
Arguments jwk {J}.

Record Payload (J : Type) : Type := mkPayload {
  re : option string;
  messageId : option string;
  message : option string;
  iv : option string;
  epk : option J;
  note : option string;
  nickname : option string
}.
Arguments mkPayload {J}.
Arguments re {J}.
Arguments messageId {J}.
Arguments message {J}.
Arguments iv {J}.
Arguments epk {J}.
Arguments note {J}.
Arguments nickname {J}.

(** ** The platform: WebCrypto, TextEncoder / TextDecoder, JSON

    What the engine imports and this source tree does not contain.  One
    key type serves both curves of use (ECDSA identity keys, ECDH storage
    and thread keys); [importKey] is the only operation that can refuse a
    JWK. *)
Record Platform : Type := {
  PubKey : Type;
  PrivKey : Type;
  JWK : Type;
  PrivJWK : Type;
  Secret : Type;
  Signature : Type;
  exportPublic : PubKey -> JWK;
  exportPrivate : PrivKey -> PrivJWK;
  importPublic : JWK -> option PubKey;
  importPrivate : PrivJWK -> option PrivKey;
  getJWKthumbprint : JWK -> string;
  deriveSharedSecret : PrivKey -> PubKey -> Secret;
  aes_gcm_encrypt : Secret -> list byte -> list byte -> list byte;
  aes_gcm_decrypt : Secret -> list byte -> list byte -> option (list byte);
  ecdsa_sign : PrivKey -> Header JWK -> Payload JWK -> Signature;
  ecdsa_verify : PubKey -> Header JWK -> Payload JWK -> Signature -> bool;
  utf8_encode : string -> list byte;
  utf8_decode : list byte -> string;
  stringify_jwks : PrivJWK * JWK -> string;
  parse_jwks : string -> option (PrivJWK * JWK)
}.

Record JWS (P : Platform) : Type := mkJWS {
  header : Header (JWK P);
  payload : Payload (JWK P);
  signature : Signature P
}.
Arguments mkJWS {P}.
Arguments header {P}.
Arguments payload {P}.
Arguments signature {P}.

Record KeyPair (P : Platform) : Type := mkKeyPair {
  publicKey : PubKey P;
  privateKey : PrivKey P
}.
Arguments mkKeyPair {P}.
Arguments publicKey {P}.
Arguments privateKey {P}.

(** The fields of [Client] other than its storage, which is threaded as
    state. *)
Record Client (P : Platform) : Type := mkClient {
  thumbprint : string;
  identityKeyPair : KeyPair P;
  storageKeyPair : KeyPair P
}.
Arguments mkClient {P}.
Arguments thumbprint {P}.
Arguments identityKeyPair {P}.
Arguments storageKeyPair {P}.

Record ThreadInfo (P : Platform) : Type := mkThreadInfo {
  myThumbprint : string;
  theirEPK : option (JWK P);
  signedInvite : JWS P;
  theirSignature : option (JWK P)
}.
Arguments mkThreadInfo {P}.
Arguments myThumbprint {P}.
Arguments theirEPK {P}.
Arguments signedInvite {P}.
Arguments theirSignature {P}.

(** Modelled from the spec: the values of the storage adapter
    ([GridStorage], section 6 and the design note of section 9): a tagged
    variant over the namespaces.  [VString] is a plain string (a message
    id, a thumbprint), [VJWS] a stored envelope; [VUndefined] is what
    [setItem(key, undefined)] leaves.  Envelopes are kept apart from
    plain strings although both are JavaScript strings: where the engine
    tests [typeof x === "string"] before parsing an id (line 374) only a
    plain string passes, and where it tests it before decrypting a key
    backup (line 334) a plain string passes and then fails to parse as an
    envelope. *)
#[warnings="-register-all"] Inductive Value (P : Platform) : Type :=
  | VUndefined
  | VString (s : string)
  | VJWS (j : JWS P)
  | VJWK (k : JWK P)
  | VThreadInfo (t : ThreadInfo P)
  | VList (l : list (Value P)).
Arguments VUndefined {P}.
Arguments VString {P}.
Arguments VJWS {P}.
Arguments VJWK {P}.
Arguments VThreadInfo {P}.
Arguments VList {P}.

(** The random draws one [makeThreadKeys] call makes: the thread key
    pair, and the key pair and IV of the [encryptToSelf] that backs it
    up. *)
Record Entropy (P : Platform) : Type := mkEntropy {
  fresh_thread_key : KeyPair P;
  fresh_self_epk : KeyPair P;
  fresh_self_iv : list byte
}.
Arguments mkEntropy {P}.
Arguments fresh_thread_key {P}.
Arguments fresh_self_epk {P}.
Arguments fresh_self_iv {P}.

(** The [pubKey] argument of [parseJWS]: left out, an explicit [null], or
    a key. *)
Inductive KeyArg (P : Platform) : Type :=
  | KeyOmitted
  | KeyNull
  | KeyGiven (k : PubKey P).
Arguments KeyOmitted {P}.
Arguments KeyNull {P}.
Arguments KeyGiven {P}.

(** ** The engine *)

Declare Scope engine_scope.
Delimit Scope engine_scope with engine.
Reserved Notation "x <- m ;; k"
  (at level 100, m at next level, right associativity).

Section Engine.

Context {P : Platform}.

Abbreviation Store := (gmap string (Value P)).

(** A call either throws or returns, and leaves the storage it has
    written so far in either case. *)
Definition M (A : Type) : Type := Store -> (Error + A) * Store.

Definition ret {A} (a : A) : M A := fun s => (inr a, s).
Definition throw {A} (e : Error) : M A := fun s => (inl e, s).
Definition bind {A B} (m : M A) (k : A -> M B) : M B :=
  fun s => match m s with
           | (inl e, s') => (inl e, s')
           | (inr a, s') => k a s'
           end.
Definition lift {A} (r : Error + A) : M A := fun s => (r, s).
Definition invariant (cond : bool) (e : Error) : M unit :=
  if cond then ret tt else throw e.

(** Calls that do not touch the storage live in [Error + A]. *)
Definition bindE {A B} (r : Error + A) (k : A -> Error + B) : Error + B :=
  match r with
  | inl e => inl e
  | inr a => k a
  end.
Definition orThrow {A} (o : option A) (e : Error) : Error + A :=
  match o with
  | Some a => inr a
  | None => inl e
  end.

(** *** Storage adapter *)

(** Modelled from the spec: [GridStorage.getItem] (section 6,
    [get(key) -> value | absent]). *)
Definition getItem (key : string) : M (option (Value P)) :=
  fun s => (inr (s !! key), s).

(** Modelled from the spec: [GridStorage.hasItem] (section 6,
    [has(key) -> bool]). *)
Definition hasItem (key : string) : M bool :=
  fun s => (inr (bool_decide (is_Some (s !! key))), s).

(** Modelled from the spec: [GridStorage.setItem] (section 6,
    [set(key, value)]). *)
Definition setItem (key : string) (v : Value P) : M unit :=
  fun s => (inr tt, <[key := v]> s).

(** Modelled from the spec: [GridStorage.appendItem] (section 6,
    append-to-list with insertion order preserved); a key that holds no
    list yet starts one. *)
Definition appendItem (key : string) (v : Value P) : M unit :=
  fun s => (inr tt,
            match s !! key with
            | Some (VList l) => <[key := VList (l ++ [v])]> s
            | _ => <[key := VList [v]]> s
            end).

(** Truthiness of what [getItem] hands back, and of an optional string. *)
Definition truthy (o : option (Value P)) : bool :=
  match o with
  | None | Some VUndefined | Some (VString "") => false
  | Some _ => true
  end.
Definition nonempty (o : option string) : bool :=
  match o with
  | Some (String _ _) => true
  | _ => false
  end.

(** A template literal [`${x}`] over a possibly missing string. *)
Definition tmpl (o : option string) : string :=
  match o with
  | Some s => s
  | None => "undefined"
  end.

(** *** utils: key export, thumbprints, the JWS envelope *)
Definition exportKeyPair (k : KeyPair P) : PrivJWK P * JWK P :=
  (exportPrivate P (privateKey k), exportPublic P (publicKey k)).

Definition thumbprintOf (o : option (JWK P)) : Error + string :=
  match o with
  | Some k => inr (getJWKthumbprint P k)
  | None => inl PlatformError
  end.

Definition importKey (o : option (JWK P)) : Error + PubKey P :=
  match o with
  | Some k => orThrow (importPublic P k) PlatformError
  | None => inl PlatformError
  end.

(** Modelled from the spec: [signJWS] of [utils] (section 4.2,
    [sign(header, payload, priv)]). *)
Definition signJWS (h : Header (JWK P)) (p : Payload (JWK P))
    (priv : PrivKey P) : JWS P :=
  mkJWS h p (ecdsa_sign P priv h p).

(** The signature of an envelope checked under one key. *)
Definition verifyWith (pub : PubKey P) (j : JWS P) : bool :=
  ecdsa_verify P pub (header j) (payload j) (signature j).

(** Modelled from the spec: [verifyJWS] of [utils] (section 4.2): a
    boolean; without a key it uses the embedded [jwk] if present, else it
    is false.  An embedded [jwk] that does not import verifies nothing. *)
Definition verifyJWS (j : JWS P) (pub : option (PubKey P)) : bool :=
  match pub with
  | Some k => verifyWith k j
  | None =>
      match jwk (header j) with
      | Some e =>
          match importPublic P e with
          | Some k => verifyWith k j
          | None => false
          end
      | None => false
      end
  end.

(** Modelled from the spec: [parseJWS] of [utils] (section 4.2): with a
    key it verifies first; with the key left out it verifies against an
    embedded [jwk] and otherwise returns the envelope unverified; with
    the explicit [null] that the thread engine passes where it reads [re]
    before it knows the signer (lines 441 and 477), it returns the
    envelope unverified. *)
Definition parseJWS (j : JWS P) (pub : KeyArg P) : Error + JWS P :=
  match pub with
  | KeyGiven k =>
      if verifyJWS j (Some k) then inr j else inl JWSVerificationFailed
  | KeyOmitted =>
      match jwk (header j) with
      | Some _ =>
          if verifyJWS j None then inr j else inl JWSVerificationFailed
      | None => inr j
      end
  | KeyNull => inr j
  end.

(** A stored value read where the engine expects an envelope. *)
Definition asJWS (v : Value P) : Error + JWS P :=
  match v with
  | VJWS j => inr j
  | _ => inl PlatformError
  end.

(** *** [decryptFromSelf] (lines 150-177) *)
Definition decryptFromSelf (c : Client P) (msg : JWS P) : Error + string :=
  bindE (parseJWS msg (KeyGiven (publicKey (identityKeyPair c))))
    (fun selfEncrypted =>
  bindE (importKey (epk (payload selfEncrypted))) (fun epk' =>
  let secret :=
    deriveSharedSecret P (privateKey (storageKeyPair c)) epk' in
  bindE (orThrow (Buffer_from (iv (payload selfEncrypted))) PlatformError)
    (fun iv' =>
  bindE (orThrow (Buffer_from (message (payload selfEncrypted)))
           PlatformError)
    (fun ct =>
  bindE (orThrow (aes_gcm_decrypt P secret iv' ct) PlatformError)
    (fun decryptedBuffer =>
  inr (utf8_decode P decryptedBuffer)))))).

(** *** [encryptToSelf] (lines 178-223); [epk'] and [iv'] are the fresh
    key pair and the 12 random bytes *)
Definition encryptToSelf (c : Client P) (epk' : KeyPair P)
    (iv' : list byte) (msg : string) : Error + JWS P :=
  let jwks := exportKeyPair epk' in
  let secret :=
    deriveSharedSecret P (privateKey epk') (publicKey (storageKeyPair c)) in
  let encrypted := aes_gcm_encrypt P secret iv' (utf8_encode P msg) in
  let h := mkHeader "ES384"
             (Some (snd (exportKeyPair (identityKeyPair c)))) in
  let p := mkPayload None None
             (Some (Base64.encode true encrypted))
             (Some (Base64.encode false iv'))
             (Some (snd jwks)) None None in
  let encryptedJWS := signJWS h p (privateKey (identityKeyPair c)) in
  let selftest : Error + unit :=
    if verifyJWS encryptedJWS None then
      bindE (decryptFromSelf c encryptedJWS) (fun decryptedMessage =>
      if String.eqb decryptedMessage msg then inr tt
      else inl SelfEncryptMismatch)
    else inl ErrorEncryptingMessage in
  match selftest with
  | inl e => inl (ErrorEncryptingMessageBecause e)
  | inr _ => inr encryptedJWS
  end.

Notation "x <- m ;; k" := (bind m (fun x => k)) : engine_scope.
Local Open Scope engine_scope.

(** A property read on whatever [getItem] returned for a thread-info
    key: [undefined] unless a thread-info object is stored there. *)
Definition infoField {A} (f : ThreadInfo P -> option A)
    (o : option (Value P)) : option A :=
  match o with
  | Some (VThreadInfo t) => f t
  | _ => None
  end.

(** [a === b] on strings that may be [undefined]. *)
Definition same (a b : option string) : bool := bool_decide (a = b).

(** [crypto.subtle.decrypt] on a ciphertext given as base64 text; both
    [Buffer.from(undefined)] and a failed decryption throw. *)
Definition decryptText (secret : Secret P) (iv' : list byte)
    (text : option string) : option (list byte) :=
  match Buffer_from text with
  | Some ct => aes_gcm_decrypt P secret iv' ct
  | None => None
  end.

(** The truthiness of a Promise that was not awaited: an object, hence
    true, whatever it settles to. *)
Definition promise_truthy {A} (pending : A) : bool := true.

(** *** [makeThreadKeys] (lines 306-315) *)
Definition makeThreadKeys (c : Client P) (rnd : Entropy P)
    : M (string * (PrivJWK P * JWK P)) :=
  let threadKey := fresh_thread_key rnd in
  let jwks := exportKeyPair threadKey in
  let thumbprint' := getJWKthumbprint P (snd jwks) in
  keyBackup <- lift (encryptToSelf c (fresh_self_epk rnd)
                       (fresh_self_iv rnd) (stringify_jwks P jwks)) ;;
  _ <- setItem ("encrypted-thread-key:" +:+ thumbprint') (VJWS keyBackup) ;;
  ret (thumbprint', jwks).

(** *** [startThread] (lines 275-304) *)
Definition startThread (c : Client P) (rnd : Entropy P)
    (signedInvite' : JWS P) (theirEPKJWK : option (JWK P))
    (theirSignature' : option (JWK P)) (messageId' : option string)
    (myThumbprint' : option string) : M string :=
  my <- (if nonempty myThumbprint' then ret (tmpl myThumbprint')
         else (r <- makeThreadKeys c rnd ;; ret (fst r))) ;;
  keyBackup <- getItem ("encrypted-thread-key:" +:+ my) ;;
  _ <- invariant (truthy keyBackup) ThreadKeyNotFound ;;
  signatureThumbprint <- lift (thumbprintOf theirSignature') ;;
  _ <- setItem ("public-key:" +:+ signatureThumbprint)
         (match theirSignature' with
          | Some k => VJWK k
          | None => VUndefined
          end) ;;
  _ <- setItem ("thread-info:" +:+ my)
         (VThreadInfo
            (mkThreadInfo my theirEPKJWK signedInvite' theirSignature')) ;;
  _ <- appendItem ("threads:" +:+ thumbprint c) (VString my) ;;
  _ <- appendItem ("messages:" +:+ my) (VJWS signedInvite') ;;
  _ <- setItem ("message-id:" +:+ my)
         (match messageId' with
          | Some m => VString m
          | None => VUndefined
          end) ;;
  ret my.

(** *** [readThreadSecret] (lines 317-355) *)
Definition readThreadSecret (c : Client P) (threadThumbprint : string)
    : M (Secret P * JWK P) :=
  threadInfo <- getItem ("thread-info:" +:+ threadThumbprint) ;;
  _ <- invariant (truthy threadInfo) ThreadNotFound ;;
  let publicJWK := infoField theirEPK threadInfo in
  _ <- invariant (bool_decide (is_Some publicJWK)) PublicKeyNotFound ;;
  publicKey' <- lift (importKey publicJWK) ;;
  encryptedBackup <-
    getItem ("encrypted-thread-key:"
             +:+ tmpl (infoField (fun t => Some (myThumbprint t))
                         threadInfo)) ;;
  backup <- lift (match encryptedBackup with
                  | Some (VJWS j) => inr j
                  | Some (VString _) => inl PlatformError
                  | _ => inl ThreadKeyNotFound
                  end) ;;
  text <- lift (decryptFromSelf c backup) ;;
  jwks <- lift (orThrow (parse_jwks P text) PlatformError) ;;
  privateKey' <- lift (orThrow (importPrivate P (fst jwks)) PlatformError) ;;
  ret (deriveSharedSecret P privateKey' publicKey', snd jwks).

(** *** [appendThread], the part that runs once the thread is known
    (lines 476-543) *)

(** Lines 481-506: the verifier chosen by addressee for a message that
    did not verify against an embedded key. *)
Definition selectVerifier (c : Client P) (jws : JWS P)
    (threadInfo : option (Value P)) : Error + option (PubKey P) :=
  if negb (bool_decide (is_Some (jwk (header jws))))
     && nonempty (re (payload jws))
  then
    bindE (if same (re (payload jws))
                (infoField (fun t => Some (myThumbprint t)) threadInfo)
           then
             bindE (thumbprintOf (infoField theirSignature threadInfo))
               (fun _ =>
             bindE (importKey (infoField theirSignature threadInfo))
               (fun k => inr (Some k)))
           else inr None)
      (fun pubKey =>
    bindE (thumbprintOf (infoField theirEPK threadInfo)) (fun theirs =>
    if same (re (payload jws)) (Some theirs)
    then inr (Some (publicKey (identityKeyPair c)))
    else inr pubKey))
  else inr None.

(** Lines 480-518. *)
Definition verifyAppended (c : Client P) (encryptedMessage jws : JWS P)
    (threadInfo : option (Value P)) : Error + unit :=
  if verifyJWS encryptedMessage None then inr tt
  else
    bindE (selectVerifier c jws threadInfo) (fun pubKey =>
    match pubKey with
    | None => inl UnverifiedSigner
    | Some k =>
        if verifyJWS encryptedMessage (Some k) then inr tt
        else
          bindE (thumbprintOf (infoField theirSignature threadInfo))
            (fun _ => inl BadSignature)
    end).

Definition appendThreadKnown (c : Client P) (encryptedMessage : JWS P)
    (threadThumbprint : string) : M (string * string) :=
  threadInfo <- getItem ("thread-info:" +:+ threadThumbprint) ;;
  jws <- lift (parseJWS encryptedMessage KeyNull) ;;
  _ <- invariant (truthy threadInfo) ThreadNotFound ;;
  _ <- lift (verifyAppended c encryptedMessage jws threadInfo) ;;
  keys <- readThreadSecret c threadThumbprint ;;
  let secret := fst keys in
  iv' <- lift (orThrow (Buffer_from (iv (payload jws))) PlatformError) ;;
  decryptedBuffer <-
    lift (orThrow (decryptText secret iv' (message (payload jws)))
            ErrorAppendingThread) ;;
  let message' := utf8_decode P decryptedBuffer in
  _ <- appendItem ("messages:" +:+ threadThumbprint)
         (VJWS encryptedMessage) ;;
  ret (threadThumbprint, message').

(** *** [appendThread] (lines 433-543).  The call re-enters itself on a
    message without [jwk]; [fuel] bounds that recursion. *)
Fixpoint appendThread (fuel : nat) (c : Client P) (rnd : Entropy P)
    (encryptedMessage : JWS P) (threadThumbprint : option string)
    : M (string * string) :=
  match fuel with
  | O => throw OutOfFuel
  | S fuel' =>
      if nonempty threadThumbprint
      then appendThreadKnown c encryptedMessage (tmpl threadThumbprint)
      else
        jws <- lift (parseJWS encryptedMessage KeyNull) ;;
        match jwk (header jws) with
        | None =>
            known <- hasItem ("thread-info:" +:+ tmpl (re (payload jws))) ;;
            _ <- invariant known ThreadNotFound ;;
            appendThread fuel' c rnd encryptedMessage (re (payload jws))
        | Some signer =>
            _ <- invariant (bool_decide (is_Some (epk (payload jws))))
                   MalformedFirstReply ;;
            let invitationThumbprint := re (payload jws) in
            invitation <-
              getItem ("invitation:" +:+ tmpl invitationThumbprint) ;;
            _ <- invariant (truthy invitation) UnknownInvitation ;;
            stored <- lift (asJWS (default VUndefined invitation)) ;;
            invitationJWS <- lift (parseJWS stored KeyOmitted) ;;
            _ <- invariant
                   (JS.strict_eq
                      (JS.parseInt16_opt (messageId (payload jws)))
                      (JS.succ
                         (JS.parseInt16_opt
                            (messageId (payload invitationJWS)))))
                   OutOfOrder ;;
            myThumbprint' <-
              lift (thumbprintOf (epk (payload invitationJWS))) ;;
            started <-
              startThread c rnd stored (epk (payload jws)) (Some signer)
                (messageId (payload jws)) (Some myThumbprint') ;;
            appendThreadKnown c encryptedMessage started
        end
  end.

(** Lines 389-409 of [replyToThread]: the reply is assembled and
    signed with the identity key. *)
Definition replyEnvelope (c : Client P) (epk' : JWK P) (re' : string)
    (nextId : JS.num) (encrypted iv' : list byte) (selfSign : bool)
    : JWS P :=
  let h := mkHeader "ES384"
             (if selfSign
              then Some (snd (exportKeyPair (identityKeyPair c)))
              else None) in
  let p := mkPayload (Some re') (Some (JS.toString16 nextId))
             (Some (Base64.encode true encrypted))
             (Some (Base64.encode false iv'))
             (if selfSign then Some epk' else None) None None in
  signJWS h p (privateKey (identityKeyPair c)).

(** *** [replyToThread] (lines 357-431); [iv'] is the 12 random bytes *)
Definition replyToThread (fuel : nat) (c : Client P) (rnd : Entropy P)
    (iv' : list byte) (threadThumbprint : string) (msg : string)
    (selfSign : bool) : M (JWS P) :=
  keys <- readThreadSecret c threadThumbprint ;;
  let secret := fst keys in
  let epk' := snd keys in
  let encrypted := aes_gcm_encrypt P secret iv' (utf8_encode P msg) in
  messageId' <- getItem ("message-id:" +:+ threadThumbprint) ;;
  current <- lift (match messageId' with
                   | Some (VString m) => inr m
                   | _ => inl InvalidMessageId
                   end) ;;
  let nextId := JS.succ (JS.parseInt16 current) in
  _ <- setItem ("message-id:" +:+ threadThumbprint)
         (VString (JS.toString16 nextId)) ;;
  threadInfo <- getItem ("thread-info:" +:+ threadThumbprint) ;;
  _ <- invariant (truthy threadInfo) ThreadNotFound ;;
  re' <- lift (thumbprintOf (infoField theirEPK threadInfo)) ;;
  let encryptedJWS :=
    replyEnvelope c epk' re' nextId encrypted iv' selfSign in
  _ <- invariant
         (promise_truthy
            (verifyJWS encryptedJWS
               (Some (publicKey (identityKeyPair c)))))
         ErrorEncryptingMessage ;;
  decryptedBuffer <-
    lift (orThrow (decryptText secret iv' (message (payload encryptedJWS)))
            PlatformError) ;;
  _ <- invariant (String.eqb (utf8_decode P decryptedBuffer) msg)
         SelfEncryptMismatch ;;
  _ <- appendThread fuel c rnd encryptedJWS (Some threadThumbprint) ;;
  ret encryptedJWS.

(** *** [replyToInvitation] (lines 258-273) *)
Definition replyToInvitation (fuel : nat) (c : Client P) (rnd : Entropy P)
    (iv' : list byte) (signedInvite' : JWS P) (msg : string)
    : M (JWS P) :=
  _ <- invariant (verifyJWS signedInvite' None)
         InvalidInvitationSignature ;;
  invite <- lift (parseJWS signedInvite' KeyOmitted) ;;
  threadThumbprint <-
    startThread c rnd signedInvite' (epk (payload invite))
      (jwk (header invite)) (messageId (payload invite)) None ;;
  replyToThread fuel c rnd iv' threadThumbprint msg true.

(** *** [createInvitation] (lines 225-256); [random_id] is the value of
    [Math.floor(Math.random() * MAX_MESSAGE_ID)] *)
Definition createInvitation (c : Client P) (rnd : Entropy P)
    (random_id : Z) (note' nickname' : option string) : M (JWS P) :=
  made <- makeThreadKeys c rnd ;;
  let thumbprint' := fst made in
  let jwks := snd made in
  let h := mkHeader "ES384"
             (Some (snd (exportKeyPair (identityKeyPair c)))) in
  let p := mkPayload None (Some (JS.toString16 (JS.of_Z random_id)))
             None None (Some (snd jwks)) note' nickname' in
  let signedInvitation := signJWS h p (privateKey (identityKeyPair c)) in
  _ <- setItem ("invitation:" +:+ thumbprint') (VJWS signedInvitation) ;;
  ret signedInvitation.

(** *** Contracts of the platform (section 4.1 of the specification) *)

(** A signature made with the private half verifies under the public
    half. *)
Definition signs_for (k : KeyPair P) : Prop :=
  forall h p,
    ecdsa_verify P (publicKey k) h p (ecdsa_sign P (privateKey k) h p)
    = true.

(** An exported public key imports back to itself. *)
Definition reimports (k : PubKey P) : Prop :=
  importPublic P (exportPublic P k) = Some k.

(** Both sides of a Diffie-Hellman exchange derive the same secret. *)
Definition dh_agree (a b : KeyPair P) : Prop :=
  deriveSharedSecret P (privateKey a) (publicKey b)
  = deriveSharedSecret P (privateKey b) (publicKey a).

(** AES-GCM decryption undoes encryption under the same key and IV. *)
Definition aes_roundtrip : Prop :=
  forall key iv' pt,
    aes_gcm_decrypt P key iv' (aes_gcm_encrypt P key iv' pt) = Some pt.

(** The text survives [TextEncoder] then [TextDecoder]: it has no lone
    surrogate, and no U+FEFF at its start, which the decoder drops. *)
Definition well_formed_text (m : string) : Prop :=
  utf8_decode P (utf8_encode P m) = m.

(** *** Reading the log; the verifier rule in the specification's words *)


(** The verifier of section 4.5.4(B) in the specification's words: the
    embedded key if there is one, else [theirSignature] when the message
    is addressed to me, else my identity key when it is addressed to the
    peer, else none. *)
Definition specVerifier (c : Client P) (jws : JWS P) (t : ThreadInfo P)
    : option (PubKey P) :=
  match jwk (header jws) with
  | Some e => importPublic P e
  | None =>
      if same (re (payload jws)) (Some (myThumbprint t))
      then theirSignature t ≫= importPublic P
      else if same (re (payload jws))
                (getJWKthumbprint P <$> theirEPK t)
      then Some (publicKey (identityKeyPair c))
      else None
  end.

(** *** Vocabulary for the proofs *)

(** A computation that never writes. *)
Definition readonly {A} (m : M A) : Prop := forall s, snd (m s) = s.

(** A computation that leaves the storage alone when it throws. *)
Definition clean_failure {A} (m : M A) : Prop :=
  forall s e s', m s = (inl e, s') -> s' = s.

End Engine.

(** A string of hex digits only. *)
Fixpoint all_hex (s : string) : bool :=
  match s with
  | String c s' => bool_decide (is_Some (JS.hex_value c)) && all_hex s'
  | EmptyString => true
  end.


(** ** A small concrete platform

    Keys are numbers and a public key equals its private key; Diffie-
    Hellman is multiplication; "AES-GCM" prefixes the plaintext with a tag
    byte derived from the key and the IV length; a signature is the
    signer's key.  The text encoder replaces the character of code 255 by
    "?", as [TextEncoder] replaces a lone surrogate by U+FFFD.  It is used
    to run the engine on concrete inputs. *)
Module Toy.

Definition tag (key : N) (iv' : list byte) : byte :=
  Base64.byte_of_N (key + N.of_nat (length iv')).

Definition encrypt (key : N) (iv' pt : list byte) : list byte :=
  tag key iv' :: pt.

Definition decrypt (key : N) (iv' ct : list byte) : option (list byte) :=
  match ct with
  | t :: pt => if Byte.eqb t (tag key iv') then Some pt else None
  | [] => None
  end.

Definition encode_text (s : string) : list byte :=
  map (fun b => if Byte.eqb b xff then x3f else b) (list_byte_of_string s).

Fixpoint before_colon (s : string) : string :=
  match s with
  | String c s' => if Ascii.eqb c ":" then "" else String c (before_colon s')
  | EmptyString => ""
  end.

Fixpoint after_colon (s : string) : option string :=
  match s with
  | String c s' => if Ascii.eqb c ":" then Some s' else after_colon s'
  | EmptyString => None
  end.

Definition stringify (jwks : N * N) : string :=
  JS.to_hex (fst jwks) +:+ ":" +:+ JS.to_hex (snd jwks).

Definition parse (s : string) : option (N * N) :=
  match after_colon s with
  | Some r =>
      match JS.parse_hex_digits (before_colon s) None,
            JS.parse_hex_digits r None with
      | Some a, Some b => Some (a, b)
      | _, _ => None
      end
  | None => None
  end.

Definition platform : Platform := {|
  PubKey := N;
  PrivKey := N;
  JWK := N;
  PrivJWK := N;
  Secret := N;
  Signature := N;
  exportPublic := fun k => k;
  exportPrivate := fun k => k;
  importPublic := Some;
  importPrivate := Some;
  getJWKthumbprint := JS.to_hex;
  deriveSharedSecret := N.mul;
  aes_gcm_encrypt := encrypt;
  aes_gcm_decrypt := decrypt;
  ecdsa_sign := fun priv _ _ => priv;
  ecdsa_verify := fun pub _ _ sig => N.eqb sig pub;
  utf8_encode := encode_text;
  utf8_decode := string_of_list_byte;
  stringify_jwks := stringify;
  parse_jwks := parse
|}.

Definition keypair (k : N) : KeyPair platform := mkKeyPair (k : PubKey platform) k.

(** Two clients, each with its own (initially empty) storage. *)
Definition alice : Client platform :=
  mkClient (JS.to_hex 161) (keypair 161) (keypair 162).
Definition bob : Client platform :=
  mkClient (JS.to_hex 177) (keypair 177) (keypair 178).

Definition alice_rnd : Entropy platform :=
  mkEntropy (keypair 163) (keypair 164) [x01; x02; x03].
Definition bob_rnd : Entropy platform :=
  mkEntropy (keypair 179) (keypair 180) [x04; x05; x06].

Definition iv12 : list byte :=
  [xfb; xff; x00; x10; x20; x30; x40; x50; x60; x70; x80; x90].

(** What a call returned, or a blank envelope if it threw. *)
Definition blank : JWS platform :=
  @mkJWS platform (mkHeader "" None)
    (mkPayload None None None None None None None) 0.
Definition returned (r : (Error + JWS platform) * gmap string (Value platform))
    : JWS platform :=
  match fst r with
  | inr j => j
  | inl _ => blank
  end.

(** Scenario: Alice invites (id 10), Bob replies, Alice ingests the
    reply and answers, Bob ingests the answer and writes again. *)
Definition step1 := createInvitation alice alice_rnd 10 None (Some "alice") ∅.
Definition invite := returned step1.
Definition step2 := replyToInvitation 2 bob bob_rnd iv12 invite "hi" ∅.
Definition reply1 := returned step2.
Definition step3 := appendThread 2 alice alice_rnd reply1 None (snd step1).
Definition step4 :=
  replyToThread 2 alice alice_rnd iv12 "a3" "hello bob" false (snd step3).
Definition reply2 := returned step4.
Definition step5 := appendThread 2 bob bob_rnd reply2 None (snd step2).


(** Bob sends a text the encoder cannot represent. *)
Definition lossy_text : string := String (ascii_of_N 255) "".
Definition step8 :=
  replyToThread 2 bob bob_rnd iv12 "b3" lossy_text false (snd step5).

(** A first reply to Alice's invitation that names Alice's own thread
    key as the sender's [epk]; then a message Bob signs, addressed to
    Alice's thread. *)
Definition mirrored_first : JWS platform :=
  @mkJWS platform (mkHeader "ES384" (Some 177))
    (mkPayload (Some "a3") (Some "b") (Some "AAAA") (Some "AQID")
       (Some 163) None None) 177.
Definition step9 :=
  appendThread 2 alice alice_rnd mirrored_first None (snd step1).
Definition mirrored_info : ThreadInfo platform :=
  @mkThreadInfo platform "a3" (Some 163) invite (Some 177).
Definition to_alice : JWS platform :=
  @mkJWS platform (mkHeader "ES384" None)
    (mkPayload (Some "a3") (Some "c") (Some "AAAA") (Some "AQID")
       None None None) 177.
Definition step10 :=
  appendThread 2 alice alice_rnd to_alice (Some "a3") (snd step9).

(** A first reply without [epk] and with an id that does not follow the
    invitation's; one with [epk] and the same wrong id. *)
Definition bare_first : JWS platform :=
  @mkJWS platform (mkHeader "ES384" (Some 177))
    (mkPayload (Some "a3") (Some "c") (Some "AAAA") (Some "AQID")
       None None None) 177.
Definition late_first : JWS platform :=
  @mkJWS platform (mkHeader "ES384" (Some 177))
    (mkPayload (Some "a3") (Some "c") (Some "AAAA") (Some "AQID")
       (Some 179) None None) 177.

(** A message that embeds Bob's key but carries another signature, and
    one from nobody Alice knows. *)
Definition forged : JWS platform :=
  @mkJWS platform (mkHeader "ES384" (Some 177))
    (mkPayload (Some "a3") (Some "c") (Some "AAAA") (Some "AQID")
       None None None) 5.
Definition stray : JWS platform :=
  @mkJWS platform (mkHeader "ES384" None)
    (mkPayload (Some "ff") (Some "c") (Some "AAAA") (Some "AQID")
       None None None) 177.

(** Bob's storage with the thread's id at 2^52 - 1. *)
Definition brim : gmap string (Value platform) :=
  <["message-id:b3" := VString "fffffffffffff"]> (snd step2).
Definition step11 := replyToThread 2 bob bob_rnd iv12 "b3" "x" false brim.

End Toy.

(** * The rest of the client *)

(** ** Vocabulary for the handshake *)

Section Handshake.

Context {P : Platform}.

(** An exported private key imports back to itself. *)
Definition reimports_private (k : PrivKey P) : Prop :=
  importPrivate P (exportPrivate P k) = Some k.

(** [JSON.parse] undoes [JSON.stringify] on an exported key pair. *)
Definition json_roundtrip (k : KeyPair P) : Prop :=
  parse_jwks P (stringify_jwks P (exportKeyPair k)) = Some (exportKeyPair k).

(** The list [appendItem] extends under a key: what is stored there if
    it is a list, and the empty list otherwise. *)
Definition listAt (s : gmap string (Value P)) (key : string)
    : list (Value P) :=
  match s !! key with
  | Some (VList l) => l
  | _ => []
  end.

(** The storage after the five writes of [startThread] (lines 292-301),
    in the order the code makes them. *)
Definition threadStarted (c : Client P) (signedInvite' : JWS P)
    (theirEPKJWK : option (JWK P)) (theirSignature' : JWK P)
    (messageId' : option string) (my : string)
    (s : gmap string (Value P)) : gmap string (Value P) :=
  <["message-id:" +:+ my :=
      match messageId' with
      | Some m => VString m
      | None => VUndefined
      end]>
    (snd (appendItem ("messages:" +:+ my) (VJWS signedInvite')
       (snd (appendItem ("threads:" +:+ thumbprint c) (VString my)
          (<["thread-info:" +:+ my :=
               VThreadInfo
                 (mkThreadInfo my theirEPKJWK signedInvite'
                    (Some theirSignature'))]>
             (<["public-key:" +:+ getJWKthumbprint P theirSignature' :=
                  VJWK theirSignature']> s)))))).

(** A computation that leaves every key in [keep] as it was, whatever
    it returns or throws. *)
Definition preserves {A} (keep : string -> Prop) (m : @M P A) : Prop :=
  forall s r s', m s = (r, s') -> forall key, keep key -> s' !! key = s !! key.

End Handshake.

Section Contracts.

Context {P : Platform}.

(** The platform's contracts for a client's identity key: its signatures
    verify, and its exported public half imports back. *)
Definition honest_identity (c : Client P) : Prop :=
  signs_for (identityKeyPair c) /\ reimports (publicKey (identityKeyPair c)).

(** The platform's contracts for the keys one [makeThreadKeys] call
    draws: the backup can be sealed for the client (the sealing key
    imports back and agrees with the storage key), and the thread key
    survives export, JSON, the text codec and import, and has a
    thumbprint. *)
Definition usable_draw (c : Client P) (rnd : Entropy P) : Prop :=
  reimports (publicKey (fresh_self_epk rnd))
  /\ dh_agree (fresh_self_epk rnd) (storageKeyPair c)
  /\ reimports (publicKey (fresh_thread_key rnd))
  /\ reimports_private (privateKey (fresh_thread_key rnd))
  /\ json_roundtrip (fresh_thread_key rnd)
  /\ well_formed_text (P := P)
       (stringify_jwks P (exportKeyPair (fresh_thread_key rnd)))
  /\ getJWKthumbprint P (exportPublic P (publicKey (fresh_thread_key rnd)))
     <> "".

End Contracts.

(** ** Calls of [appendThread] that start no thread *)

Section Runs.

Context {P : Platform}.


End Runs.

(** ** The identity manager: [generateClient] and [loadClient] *)

(** Modelled from the spec: [encryptPrivateKey] and [decryptPrivateKey]
    of [utils] (section 4.1, [wrap_private(jwk, password)] giving an
    opaque string and [unwrap_private(blob, password)] giving the JWK
    back or failing).  [Salt] stands for the random salt and IV one
    wrapping draws. *)
Record Vault (P : Platform) : Type := {
  Salt : Type;
  encryptPrivateKey : PrivJWK P -> string -> Salt -> string;
  decryptPrivateKey : string -> string -> option (PrivJWK P)
}.
Arguments Salt {P}.
Arguments encryptPrivateKey {P}.
Arguments decryptPrivateKey {P}.

(** The object stored under [identity:<thumbprint>] (lines 101-110):
    [{id: {jwk, private}, storage: {jwk, private}}]. *)
Record StoredIdentity (P : Platform) : Type := mkStoredIdentity {
  id_jwk : JWK P;
  id_private : string;
  storage_jwk : JWK P;
  storage_private : string
}.
Arguments mkStoredIdentity {P}.
Arguments id_jwk {P}.
Arguments id_private {P}.
Arguments storage_jwk {P}.
Arguments storage_private {P}.

(** The failures of [loadClient]: the [invariant] of line 121, a
    [decryptPrivateKey] that throws, an [importKeyPair] that throws. *)
Inductive IdentityError : Type :=
  | NoIdentityFound            (* "No identity found for thumbprint" *)
  | UnwrapFailed               (* decryptPrivateKey threw *)
  | ImportFailed.              (* importKeyPair threw *)

Section Identity.

Context {P : Platform} (V : Vault P).

(** The [identity:] namespace of the storage.  Nothing else in the
    client reads or writes it, so it is kept apart from the engine's
    storage, and it holds identity records only. *)
Abbreviation Identities := (gmap string (StoredIdentity P)).

(** Modelled from the spec: [importKeyPair] of [utils] (section 4.1,
    JWK import): both halves are imported, and either import can
    fail. *)
Definition importKeyPair (privateKeyJWK : PrivJWK P) (publicKeyJWK : JWK P)
    : option (KeyPair P) :=
  match importPrivate P privateKeyJWK, importPublic P publicKeyJWK with
  | Some priv, Some pub => Some (mkKeyPair pub priv)
  | _, _ => None
  end.

(** *** [loadClient] (lines 115-144) *)
Definition loadClient (storage : Identities) (thumbprint' password : string)
    : IdentityError + Client P :=
  match storage !! ("identity:" +:+ thumbprint') with
  | None => inl NoIdentityFound
  | Some storedData =>
      match decryptPrivateKey V (id_private storedData) password with
      | None => inl UnwrapFailed
      | Some privateKeyJWK =>
          match importKeyPair privateKeyJWK (id_jwk storedData) with
          | None => inl ImportFailed
          | Some id' =>
              match decryptPrivateKey V (storage_private storedData)
                      password with
              | None => inl UnwrapFailed
              | Some storagePrivate =>
                  match importKeyPair storagePrivate
                          (storage_jwk storedData) with
                  | None => inl ImportFailed
                  | Some storageKeys =>
                      inr (mkClient thumbprint' id' storageKeys)
                  end
              end
          end
      end
  end.

(** *** [generateClient] (lines 81-113); [identity] and [storageKey] are
    the generated key pairs, [salt1] and [salt2] the draws of the two
    wrappings.  The record is written before the client is loaded
    back. *)
Definition generateClient (identity storageKey : KeyPair P)
    (salt1 salt2 : Salt V) (password : string) (storage : Identities)
    : (IdentityError + Client P) * Identities :=
  let idJWKs := exportKeyPair identity in
  let storageJWKs := exportKeyPair storageKey in
  let encryptedIdentity := encryptPrivateKey V (fst idJWKs) password salt1 in
  let encryptedStorageKey :=
    encryptPrivateKey V (fst storageJWKs) password salt2 in
  let thumbprint' := getJWKthumbprint P (snd idJWKs) in
  let storage' :=
    <["identity:" +:+ thumbprint' :=
        mkStoredIdentity (snd idJWKs) encryptedIdentity
          (snd storageJWKs) encryptedStorageKey]> storage in
  (loadClient storage' thumbprint' password, storage').

(** Unwrapping with the password of the wrapping gives the key back. *)
Definition unwraps (k : PrivJWK P) (password : string) (salt : Salt V)
    : Prop :=
  decryptPrivateKey V (encryptPrivateKey V k password salt) password = Some k.

End Identity.

(** ** Key nicknames (lines 25-49) *)

(** The module-level [keyNicknames] map. *)
Abbreviation Nicknames := (gmap string string).

Definition setNickname (key nickname : string) (keyNicknames : Nicknames)
    : Nicknames :=
  <[key := nickname]> keyNicknames.

(** [s.substring(start)]: a negative [start] counts as 0. *)
Definition substring_from (start : Z) (s : string) : string :=
  String.substring (Z.to_nat start) (String.length s) s.

Definition getNickname (key : string) (keyNicknames : Nicknames) : string :=
  tmpl (keyNicknames !! key) +:+ "("
  +:+ substring_from (Z.of_nat (String.length key) - 5) key +:+ ")".

(** [key.indexOf(":")], with [None] for -1. *)
Fixpoint indexOfColon (key : string) : option nat :=
  match key with
  | EmptyString => None
  | String c rest =>
      if Ascii.eqb c ":" then Some O else S <$> indexOfColon rest
  end.

(** The callback of lines 35-46: the key under which an entry is
    serialized. *)
Definition nicknamedKey (keyNicknames : Nicknames) (key : string) : string :=
  match indexOfColon key with
  | Some (S i') =>
      let i := S i' in
      let prefix := String.substring 0 i key in
      let thumbprint' :=
        String.substring (i + 1) (String.length key - (i + 1)) key in
      match keyNicknames !! thumbprint' with
      | Some nickname' => prefix +:+ ":[" +:+ nickname' +:+ "]"
      | None => key
      end
  | _ => key
  end.

(** [serializeWithNicknames]; [entries] is [Object.entries(data)] and
    [stringify] is [JSON.stringify(Object.fromEntries(_), null, 2)]. *)
Definition serializeWithNicknames {A} (stringify : list (string * A) -> string)
    (entries : list (string * A)) (keyNicknames : Nicknames) : string :=
  stringify
    (map (fun kv => (nicknamedKey keyNicknames (fst kv), snd kv)) entries).

(** Line 310 of [makeThreadKeys]: the thread key's thumbprint is given
    the nickname [thread[<clientNickname>]]. *)
Definition nicknameThreadKey {P : Platform} (clientNickname : string)
    (rnd : Entropy P) (keyNicknames : Nicknames) : Nicknames :=
  setNickname
    (getJWKthumbprint P (snd (exportKeyPair (fresh_thread_key rnd))))
    ("thread[" +:+ clientNickname +:+ "]") keyNicknames.

(** [setClientNickname] (lines 55-69): the field [clientNickname] takes
    the new value, returned first; a non-empty nickname is also
    registered for the identity key and, as [storage[<nickname>]], for
    the storage key. *)
Definition setClientNickname {P : Platform} (c : Client P)
    (nickname : string) (keyNicknames : Nicknames) : string * Nicknames :=
  (nickname,
   if nonempty (Some nickname)
   then setNickname
          (getJWKthumbprint P (exportPublic P (publicKey (storageKeyPair c))))
          ("storage[" +:+ nickname +:+ "]")
          (setNickname (thumbprint c) nickname keyNicknames)
   else keyNicknames).

(** ** More runs on the concrete platform *)
Module Stage.

Import Toy.

(** The envelope stored under a key, or a blank one. *)
Definition stored (s : gmap string (Value platform)) (key : string)
    : JWS platform :=
  match s !! key with
  | Some (VJWS j) => j
  | _ => blank
  end.

(** A first reply to Alice's invitation, with the right id and Bob's
    keys, under a signature that is not Bob's. *)
Definition forged_first : JWS platform :=
  @mkJWS platform (mkHeader "ES384" (Some 177))
    (mkPayload (Some "a3") (Some "b") (Some "AAAA") (Some "AQID")
       (Some 179) None None) 5.
Definition step12 :=
  appendThread 2 alice alice_rnd forged_first None (snd step1).

(** Bob ingests Alice's answer under the thread's thumbprint, twice. *)
Definition step13 := appendThread 2 bob bob_rnd reply2 (Some "b3") (snd step2).
Definition step14 :=
  appendThread 2 bob bob_rnd reply2 (Some "b3") (snd step13).

(** Bob's thread-info and Alice's after the handshake. *)
Definition alice_info : ThreadInfo platform :=
  @mkThreadInfo platform "a3" (Some 179) invite (Some 177).
Definition bob_info : ThreadInfo platform :=
  @mkThreadInfo platform "b3" (Some 163) invite (Some 161).

(** An envelope without key and without address. *)
Definition unaddressed : JWS platform :=
  @mkJWS platform (mkHeader "ES384" None)
    (mkPayload None (Some "c") (Some "AAAA") (Some "AQID")
       None None None) 177.
Definition odd_store : gmap string (Value platform) :=
  <["thread-info:undefined" := VThreadInfo alice_info]> ∅.

(** A vault that writes the password before the key, in clear. *)
Definition wrap (k : N) (password : string) (salt : unit) : string :=
  password +:+ ":" +:+ JS.to_hex k.
Definition unwrap (blob password : string) : option N :=
  if String.eqb (before_colon blob) password
  then match after_colon blob with
       | Some hex => JS.parse_hex_digits hex None
       | None => None
       end
  else None.
Definition vault : Vault platform :=
  Build_Vault platform unit wrap unwrap.

Definition carol := generateClient vault (keypair 193) (keypair 194) tt tt
                      "secret" ∅.

(** A second draw of thread keys for Alice. *)
Definition alice_rnd2 : Entropy platform :=
  mkEntropy (keypair 165) (keypair 166) [x07; x08; x09].

(** A stand-in for [JSON.stringify]: the keys, one per line. *)
Definition keys_only (entries : list (string * N)) : string :=
  String.concat (String "010" "") (map fst entries).

(** A thread a3 whose recorded peer key is the thread's own key 163,
    and whose recorded peer signature key is Alice's: in Alice's
    storage, and in Bob's after he drew the same thread key. *)
Definition echo_info : ThreadInfo platform :=
  @mkThreadInfo platform "a3" (Some 163) invite (Some 161).
Definition alice_echo : gmap string (Value platform) :=
  <["thread-info:a3" := VThreadInfo echo_info]> (snd step3).
Definition bob_echo : gmap string (Value platform) :=
  <["thread-info:a3" := VThreadInfo echo_info]>
    (snd (createInvitation bob alice_rnd 10 None None ∅)).
Definition step15 :=
  replyToThread 2 alice alice_rnd iv12 "a3" "hello" false alice_echo.

End Stage.

(** ** A platform whose text decoder drops a byte order mark

    The small platform above, with texts held as their UTF-8 bytes:
    the encoder hands the bytes on, and the decoder drops a leading
    EF BB BF, as [new TextDecoder()] (line 176, [ignoreBOM] false)
    drops a leading U+FEFF. *)
Module Bom.

Definition decode_text (bs : list byte) : string :=
  match bs with
  | b0 :: b1 :: b2 :: rest =>
      if Byte.eqb b0 xef && Byte.eqb b1 xbb && Byte.eqb b2 xbf
      then string_of_list_byte rest
      else string_of_list_byte bs
  | _ => string_of_list_byte bs
  end.

Definition platform : Platform := {|
  PubKey := N;
  PrivKey := N;
  JWK := N;
  PrivJWK := N;
  Secret := N;
  Signature := N;
  exportPublic := fun k => k;
  exportPrivate := fun k => k;
  importPublic := Some;
  importPrivate := Some;
  getJWKthumbprint := JS.to_hex;
  deriveSharedSecret := N.mul;
  aes_gcm_encrypt := Toy.encrypt;
  aes_gcm_decrypt := Toy.decrypt;
  ecdsa_sign := fun priv _ _ => priv;
  ecdsa_verify := fun pub _ _ sig => N.eqb sig pub;
  utf8_encode := list_byte_of_string;
  utf8_decode := decode_text;
  stringify_jwks := Toy.stringify;
  parse_jwks := Toy.parse
|}.

Definition keypair (k : N) : KeyPair platform :=
  mkKeyPair (k : PubKey platform) k.

Definition alice : Client platform :=
  mkClient (JS.to_hex 161) (keypair 161) (keypair 162).


End Bom.

(** * Proofs *)

(** ** Facts about the number model *)
Section Numbers.

Lemma below_in_range (k : nat) (n : N) :
  n < N.of_nat k -> In n (map N.of_nat (seq 0 k)).
Proof.
  intros H. apply in_map_iff. exists (N.to_nat n). split.
  - apply N2Nat.id.
  - apply in_seq. lia.
Qed.

Lemma hex_value_digit (d : N) :
  d < 16 -> JS.hex_value (JS.hex_digit d) = Some d.
Proof.
  intros H.
  assert (Hall : forallb
            (fun d => match JS.hex_value (JS.hex_digit d) with
                      | Some d' => d' =? d
                      | None => false
                      end) (map N.of_nat (seq 0 16)) = true)
    by reflexivity.
  rewrite forallb_forall in Hall.
  specialize (Hall d (below_in_range 16 d H)).
  destruct (JS.hex_value (JS.hex_digit d)); [|discriminate].
  apply N.eqb_eq in Hall. congruence.
Qed.

Lemma append_cons (c : ascii) (a b : string) :
  String c a +:+ b = String c (a +:+ b).
Proof. reflexivity. Qed.

Lemma append_nil (b : string) : "" +:+ b = b.
Proof. reflexivity. Qed.

Lemma append_assoc (a b c : string) : (a +:+ b) +:+ c = a +:+ (b +:+ c).
Proof.
  induction a as [|x a IH]; [reflexivity|].
  rewrite !append_cons, IH. reflexivity.
Qed.

Lemma all_hex_app (a b : string) :
  all_hex (a +:+ b) = all_hex a && all_hex b.
Proof.
  induction a as [|c a IH]; [reflexivity|].
  rewrite append_cons. simpl. rewrite IH. apply andb_assoc.
Qed.

Lemma to_hex_aux_spec (f : nat) :
  forall n acc, n < 16 ^ N.of_nat (S f) ->
    exists c ds,
      JS.to_hex_aux (S f) n acc = String c ds +:+ acc
      /\ all_hex (String c ds) = true
      /\ forall rest,
           JS.parse_hex_digits (String c ds +:+ rest) None
           = JS.parse_hex_digits rest (Some n).
Proof.
  induction f as [|f IH]; intros n acc Hn.
  - change (16 ^ N.of_nat 1) with 16 in Hn.
    exists (JS.hex_digit n), "". cbn [JS.to_hex_aux].
    apply N.ltb_lt in Hn as Hn'. rewrite Hn'.
    rewrite N.mod_small by exact Hn.
    rewrite !append_cons, !append_nil. cbn [all_hex].
    rewrite hex_value_digit by exact Hn.
    repeat split. intros rest.
    rewrite append_cons, append_nil. cbn [JS.parse_hex_digits].
    rewrite hex_value_digit by exact Hn. reflexivity.
  - cbn [JS.to_hex_aux]. destruct (n <? 16) eqn:Hlt.
    + apply N.ltb_lt in Hlt.
      exists (JS.hex_digit n), "".
      rewrite N.mod_small by exact Hlt.
      rewrite !append_cons, !append_nil. cbn [all_hex].
      rewrite hex_value_digit by exact Hlt.
      repeat split. intros rest.
      rewrite append_cons, append_nil. cbn [JS.parse_hex_digits].
      rewrite hex_value_digit by exact Hlt. reflexivity.
    + apply N.ltb_ge in Hlt.
      assert (Hq : n / 16 < 16 ^ N.of_nat (S f)).
      { apply N.Div0.div_lt_upper_bound.
        replace (N.of_nat (S (S f))) with (N.succ (N.of_nat (S f))) in Hn
          by lia.
        rewrite N.pow_succ_r' in Hn. exact Hn. }
      destruct (IH (n / 16) (String (JS.hex_digit (n mod 16)) acc) Hq)
        as (c & ds & Heq & Hall & Hparse).
      exists c, (ds +:+ String (JS.hex_digit (n mod 16)) "").
      assert (Hd : n mod 16 < 16) by (apply N.mod_lt; lia).
      split; [|split].
      * change (JS.to_hex_aux (S f) (n / 16)
                  (String (JS.hex_digit (n mod 16)) acc)
                = String c (ds +:+ String (JS.hex_digit (n mod 16)) "")
                  +:+ acc).
        rewrite Heq, !append_cons, append_assoc. reflexivity.
      * change (String c (ds +:+ String (JS.hex_digit (n mod 16)) ""))
          with (String c ds +:+ String (JS.hex_digit (n mod 16)) "").
        rewrite all_hex_app, Hall.
        cbn [all_hex]. rewrite hex_value_digit by exact Hd. reflexivity.
      * intros rest.
        assert (E : String c (ds +:+ String (JS.hex_digit (n mod 16)) "")
                    +:+ rest
                    = String c ds +:+ String (JS.hex_digit (n mod 16)) rest).
        { rewrite !append_cons, append_assoc. reflexivity. }
        rewrite E, Hparse. cbn [JS.parse_hex_digits].
        rewrite hex_value_digit by exact Hd.
        f_equal. f_equal. rewrite (N.div_mod' n 16) at 3. reflexivity.
Qed.

Lemma hex_char_plain (c : ascii) (s : string) :
  is_Some (JS.hex_value c) ->
  JS.is_space c = false
  /\ JS.strip_sign (String c s) = (false, String c s)
  /\ c <> "x"%char /\ c <> "X"%char.
Proof.
  intros [d Hd]. revert Hd.
  destruct c as [[] [] [] [] [] [] [] []]; vm_compute; intros Hd;
    try discriminate; repeat split; discriminate.
Qed.

Lemma strip_0x_hex (c : ascii) (s : string) :
  all_hex (String c s) = true -> JS.strip_0x (String c s) = String c s.
Proof.
  cbn [all_hex]. intros H. apply andb_true_iff in H as [_ Hs].
  destruct s as [|c2 s2].
  - destruct c as [[] [] [] [] [] [] [] []]; reflexivity.
  - cbn [all_hex] in Hs. apply andb_true_iff in Hs as [Hc2 _].
    apply bool_decide_eq_true in Hc2.
    destruct (hex_char_plain c2 "" Hc2) as (_ & _ & Hx & HX).
    unfold JS.strip_0x.
    destruct c as [[] [] [] [] [] [] [] []]; try reflexivity.
    destruct c2 as [[] [] [] [] [] [] [] []]; try reflexivity;
      congruence.
Qed.

Lemma parseInt16_hex (c : ascii) (s : string) (n : N) :
  all_hex (String c s) = true ->
  JS.parse_hex_digits (String c s) None = Some n ->
  JS.parseInt16 (String c s) = JS.of_Z (Z.of_N n).
Proof.
  intros Hall Hparse. unfold JS.parseInt16.
  assert (Hc : is_Some (JS.hex_value c)).
  { cbn [all_hex] in Hall. apply andb_true_iff in Hall as [Hc _].
    by apply bool_decide_eq_true in Hc. }
  destruct (hex_char_plain c s Hc) as (Hsp & Hsign & _ & _).
  cbn [JS.skip_space]. rewrite Hsp, Hsign.
  rewrite strip_0x_hex by exact Hall.
  rewrite Hparse. reflexivity.
Qed.

Lemma parseInt16_to_hex (n : N) :
  JS.parseInt16 (JS.to_hex n) = JS.of_Z (Z.of_N n).
Proof.
  unfold JS.to_hex.
  assert (Hn : n < 16 ^ N.of_nat (S (N.to_nat (N.log2 n)))).
  { replace (N.of_nat (S (N.to_nat (N.log2 n)))) with (N.succ (N.log2 n))
      by lia.
    destruct (N.eq_dec n 0) as [->|Hpos]; [reflexivity|].
    apply N.lt_le_trans with (2 ^ N.succ (N.log2 n)).
    - apply N.log2_spec. lia.
    - apply N.pow_le_mono_l. lia. }
  destruct (to_hex_aux_spec _ n "" Hn) as (c & ds & Heq & Hall & Hparse).
  rewrite Heq.
  assert (E : String c ds +:+ "" = String c ds).
  { clear. generalize (String c ds). intros t.
    induction t as [|x t IH]; [reflexivity|].
    rewrite append_cons, IH. reflexivity. }
  rewrite E. apply parseInt16_hex; [exact Hall|].
  rewrite <- E at 1. apply Hparse.
Qed.

Lemma round53_small (z : Z) : (0 <= z < 2 ^ 53)%Z -> JS.round53 z = z.
Proof.
  intros [H0 H1]. unfold JS.round53.
  destruct (Z.log2 z - 52 <=? 0)%Z eqn:He; [reflexivity|].
  apply Z.leb_gt in He.
  destruct (Z.eq_dec z 0%Z) as [->|Hz]; [vm_compute in He; discriminate|].
  assert (Z.log2 z < 53)%Z by (apply Z.log2_lt_pow2; lia).
  lia.
Qed.

Lemma of_Z_small (z : Z) : (0 <= z < 2 ^ 53)%Z -> JS.of_Z z = JS.Num z.
Proof.
  intros H. unfold JS.of_Z.
  rewrite Z.abs_eq by lia. rewrite round53_small by exact H.
  assert (H53 : (2 ^ 53 < 2 ^ 1024)%Z) by (apply Z.pow_lt_mono_r; lia).
  destruct (2 ^ 1024 <=? z)%Z eqn:Hbig; [apply Z.leb_le in Hbig; lia|].
  destruct (z <? 0)%Z eqn:Hneg; [apply Z.ltb_lt in Hneg; lia|].
  reflexivity.
Qed.

Lemma parseInt16_toString16 (z : Z) :
  (0 <= z < 2 ^ 53)%Z -> JS.parseInt16 (JS.toString16 (JS.Num z)) = JS.Num z.
Proof.
  intros H. unfold JS.toString16.
  destruct (z <? 0)%Z eqn:Hneg; [apply Z.ltb_lt in Hneg; lia|].
  rewrite parseInt16_to_hex, Z2N.id by lia.
  apply of_Z_small, H.
Qed.

Lemma succ_small (z : Z) :
  (0 <= z < 2 ^ 53 - 1)%Z -> JS.succ (JS.Num z) = JS.Num (z + 1).
Proof. intros H. apply of_Z_small. lia. Qed.

End Numbers.

(** ** The base64 codecs are inverse to each other *)
Section Base64Facts.

Lemma base64_value_char (url : bool) (n : N) :
  n < 64 ->
  Base64.value (Base64.char url n) = Some n
  /\ Ascii.eqb (Base64.char url n) "=" = false.
Proof.
  intros H.
  assert (Hall : forallb
            (fun n => match Base64.value (Base64.char url n) with
                      | Some v => (v =? n) && negb (Ascii.eqb (Base64.char url n) "=")
                      | None => false
                      end) (map N.of_nat (seq 0 64)) = true)
    by (destruct url; reflexivity).
  rewrite forallb_forall in Hall.
  specialize (Hall n (below_in_range 64 n H)).
  destruct (Base64.value (Base64.char url n)); [|discriminate].
  apply andb_true_iff in Hall as [Hv Hp].
  apply N.eqb_eq in Hv. apply negb_true_iff in Hp. by subst.
Qed.

Lemma sextets_char (url : bool) (n : N) (s : string) :
  n < 64 ->
  Base64.sextets (String (Base64.char url n) s) = n :: Base64.sextets s.
Proof.
  intros H. destruct (base64_value_char url n H) as [Hv Hp].
  cbn [Base64.sextets]. rewrite Hp, Hv. reflexivity.
Qed.

Lemma byte_of_to_N (b : byte) (n : N) :
  n mod 256 = Byte.to_N b -> Base64.byte_of_N n = b.
Proof.
  intros H. unfold Base64.byte_of_N. rewrite H, Byte.of_to_N. reflexivity.
Qed.

Lemma list_ind3 {A} (Q : list A -> Prop) :
  Q [] -> (forall a, Q [a]) -> (forall a b, Q [a; b]) ->
  (forall a b c l, Q l -> Q (a :: b :: c :: l)) ->
  forall l, Q l.
Proof.
  intros H0 H1 H2 H3.
  assert (Hall : forall l, Q l /\ (forall a, Q (a :: l))
                           /\ (forall a b, Q (a :: b :: l))).
  { induction l as [|x l (IH0 & IH1 & IH2)]; [by auto|].
    repeat split; auto. }
  intros l. apply Hall.
Qed.

Ltac euclid := Z.to_euclidean_division_equations; lia.

Lemma decode_encode (url : bool) (bs : list byte) :
  Base64.decode (Base64.encode url bs) = bs.
Proof.
  unfold Base64.decode.
  induction bs as [|a|a b|a b c l IH] using list_ind3.
  - reflexivity.
  - pose proof (Byte.to_N_bounded a) as Ha.
    cbn [Base64.encode].
    rewrite !sextets_char by (zify; euclid).
    assert (E : Base64.sextets (if url then "" else "==") = [])
      by (destruct url; reflexivity).
    rewrite E. cbn [Base64.bytes]. f_equal.
    apply byte_of_to_N. zify; euclid.
  - pose proof (Byte.to_N_bounded a) as Ha.
    pose proof (Byte.to_N_bounded b) as Hb.
    cbn [Base64.encode].
    rewrite !sextets_char by (zify; euclid).
    assert (E : Base64.sextets (if url then "" else "=") = [])
      by (destruct url; reflexivity).
    rewrite E. cbn [Base64.bytes].
    f_equal; [|f_equal]; apply byte_of_to_N; zify; euclid.
  - pose proof (Byte.to_N_bounded a) as Ha.
    pose proof (Byte.to_N_bounded b) as Hb.
    pose proof (Byte.to_N_bounded c) as Hc.
    cbn [Base64.encode].
    rewrite !sextets_char by (zify; euclid).
    cbn [Base64.bytes]. rewrite IH.
    f_equal; [|f_equal; [|f_equal]]; apply byte_of_to_N; zify; euclid.
Qed.

End Base64Facts.

(** ** Running the engine: general facts *)
Section MonadFacts.

Context {P : Platform}.

Lemma bind_ok {A B} (m : @M P A) (k : A -> @M P B) s b s' :
  bind m k s = (inr b, s') ->
  exists a s1, m s = (inr a, s1) /\ k a s1 = (inr b, s').
Proof.
  unfold bind. destruct (m s) as [[e|a] s1]; [discriminate|]. eauto.
Qed.

Lemma bind_err {A B} (m : @M P A) (k : A -> @M P B) s e s' :
  bind m k s = (inl e, s') ->
  m s = (inl e, s')
  \/ exists a s1, m s = (inr a, s1) /\ k a s1 = (inl e, s').
Proof.
  unfold bind. destruct (m s) as [[e0|a] s1]; [left; congruence|]. eauto.
Qed.

Lemma bind_run {A B} (m : @M P A) (k : A -> @M P B) s a s1 :
  m s = (inr a, s1) -> bind m k s = k a s1.
Proof. unfold bind. intros ->. reflexivity. Qed.

Lemma bind_fail {A B} (m : @M P A) (k : A -> @M P B) s e s1 :
  m s = (inl e, s1) -> bind m k s = (inl e, s1).
Proof. unfold bind. intros ->. reflexivity. Qed.

Lemma readonly_ret {A} (a : A) : readonly (@ret P A a).
Proof. intros s. reflexivity. Qed.
Lemma readonly_throw {A} e : readonly (@throw P A e).
Proof. intros s. reflexivity. Qed.
Lemma readonly_lift {A} (r : Error + A) : readonly (@lift P A r).
Proof. intros s. reflexivity. Qed.
Lemma readonly_invariant b e : readonly (@invariant P b e).
Proof. intros s. destruct b; reflexivity. Qed.
Lemma readonly_getItem k : readonly (@getItem P k).
Proof. intros s. reflexivity. Qed.
Lemma readonly_hasItem k : readonly (@hasItem P k).
Proof. intros s. reflexivity. Qed.
Lemma readonly_bind {A B} (m : @M P A) (k : A -> @M P B) :
  readonly m -> (forall a, readonly (k a)) -> readonly (bind m k).
Proof.
  intros Hm Hk s. unfold bind. specialize (Hm s).
  destruct (m s) as [[e|a] s1]; simpl in *; subst; [reflexivity|].
  apply Hk.
Qed.

Lemma readonly_run {A} (m : @M P A) s r s' :
  readonly m -> m s = (r, s') -> s' = s.
Proof. intros H E. specialize (H s). rewrite E in H. exact H. Qed.

Lemma clean_readonly {A} (m : @M P A) : readonly m -> clean_failure m.
Proof. intros H s e s' E. eapply readonly_run; eauto. Qed.

Lemma clean_bind_readonly {A B} (m : @M P A) (k : A -> @M P B) :
  readonly m -> (forall a, clean_failure (k a)) -> clean_failure (bind m k).
Proof.
  intros Hm Hk s e s' E. apply bind_err in E as [E|(a & s1 & E1 & E2)].
  - eapply readonly_run; eauto.
  - apply (readonly_run _ _ _ _ Hm) in E1 as ->. eapply Hk; eauto.
Qed.

Lemma clean_total {A} (m : @M P A) :
  (forall s, exists a s', m s = (inr a, s')) -> clean_failure m.
Proof. intros H s e s' E. destruct (H s) as (a & s1 & E1). congruence. Qed.

End MonadFacts.

Create HintDb engine.

#[export] Hint Resolve readonly_ret readonly_throw readonly_lift
  readonly_invariant readonly_getItem readonly_hasItem : engine.

(** Keys of different namespaces never coincide. *)
Ltac distinct_keys :=
  let H := fresh in
  intros H; repeat rewrite append_cons in H; congruence.

Section KeyFacts.

Lemma id_vs_info (a b : string) : "message-id:" +:+ a <> "thread-info:" +:+ b.
Proof. distinct_keys. Qed.
Lemma id_vs_backup (a b : string) :
  "message-id:" +:+ a <> "encrypted-thread-key:" +:+ b.
Proof. distinct_keys. Qed.
Lemma id_vs_messages (a b : string) : "message-id:" +:+ a <> "messages:" +:+ b.
Proof. distinct_keys. Qed.
Lemma messages_vs_info (a b : string) :
  "messages:" +:+ a <> "thread-info:" +:+ b.
Proof. distinct_keys. Qed.
Lemma messages_vs_backup (a b : string) :
  "messages:" +:+ a <> "encrypted-thread-key:" +:+ b.
Proof. distinct_keys. Qed.

End KeyFacts.

Section SelfEncryption.

Context {P : Platform}.

Lemma Buffer_from_encode (url : bool) (bs : list byte) :
  Buffer_from (Some (Base64.encode url bs)) = Some bs.
Proof. unfold Buffer_from. simpl. f_equal. apply decode_encode. Qed.

Lemma string_eqb_refl (m : string) : String.eqb m m = true.
Proof. apply String.eqb_eq. reflexivity. Qed.


End SelfEncryption.

Section StepFacts.

Context {P : Platform}.

Lemma getItem_ok k (s : gmap string (Value P)) a s1 :
  getItem k s = (inr a, s1) -> a = s !! k /\ s1 = s.
Proof. unfold getItem. intros [= <- <-]. auto. Qed.

Lemma hasItem_ok k (s : gmap string (Value P)) a s1 :
  hasItem k s = (inr a, s1) -> a = bool_decide (is_Some (s !! k)) /\ s1 = s.
Proof. unfold hasItem. intros [= <- <-]. auto. Qed.

Lemma setItem_ok k v (s : gmap string (Value P)) a s1 :
  setItem k v s = (inr a, s1) -> s1 = <[k := v]> s.
Proof. unfold setItem. intros [= <- <-]. auto. Qed.

Lemma invariant_ok b e (s : gmap string (Value P)) a s1 :
  invariant b e s = (inr a, s1) -> b = true /\ s1 = s.
Proof. destruct b; unfold invariant, ret, throw; intros [= <-]; auto. Qed.

Lemma lift_ok {A} (r : Error + A) (s : gmap string (Value P)) a s1 :
  lift r s = (inr a, s1) -> r = inr a /\ s1 = s.
Proof. unfold lift. intros [= <- <-]. auto. Qed.

Lemma ret_ok {A} (x : A) (s : gmap string (Value P)) a s1 :
  ret x s = (inr a, s1) -> a = x /\ s1 = s.
Proof. unfold ret. intros [= <- <-]. auto. Qed.

Lemma readThreadSecret_readonly (c : Client P) (T : string) :
  readonly (readThreadSecret c T).
Proof.
  unfold readThreadSecret.
  repeat (apply readonly_bind; [solve [auto with engine]|intros ?]).
  auto with engine.
Qed.

(** [readThreadSecret] looks at thread-info and key-backup entries only. *)
Lemma readThreadSecret_frame (c : Client P) (T k : string) (v : Value P)
    (s : gmap string (Value P)) :
  (forall x, k <> "thread-info:" +:+ x) ->
  (forall x, k <> "encrypted-thread-key:" +:+ x) ->
  fst (readThreadSecret c T (<[k := v]> s)) = fst (readThreadSecret c T s).
Proof.
  intros Hinfo Hkey.
  unfold readThreadSecret, bind, getItem.
  rewrite lookup_insert_ne by apply Hinfo.
  destruct (invariant (truthy (s !! ("thread-info:" +:+ T))) ThreadNotFound
              (<[k:=v]> s)) as [[e|[]] s1] eqn:E1;
  destruct (invariant (truthy (s !! ("thread-info:" +:+ T))) ThreadNotFound
              s) as [[e'|[]] s1'] eqn:E1';
    unfold invariant, ret, throw in E1, E1';
    destruct (truthy (s !! ("thread-info:" +:+ T))); simplify_eq; try reflexivity.
  destruct (bool_decide _); unfold invariant, ret, throw, lift;
    [|reflexivity].
  destruct (importKey _); [reflexivity|].
  rewrite lookup_insert_ne by apply Hkey.
  repeat case_match; simplify_eq; reflexivity.
Qed.

Lemma appendThread_known (fuel : nat) (c : Client P) (rnd : Entropy P)
    (m : JWS P) (T : string) :
  T <> "" ->
  appendThread (S fuel) c rnd m (Some T) = appendThreadKnown c m T.
Proof. intros HT. destruct T; [congruence|reflexivity]. Qed.

Lemma appendThreadKnown_clean (c : Client P) (m : JWS P) (T : string) :
  clean_failure (appendThreadKnown c m T).
Proof.
  unfold appendThreadKnown.
  repeat (apply clean_bind_readonly;
          [solve [auto using readThreadSecret_readonly with engine]|intros ?]).
  apply clean_total. intros s. unfold bind, appendItem, ret. eauto.
Qed.

Lemma appendThreadKnown_ok (c : Client P) (m : JWS P) (T : string)
    (s s' : gmap string (Value P)) r :
  appendThreadKnown c m T s = (inr r, s') ->
  truthy (s !! ("thread-info:" +:+ T)) = true
  /\ verifyAppended c m m (s !! ("thread-info:" +:+ T)) = inr tt
  /\ fst r = T
  /\ s' = snd (appendItem ("messages:" +:+ T) (VJWS m) s).
Proof.
  unfold appendThreadKnown. intros H.
  apply bind_ok in H as (ti & s1 & H1 & H). apply getItem_ok in H1 as [-> ->].
  apply bind_ok in H as (jws & s1 & H1 & H). apply lift_ok in H1 as [H1 ->].
  injection H1 as <-.
  apply bind_ok in H as ([] & s1 & H1 & H). apply invariant_ok in H1 as [Ht ->].
  apply bind_ok in H as ([] & s1 & H1 & H). apply lift_ok in H1 as [Hv ->].
  apply bind_ok in H as (keys & s1 & H1 & H).
  apply (readonly_run _ _ _ _ (readThreadSecret_readonly c T)) in H1 as ->.
  apply bind_ok in H as (iv' & s1 & H1 & H). apply lift_ok in H1 as [_ ->].
  apply bind_ok in H as (buf & s1 & H1 & H). apply lift_ok in H1 as [_ ->].
  apply bind_ok in H as ([] & s1 & H1 & H).
  apply ret_ok in H as [-> ->].
  repeat split; try assumption. unfold appendItem in *.
  injection H1 as <-. reflexivity.
Qed.

Lemma appendThreadKnown_verify_fail (c : Client P) (m : JWS P) (T : string)
    (s : gmap string (Value P)) e :
  truthy (s !! ("thread-info:" +:+ T)) = true ->
  verifyAppended c m m (s !! ("thread-info:" +:+ T)) = inl e ->
  appendThreadKnown c m T s = (inl e, s).
Proof.
  intros Ht Hv. unfold appendThreadKnown, bind, getItem, lift, parseJWS.
  rewrite Ht. unfold invariant, ret. rewrite Hv. reflexivity.
Qed.


End StepFacts.

Section ReplyFacts.

Context {P : Platform}.

Lemma clean_bind_ret {A B} (m : @M P A) (x : B) :
  clean_failure m -> clean_failure (bind m (fun _ => ret x)).
Proof.
  intros Hm s e s' E. apply bind_err in E as [E|(a & s1 & _ & E)].
  - eapply Hm; eauto.
  - discriminate.
Qed.

Lemma appendThread_clean (fuel : nat) (c : Client P) (rnd : Entropy P)
    (m : JWS P) (T : string) :
  T <> "" -> clean_failure (appendThread fuel c rnd m (Some T)).
Proof.
  intros HT. destruct fuel as [|fuel].
  - apply clean_readonly. simpl. auto with engine.
  - rewrite appendThread_known by exact HT. apply appendThreadKnown_clean.
Qed.

Lemma replyToThread_ok (fuel : nat) (c : Client P) (rnd : Entropy P)
    (iv' : list byte) (T msg : string) (selfSign : bool)
    (s s' : gmap string (Value P)) (j : JWS P) :
  replyToThread fuel c rnd iv' T msg selfSign s = (inr j, s') ->
  exists keys current re' buf,
    readThreadSecret c T s = (inr keys, s)
    /\ s !! ("message-id:" +:+ T) = Some (VString current)
    /\ truthy (s !! ("thread-info:" +:+ T)) = true
    /\ thumbprintOf (infoField theirEPK (s !! ("thread-info:" +:+ T)))
       = inr re'
    /\ j = replyEnvelope c (snd keys) re' (JS.succ (JS.parseInt16 current))
             (aes_gcm_encrypt P (fst keys) iv' (utf8_encode P msg)) iv'
             selfSign
    /\ decryptText (fst keys) iv' (message (payload j)) = Some buf
    /\ utf8_decode P buf = msg
    /\ (T <> "" ->
        verifyAppended c j j (s !! ("thread-info:" +:+ T)) = inr tt
        /\ s' = snd (appendItem ("messages:" +:+ T) (VJWS j)
                       (<["message-id:" +:+ T :=
                            VString (JS.toString16
                                       (JS.succ (JS.parseInt16 current)))]>
                          s))).
Proof.
  intros H. unfold replyToThread in H.
  apply bind_ok in H as (keys & s1 & Hread & H).
  pose proof (readonly_run _ _ _ _ (readThreadSecret_readonly c T) Hread)
    as ->.
  apply bind_ok in H as (mid & s1 & H1 & H). apply getItem_ok in H1 as [-> ->].
  apply bind_ok in H as (current & s1 & H1 & H). apply lift_ok in H1 as [Hmid ->].
  assert (Hcur : s !! ("message-id:" +:+ T) = Some (VString current)).
  { destruct (s !! ("message-id:" +:+ T)) as [[]|]; congruence. }
  clear Hmid.
  apply bind_ok in H as ([] & s1 & H1 & H). apply setItem_ok in H1 as ->.
  apply bind_ok in H as (ti & s1 & H1 & H). apply getItem_ok in H1 as [-> ->].
  rewrite lookup_insert_ne in H by apply id_vs_info.
  apply bind_ok in H as ([] & s1 & H1 & H). apply invariant_ok in H1 as [Ht ->].
  apply bind_ok in H as (re' & s1 & H1 & H). apply lift_ok in H1 as [Hre ->].
  apply bind_ok in H as ([] & s1 & H1 & H). apply invariant_ok in H1 as [_ ->].
  apply bind_ok in H as (buf & s1 & H1 & H). apply lift_ok in H1 as [Hbuf ->].
  apply bind_ok in H as ([] & s1 & H1 & H). apply invariant_ok in H1 as [Heq ->].
  apply bind_ok in H as (r & s1 & H1 & H). apply ret_ok in H as [-> ->].
  exists keys, current, re', buf.
  repeat match goal with |- _ /\ _ => split end; try assumption; try reflexivity.
  - destruct (decryptText _ _ _); [simpl in Hbuf; congruence|discriminate].
  - by apply String.eqb_eq.
  - intros HT. destruct fuel as [|fuel]; [discriminate|].
    rewrite appendThread_known in H1 by exact HT.
    apply appendThreadKnown_ok in H1 as (_ & Hv & _ & ->).
    rewrite lookup_insert_ne in Hv by apply id_vs_info.
    split; [assumption|reflexivity].
Qed.

Lemma replyToThread_err (fuel : nat) (c : Client P) (rnd : Entropy P)
    (iv' : list byte) (T msg : string) (selfSign : bool)
    (s s' : gmap string (Value P)) keys current e :
  T <> "" ->
  readThreadSecret c T s = (inr keys, s) ->
  s !! ("message-id:" +:+ T) = Some (VString current) ->
  replyToThread fuel c rnd iv' T msg selfSign s = (inl e, s') ->
  s' = <["message-id:" +:+ T :=
           VString (JS.toString16 (JS.succ (JS.parseInt16 current)))]> s.
Proof.
  intros HT Hread Hcur. unfold replyToThread.
  rewrite (bind_run _ _ _ _ _ Hread).
  unfold bind at 1. unfold getItem at 1. rewrite Hcur.
  unfold bind at 1. unfold lift at 1.
  unfold bind at 1. unfold setItem at 1.
  revert e s'.
  change (clean_failure ?m) with (forall s0 e s', m s0 = (inl e, s') -> s' = s0).
  match goal with
  | |- forall e s', ?m ?s1 = _ -> _ =>
      intros e s'; apply (fun Hc : clean_failure m => Hc s1 e s')
  end.
  repeat (apply clean_bind_readonly; [solve [auto with engine]|intros ?]).
  apply clean_bind_ret, appendThread_clean, HT.
Qed.

End ReplyFacts.

Section VerifierFacts.

Context {P : Platform}.

Lemma same_refl (a : option string) : same a a = true.
Proof. unfold same. by apply bool_decide_eq_true. Qed.

Lemma same_Some (a b : string) : same (Some a) (Some b) = bool_decide (a = b).
Proof. unfold same. apply bool_decide_ext. split; congruence. Qed.

Lemma nonempty_Some (r : string) : r <> "" -> nonempty (Some r) = true.
Proof. destruct r; [congruence|reflexivity]. Qed.

(** The verifier is chosen by addressee only for a message without an
    embedded key. *)
Lemma selectVerifier_embedded (c : Client P) (m : JWS P) ti e :
  jwk (header m) = Some e -> selectVerifier c m ti = inr None.
Proof. intros H. unfold selectVerifier. rewrite H. reflexivity. Qed.

Lemma selectVerifier_Some (c : Client P) (m : JWS P) ti k :
  selectVerifier c m ti = inr (Some k) -> jwk (header m) = None.
Proof.
  destruct (jwk (header m)) as [e|] eqn:E; [|reflexivity].
  rewrite (selectVerifier_embedded _ _ _ _ E). discriminate.
Qed.

Lemma verifyAppended_embedded (c : Client P) (m : JWS P) ti e :
  jwk (header m) = Some e ->
  verifyAppended c m m ti
  = if verifyJWS m None then inr tt else inl UnverifiedSigner.
Proof.
  intros H. unfold verifyAppended.
  rewrite (selectVerifier_embedded _ _ _ _ H). reflexivity.
Qed.

Lemma verifyJWS_bare (m : JWS P) :
  jwk (header m) = None -> verifyJWS m None = false.
Proof. intros H. unfold verifyJWS. rewrite H. reflexivity. Qed.

Lemma verifyAppended_BadSignature (c : Client P) (m : JWS P) ti :
  verifyAppended c m m ti = inl BadSignature -> jwk (header m) = None.
Proof.
  unfold verifyAppended. destruct (verifyJWS m None); [discriminate|].
  destruct (selectVerifier c m ti) as [e|[k|]] eqn:E; cbn [bindE].
  - destruct (jwk (header m)) as [x|] eqn:Ej; [|reflexivity].
    rewrite (selectVerifier_embedded _ _ _ _ Ej) in E. discriminate.
  - intros _. eapply selectVerifier_Some, E.
  - discriminate.
Qed.

(** A reply this client has just signed passes [appendThread]'s check
    only if it verifies under the client's identity key. *)
Lemma verifyAppended_own (c : Client P) (epk' : JWK P) (re' : string)
    (nextId : JS.num) (enc iv' : list byte) (selfSign : bool) ti :
  reimports (publicKey (identityKeyPair c)) ->
  thumbprintOf (infoField theirEPK ti) = inr re' ->
  let j := replyEnvelope c epk' re' nextId enc iv' selfSign in
  verifyAppended c j j ti = inr tt ->
  verifyJWS j (Some (publicKey (identityKeyPair c))) = true.
Proof.
  intros Hid Hre j. unfold verifyAppended.
  destruct selfSign.
  - assert (E : verifyJWS j None
                = verifyJWS j (Some (publicKey (identityKeyPair c)))).
    { unfold verifyJWS. cbn [j replyEnvelope signJWS header jwk exportKeyPair snd].
      rewrite Hid. reflexivity. }
    rewrite E.
    destruct (verifyJWS j (Some (publicKey (identityKeyPair c)))); [reflexivity|].
    rewrite (selectVerifier_embedded c j ti
               (exportPublic P (publicKey (identityKeyPair c)))) by reflexivity.
    discriminate.
  - rewrite verifyJWS_bare by reflexivity.
    unfold selectVerifier.
    cbn [j replyEnvelope signJWS header jwk payload re].
    rewrite bool_decide_eq_false_2 by (intros [x Hx]; discriminate).
    cbn [negb andb].
    destruct (nonempty (Some re')); [|discriminate].
    match goal with
    | |- context [bindE (if ?b then ?x else ?y) _] =>
        destruct (if b then x else y) as [e|pubKey]
    end; [discriminate|]. cbn [bindE].
    rewrite Hre. cbn [bindE]. rewrite same_refl. cbn [bindE].
    destruct (verifyJWS _ (Some (publicKey (identityKeyPair c))));
      [reflexivity|].
    destruct (thumbprintOf (infoField theirSignature ti)); discriminate.
Qed.

End VerifierFacts.

Section ErrorKinds.

Context {P : Platform}.

Lemma invariant_err b e (s : gmap string (Value P)) e' s1 :
  invariant b e s = (inl e', s1) -> e' = e /\ b = false.
Proof. destruct b; unfold invariant, ret, throw; intros [= <-]; auto. Qed.

Lemma lift_err {A} (r : Error + A) (s : gmap string (Value P)) e s1 :
  lift r s = (inl e, s1) -> r = inl e.
Proof. unfold lift. intros [= <- <-]. auto. Qed.

Lemma orThrow_err {A} (o : option A) e e' :
  orThrow o e = inl e' -> e' = e.
Proof. destruct o; simpl; congruence. Qed.

Lemma decryptFromSelf_errors (c : Client P) (j : JWS P) e :
  decryptFromSelf c j = inl e -> e = JWSVerificationFailed \/ e = PlatformError.
Proof.
  unfold decryptFromSelf, parseJWS, importKey, bindE. intros Hdec.
  repeat case_match; simplify_eq; auto;
    repeat match goal with
           | E : orThrow _ _ = inl _ |- _ => apply orThrow_err in E
           end; subst; auto.
Qed.

Lemma readThreadSecret_not_BadSignature (c : Client P) (T : string)
    (s s' : gmap string (Value P)) :
  readThreadSecret c T s <> (inl BadSignature, s').
Proof.
  intros H. unfold readThreadSecret in H.
  repeat (apply bind_err in H as [H|(? & ? & _ & H)]);
    try (apply invariant_err in H as [? _]; discriminate);
    try (apply lift_err in H);
    try discriminate H.
  - unfold importKey in H. repeat case_match; simplify_eq.
    apply orThrow_err in H. discriminate.
  - repeat case_match; simplify_eq.
  - apply decryptFromSelf_errors in H as [?|?]; discriminate.
  - apply orThrow_err in H. discriminate.
  - apply orThrow_err in H. discriminate.
Qed.

Lemma appendThreadKnown_BadSignature (c : Client P) (m : JWS P) (T : string)
    (s s' : gmap string (Value P)) :
  appendThreadKnown c m T s = (inl BadSignature, s') ->
  jwk (header m) = None.
Proof.
  intros H. unfold appendThreadKnown in H.
  apply bind_err in H as [H|(ti & s1 & H1 & H)]; [discriminate H|].
  apply bind_err in H as [H|(jws & s2 & H2 & H)]; [discriminate H|].
  apply lift_ok in H2 as [H2 _]. injection H2 as <-.
  apply bind_err in H as [H|(? & ? & _ & H)];
    [apply invariant_err in H as [? _]; discriminate|].
  apply bind_err in H as [H|(? & ? & _ & H)].
  { apply lift_err in H. eapply verifyAppended_BadSignature, H. }
  apply bind_err in H as [H|(? & ? & _ & H)];
    [by apply readThreadSecret_not_BadSignature in H|].
  apply bind_err in H as [H|(? & ? & _ & H)];
    [apply lift_err, orThrow_err in H; discriminate|].
  apply bind_err in H as [H|(? & ? & _ & H)];
    [apply lift_err, orThrow_err in H; discriminate|].
  apply bind_err in H as [H|(? & ? & _ & H)]; discriminate H.
Qed.

End ErrorKinds.

Section ThreadTheorems.

Context {P : Platform}.

(** C3.  Whenever [replyToThread] returns an envelope, that envelope is
    the one it signed with the identity key and it verifies under the
    client's identity public key: a reply whose verification fails makes
    the call fail.  (The check of lines 411-414 tests a Promise that was
    not awaited and always passes; the check that decides is the one
    [appendThread] makes at line 429.) *)
Theorem reply_is_verified_with_identity_key (fuel : nat) (c : Client P)
    (rnd : Entropy P) (iv' : list byte) (T msg : string) (selfSign : bool)
    (s s' : gmap string (Value P)) (j : JWS P) :
  T <> "" ->
  reimports (publicKey (identityKeyPair c)) ->
  replyToThread fuel c rnd iv' T msg selfSign s = (inr j, s') ->
  (exists h p, j = signJWS h p (privateKey (identityKeyPair c)))
  /\ verifyJWS j (Some (publicKey (identityKeyPair c))) = true.
Proof.
  intros HT Hid H.
  apply replyToThread_ok in H
    as (keys & current & re' & buf & _ & _ & _ & Hre & -> & _ & _ & Hv).
  destruct (Hv HT) as [Hver _]. split.
  - unfold replyEnvelope. eauto.
  - eapply verifyAppended_own; eauto.
Qed.

(** C10.  In [appendThread] with a known thread, a message whose header
    embeds a [jwk] and whose signature does not verify under that key
    fails with [UnverifiedSigner] and writes nothing: no verifier is
    selected by addressee for it, and a call that fails [BadSignature]
    was given a message without an embedded [jwk]. *)
Theorem embedded_key_failure_is_unverified_signer (fuel : nat)
    (c : Client P) (rnd : Entropy P) (m : JWS P) (T : string)
    (s : gmap string (Value P)) (e : JWK P) :
  T <> "" ->
  truthy (s !! ("thread-info:" +:+ T)) = true ->
  jwk (header m) = Some e ->
  verifyJWS m None = false ->
  appendThread (S fuel) c rnd m (Some T) s = (inl UnverifiedSigner, s)
  /\ selectVerifier c m (s !! ("thread-info:" +:+ T)) = inr None
  /\ (forall m' s0 s1,
        appendThread (S fuel) c rnd m' (Some T) s0 = (inl BadSignature, s1) ->
        jwk (header m') = None).
Proof.
  intros HT Hinfo Hjwk Hver. repeat split.
  - rewrite appendThread_known by exact HT.
    apply appendThreadKnown_verify_fail; [exact Hinfo|].
    rewrite (verifyAppended_embedded _ _ _ _ Hjwk), Hver. reflexivity.
  - eapply selectVerifier_embedded, Hjwk.
  - intros m' s0 s1. rewrite appendThread_known by exact HT.
    apply appendThreadKnown_BadSignature.
Qed.

(** C5, as amended.  In [appendThread] with a known thread whose info
    holds the peer's keys: a failed check fails the call with the same
    error and no write; a message with an embedded [jwk] is checked
    against that key (and fails as [UnverifiedSigner]); otherwise, for a
    non-empty [re]: if [re] is the thumbprint of [theirEPK] the message
    is checked against the client's own identity key; else if [re] is
    [myThumbprint] it is checked against [theirSignature]; else the call
    fails [UnverifiedSigner].  When both thumbprints coincide the
    identity key is the one used. *)
Theorem append_verifier_selection (fuel : nat) (c : Client P)
    (rnd : Entropy P) (m : JWS P) (T : string) (t : ThreadInfo P)
    (s : gmap string (Value P)) (theirs sig : JWK P) (k : PubKey P) :
  T <> "" ->
  s !! ("thread-info:" +:+ T) = Some (VThreadInfo t) ->
  theirEPK t = Some theirs ->
  theirSignature t = Some sig ->
  importPublic P sig = Some k ->
  let outcome := verifyAppended c m m (Some (VThreadInfo t)) in
  (forall e, outcome = inl e ->
     appendThread (S fuel) c rnd m (Some T) s = (inl e, s))
  /\ (forall e, jwk (header m) = Some e ->
        outcome = if verifyJWS m None then inr tt else inl UnverifiedSigner)
  /\ (forall r, jwk (header m) = None -> re (payload m) = Some r -> r <> "" ->
        (r = getJWKthumbprint P theirs ->
           outcome = if verifyJWS m (Some (publicKey (identityKeyPair c)))
                     then inr tt else inl BadSignature)
        /\ (r <> getJWKthumbprint P theirs -> r = myThumbprint t ->
              outcome = if verifyJWS m (Some k)
                        then inr tt else inl BadSignature)
        /\ (r <> getJWKthumbprint P theirs -> r <> myThumbprint t ->
              outcome = inl UnverifiedSigner))
  /\ (jwk (header m) = None -> nonempty (re (payload m)) = false ->
        outcome = inl UnverifiedSigner).
Proof.
  intros HT Hinfo Hepk Hsig Himp outcome. split; [|split; [|split]].
  - intros e He. rewrite appendThread_known by exact HT.
    apply appendThreadKnown_verify_fail; rewrite Hinfo; [reflexivity|exact He].
  - intros e He. apply verifyAppended_embedded with e, He.
  - intros r Hjwk Hre Hr. subst outcome.
    unfold verifyAppended, selectVerifier.
    rewrite (verifyJWS_bare _ Hjwk), Hjwk, Hre, (nonempty_Some r Hr).
    rewrite bool_decide_eq_false_2 by (intros [x Hx]; discriminate).
    cbn [negb andb infoField]. rewrite Hepk, Hsig.
    cbn [thumbprintOf importKey]. rewrite Himp. cbn [orThrow bindE].
    rewrite !same_Some.
    repeat split.
    + intros ->. rewrite (bool_decide_eq_true_2 _ eq_refl).
      destruct (bool_decide _); cbn [bindE];
        destruct (verifyJWS _ _); reflexivity.
    + intros Hne ->. rewrite (bool_decide_eq_true_2 _ eq_refl). cbn [bindE].
      rewrite bool_decide_eq_false_2 by exact Hne. cbn [bindE].
      destruct (verifyJWS _ _); reflexivity.
    + intros Hne Hne'. rewrite !bool_decide_eq_false_2 by assumption.
      reflexivity.
  - intros Hjwk Hre. subst outcome.
    unfold verifyAppended, selectVerifier.
    rewrite (verifyJWS_bare _ Hjwk), Hre, andb_false_r. reflexivity.
Qed.

End ThreadTheorems.

Section FirstReply.

Context {P : Platform}.

Lemma strict_eq_succ (x : JS.num) (n : Z) :
  (0 <= n < 2 ^ 53 - 1)%Z ->
  JS.strict_eq x (JS.succ (JS.Num n)) = true <-> x = JS.Num (n + 1).
Proof.
  intros Hn. rewrite succ_small by exact Hn.
  destruct x as [| |z]; cbn [JS.strict_eq]; split; try discriminate.
  - intros H. apply Z.eqb_eq in H. congruence.
  - intros [= ->]. apply Z.eqb_refl.
Qed.

Lemma appendThread_no_thread (fuel : nat) (c : Client P) (rnd : Entropy P)
    (m : JWS P) (s : gmap string (Value P)) :
  jwk (header m) = None ->
  s !! ("thread-info:" +:+ tmpl (re (payload m))) = None ->
  appendThread (S fuel) c rnd m None s = (inl ThreadNotFound, s).
Proof.
  intros Hjwk Hinfo. cbn [appendThread nonempty].
  change (parseJWS m KeyNull) with (@inr Error _ m).
  unfold bind, lift. rewrite Hjwk.
  unfold hasItem. rewrite Hinfo.
  rewrite bool_decide_eq_false_2 by (intros [x Hx]; discriminate).
  reflexivity.
Qed.

Lemma appendThread_no_epk (fuel : nat) (c : Client P) (rnd : Entropy P)
    (m : JWS P) (s : gmap string (Value P)) (signer : JWK P) :
  jwk (header m) = Some signer ->
  epk (payload m) = None ->
  appendThread (S fuel) c rnd m None s = (inl MalformedFirstReply, s).
Proof.
  intros Hjwk Hepk. cbn [appendThread nonempty].
  change (parseJWS m KeyNull) with (@inr Error _ m).
  unfold bind, lift. rewrite Hjwk, Hepk.
  rewrite bool_decide_eq_false_2 by (intros [x Hx]; discriminate).
  reflexivity.
Qed.

Lemma appendThread_no_invitation (fuel : nat) (c : Client P)
    (rnd : Entropy P) (m : JWS P) (s : gmap string (Value P))
    (signer e : JWK P) :
  jwk (header m) = Some signer ->
  epk (payload m) = Some e ->
  s !! ("invitation:" +:+ tmpl (re (payload m))) = None ->
  appendThread (S fuel) c rnd m None s = (inl UnknownInvitation, s).
Proof.
  intros Hjwk Hepk Hinv. cbn [appendThread nonempty].
  change (parseJWS m KeyNull) with (@inr Error _ m).
  unfold bind, lift. rewrite Hjwk, Hepk.
  rewrite bool_decide_eq_true_2 by eauto.
  unfold invariant at 1, ret. unfold getItem. rewrite Hinv. reflexivity.
Qed.

Lemma appendThread_out_of_order (fuel : nat) (c : Client P)
    (rnd : Entropy P) (m inv : JWS P) (s : gmap string (Value P))
    (signer e : JWK P) :
  jwk (header m) = Some signer ->
  epk (payload m) = Some e ->
  s !! ("invitation:" +:+ tmpl (re (payload m))) = Some (VJWS inv) ->
  parseJWS inv KeyOmitted = inr inv ->
  JS.strict_eq (JS.parseInt16_opt (messageId (payload m)))
    (JS.succ (JS.parseInt16_opt (messageId (payload inv)))) = false ->
  appendThread (S fuel) c rnd m None s = (inl OutOfOrder, s).
Proof.
  intros Hjwk Hepk Hinv Hparse Hids. cbn [appendThread nonempty].
  change (parseJWS m KeyNull) with (@inr Error _ m).
  unfold bind, lift. rewrite Hjwk, Hepk.
  rewrite bool_decide_eq_true_2 by eauto.
  unfold invariant at 1, ret. unfold getItem. rewrite Hinv.
  unfold ret. cbn [truthy invariant from_option id asJWS].
  rewrite Hparse, Hids. reflexivity.
Qed.

(** Before [startThread] runs, a first reply has passed the sequence
    check against a stored invitation. *)
Lemma appendThread_started (fuel : nat) (c : Client P) (rnd : Entropy P)
    (m : JWS P) (s s' : gmap string (Value P)) (signer : JWK P) r :
  jwk (header m) = Some signer ->
  appendThread (S fuel) c rnd m None s = (r, s') ->
  s' <> s ->
  exists inv,
    s !! ("invitation:" +:+ tmpl (re (payload m))) = Some (VJWS inv)
    /\ JS.strict_eq (JS.parseInt16_opt (messageId (payload m)))
         (JS.succ (JS.parseInt16_opt (messageId (payload inv)))) = true.
Proof.
  intros Hjwk H Hne. cbn [appendThread nonempty] in H.
  change (parseJWS m KeyNull) with (@inr Error _ m) in H.
  unfold bind at 1, lift at 1 in H.
  rewrite Hjwk in H.
  unfold bind at 1 in H.
  destruct (bool_decide _); cbn [invariant] in H;
    [|unfold throw in H; congruence].
  unfold ret at 1 in H. unfold bind at 1, getItem at 1 in H.
  unfold bind at 1 in H.
  destruct (truthy _) eqn:Ht; cbn [invariant] in H;
    [|unfold throw in H; congruence].
  unfold ret at 1 in H. unfold bind at 1, lift at 1 in H.
  destruct (s !! _) as [[| |inv| | |]|] eqn:Hinv;
    cbn [from_option id asJWS] in H; try congruence.
  unfold bind at 1, lift at 1 in H.
  destruct (parseJWS inv KeyOmitted) as [e|inv'] eqn:Hp; [congruence|].
  assert (inv' = inv) as ->.
  { unfold parseJWS in Hp. repeat case_match; congruence. }
  unfold bind at 1 in H.
  destruct (JS.strict_eq _ _) eqn:Hids; cbn [invariant] in H;
    [|unfold throw in H; congruence].
  eauto.
Qed.

(** C6, as amended.  When [appendThread] is called without a thread
    thumbprint on a message whose header embeds a [jwk], whose payload
    carries an [epk], and for which a verifiable invitation is stored
    under [payload.re]: the call fails [OutOfOrder], writing nothing,
    unless [parseInt(payload.messageId, 16)] equals the invitation's
    parsed id plus 1; any run that writes to the storage (so any run
    that starts the thread) has passed that check; and for an invitation
    id [n] below 2^53 - 1 the check passes exactly when the message id
    parses to [n + 1]. *)
Theorem first_reply_sequence_check (fuel : nat) (c : Client P)
    (rnd : Entropy P) (m inv : JWS P) (s : gmap string (Value P))
    (signer e : JWK P) :
  jwk (header m) = Some signer ->
  epk (payload m) = Some e ->
  s !! ("invitation:" +:+ tmpl (re (payload m))) = Some (VJWS inv) ->
  parseJWS inv KeyOmitted = inr inv ->
  let matches :=
    JS.strict_eq (JS.parseInt16_opt (messageId (payload m)))
      (JS.succ (JS.parseInt16_opt (messageId (payload inv)))) in
  (matches = false ->
     appendThread (S fuel) c rnd m None s = (inl OutOfOrder, s))
  /\ (forall r s',
        appendThread (S fuel) c rnd m None s = (r, s') -> s' <> s ->
        matches = true)
  /\ (forall n,
        JS.parseInt16_opt (messageId (payload inv)) = JS.Num n ->
        (0 <= n < 2 ^ 53 - 1)%Z ->
        matches = true
        <-> JS.parseInt16_opt (messageId (payload m)) = JS.Num (n + 1)).
Proof.
  intros Hjwk Hepk Hinv Hparse matches. repeat split.
  - intros Hids. eapply appendThread_out_of_order; eauto.
  - intros r s' H Hne.
    destruct (appendThread_started _ _ _ _ _ _ _ _ Hjwk H Hne)
      as (inv' & Hinv' & Hids).
    rewrite Hinv in Hinv'. injection Hinv' as <-. exact Hids.
  - subst matches. rewrite H. by apply strict_eq_succ.
  - subst matches. rewrite H. by apply strict_eq_succ.
Qed.

(** C9, as amended.  When [appendThread] is called without a thread
    thumbprint: a message without [jwk] for which no thread-info entry
    exists under [payload.re] fails with "Thread not found"
    ([ThreadNotFound], the specification's UnknownThread); a message with
    a [jwk] and an [epk] for which no invitation entry exists under
    [payload.re] fails [UnknownInvitation]; the storage is unchanged in
    both cases. *)
Theorem unknown_thread_or_invitation (fuel : nat) (c : Client P)
    (rnd : Entropy P) (m : JWS P) (s : gmap string (Value P)) :
  (jwk (header m) = None ->
   s !! ("thread-info:" +:+ tmpl (re (payload m))) = None ->
   appendThread (S fuel) c rnd m None s = (inl ThreadNotFound, s))
  /\ (forall signer e,
        jwk (header m) = Some signer ->
        epk (payload m) = Some e ->
        s !! ("invitation:" +:+ tmpl (re (payload m))) = None ->
        appendThread (S fuel) c rnd m None s = (inl UnknownInvitation, s)).
Proof.
  split.
  - apply appendThread_no_thread.
  - intros signer e. apply appendThread_no_invitation.
Qed.

End FirstReply.

Section StartFacts.

Context {P : Platform}.

Lemma appendItem_run k v (s : gmap string (Value P)) a s1 :
  appendItem k v s = (inr a, s1) -> s1 = snd (appendItem k v s).
Proof. intros ->. reflexivity. Qed.

Lemma appendItem_lookup_ne k k' v (s : gmap string (Value P)) :
  k <> k' -> snd (appendItem k v s) !! k' = s !! k'.
Proof.
  intros Hne. unfold appendItem. cbn [snd].
  destruct (s !! k) as [[]|]; by rewrite lookup_insert_ne.
Qed.

Lemma encryptToSelf_ok (c : Client P) (e : KeyPair P) (i : list byte)
    (m : string) (j : JWS P) :
  encryptToSelf c e i m = inr j -> decryptFromSelf c j = inr m.
Proof.
  unfold encryptToSelf.
  match goal with
  | |- context [signJWS ?h ?p ?k] => generalize (signJWS h p k)
  end.
  intros j0. destruct (verifyJWS j0 None); [|discriminate].
  destruct (decryptFromSelf c j0) as [x|d] eqn:E; [discriminate|].
  cbn [bindE]. destruct (String.eqb d m) eqn:Ed; [|discriminate].
  apply String.eqb_eq in Ed as ->. intros [= <-]. exact E.
Qed.

(** What a thread started with fresh keys leaves in the storage. *)
Lemma startThread_fresh (c : Client P) (rnd : Entropy P) (inv : JWS P)
    (theirs sig : option (JWK P)) (mid : option string)
    (s s' : gmap string (Value P)) (my : string) :
  startThread c rnd inv theirs sig mid None s = (inr my, s') ->
  my = getJWKthumbprint P (snd (exportKeyPair (fresh_thread_key rnd)))
  /\ exists backup,
       decryptFromSelf c backup
       = inr (stringify_jwks P (exportKeyPair (fresh_thread_key rnd)))
       /\ s' !! ("encrypted-thread-key:" +:+ my) = Some (VJWS backup)
       /\ s' !! ("thread-info:" +:+ my)
          = Some (VThreadInfo (mkThreadInfo my theirs inv sig)).
Proof.
  unfold startThread. cbn [nonempty]. intros H.
  apply bind_ok in H as (my0 & s1 & H1 & H).
  apply bind_ok in H1 as (made & s0 & H0 & H1).
  apply ret_ok in H1 as [-> ->].
  unfold makeThreadKeys in H0.
  apply bind_ok in H0 as (backup & s2 & H2 & H0).
  apply lift_ok in H2 as [Henc ->].
  apply bind_ok in H0 as ([] & s2 & H2 & H0).
  apply setItem_ok in H2 as ->. apply ret_ok in H0 as [-> ->].
  cbn [fst] in H.
  set (my1 := getJWKthumbprint P (snd (exportKeyPair (fresh_thread_key rnd))))
    in *.
  apply bind_ok in H as (kb & s2 & H2 & H). apply getItem_ok in H2 as [-> ->].
  apply bind_ok in H as ([] & s2 & H2 & H). apply invariant_ok in H2 as [_ ->].
  apply bind_ok in H as (st & s2 & H2 & H). apply lift_ok in H2 as [_ ->].
  apply bind_ok in H as ([] & s2 & H2 & H). apply setItem_ok in H2 as ->.
  apply bind_ok in H as ([] & s2 & H2 & H). apply setItem_ok in H2 as ->.
  apply bind_ok in H as ([] & s2 & H2 & H). apply appendItem_run in H2 as ->.
  apply bind_ok in H as ([] & s2 & H2 & H). apply appendItem_run in H2 as ->.
  apply bind_ok in H as ([] & s2 & H2 & H). apply setItem_ok in H2 as ->.
  apply ret_ok in H as [-> ->].
  split; [reflexivity|]. exists backup.
  split; [eapply encryptToSelf_ok, Henc|]. split.
  - rewrite lookup_insert_ne by distinct_keys.
    rewrite !appendItem_lookup_ne by distinct_keys.
    rewrite !lookup_insert_ne by distinct_keys.
    apply lookup_insert_eq.
  - rewrite lookup_insert_ne by distinct_keys.
    rewrite !appendItem_lookup_ne by distinct_keys.
    apply lookup_insert_eq.
Qed.

(** The public key [readThreadSecret] returns is the one in the backup. *)
Lemma readThreadSecret_epk (c : Client P) (T : string) (t : ThreadInfo P)
    (backup : JWS P) (text : string) (jwks : PrivJWK P * JWK P)
    (s s' : gmap string (Value P)) keys :
  s !! ("thread-info:" +:+ T) = Some (VThreadInfo t) ->
  s !! ("encrypted-thread-key:" +:+ myThumbprint t) = Some (VJWS backup) ->
  decryptFromSelf c backup = inr text ->
  parse_jwks P text = Some jwks ->
  readThreadSecret c T s = (inr keys, s') ->
  snd keys = snd jwks.
Proof.
  intros Hinfo Hkey Hdec Hparse H. unfold readThreadSecret in H.
  apply bind_ok in H as (ti & s1 & H1 & H). apply getItem_ok in H1 as [-> ->].
  rewrite Hinfo in H. cbn [infoField tmpl] in H.
  apply bind_ok in H as ([] & s1 & H1 & H). apply invariant_ok in H1 as [_ ->].
  apply bind_ok in H as ([] & s1 & H1 & H). apply invariant_ok in H1 as [_ ->].
  apply bind_ok in H as (pk & s1 & H1 & H). apply lift_ok in H1 as [_ ->].
  apply bind_ok in H as (eb & s1 & H1 & H). apply getItem_ok in H1 as [-> ->].
  rewrite Hkey in H.
  apply bind_ok in H as (b & s1 & H1 & H). apply lift_ok in H1 as [Hb ->].
  injection Hb as <-.
  apply bind_ok in H as (tx & s1 & H1 & H). apply lift_ok in H1 as [Htx ->].
  rewrite Hdec in Htx. injection Htx as <-.
  apply bind_ok in H as (jw & s1 & H1 & H). apply lift_ok in H1 as [Hjw ->].
  rewrite Hparse in Hjw. injection Hjw as <-.
  apply bind_ok in H as (pr & s1 & H1 & H). apply lift_ok in H1 as [_ ->].
  apply ret_ok in H as [-> _]. reflexivity.
Qed.

End StartFacts.

Section RunFacts.

Context {P : Platform}.

Lemma decryptText_encrypted (secret : Secret P) (iv' pt : list byte) :
  aes_roundtrip (P := P) ->
  decryptText secret iv'
    (Some (Base64.encode true (aes_gcm_encrypt P secret iv' pt)))
  = Some pt.
Proof.
  intros Haes. unfold decryptText. rewrite Buffer_from_encode. apply Haes.
Qed.

Lemma verifyWith_signed (c : Client P) h p :
  signs_for (identityKeyPair c) ->
  verifyWith (publicKey (identityKeyPair c))
    (signJWS h p (privateKey (identityKeyPair c))) = true.
Proof. intros Hs. apply Hs. Qed.

Lemma verifyAppended_run (c : Client P) (epk' : JWK P) (nextId : JS.num)
    (enc iv' : list byte) (selfSign : bool) (t : ThreadInfo P) (e : JWK P) :
  theirEPK t = Some e ->
  getJWKthumbprint P e <> "" ->
  myThumbprint t <> getJWKthumbprint P e ->
  signs_for (identityKeyPair c) ->
  reimports (publicKey (identityKeyPair c)) ->
  let j := replyEnvelope c epk' (getJWKthumbprint P e) nextId enc iv'
             selfSign in
  verifyAppended c j j (Some (VThreadInfo t)) = inr tt.
Proof.
  intros Hepk Hne Hmy Hsign Hid j. unfold verifyAppended.
  assert (Hver : verifyJWS j (Some (publicKey (identityKeyPair c))) = true)
    by apply verifyWith_signed, Hsign.
  destruct selfSign.
  - assert (E : verifyJWS j None = true).
    { unfold verifyJWS.
      cbn [j replyEnvelope signJWS header jwk exportKeyPair snd].
      rewrite Hid. exact Hver. }
    rewrite E. reflexivity.
  - rewrite verifyJWS_bare by reflexivity.
    unfold selectVerifier.
    cbn [j replyEnvelope signJWS header jwk payload re infoField].
    rewrite bool_decide_eq_false_2 by (intros [x Hx]; discriminate).
    rewrite (nonempty_Some _ Hne). cbn [negb andb].
    rewrite same_Some, bool_decide_eq_false_2 by congruence.
    cbn [bindE]. rewrite Hepk. cbn [thumbprintOf bindE].
    rewrite same_refl. cbn [bindE]. fold j. rewrite Hver. reflexivity.
Qed.

Lemma readThreadSecret_after_id (c : Client P) (T T' : string) (v : Value P)
    (s : gmap string (Value P)) keys :
  readThreadSecret c T s = (inr keys, s) ->
  readThreadSecret c T (<["message-id:" +:+ T' := v]> s)
  = (inr keys, <["message-id:" +:+ T' := v]> s).
Proof.
  intros H.
  pose proof (readThreadSecret_frame c T ("message-id:" +:+ T') v s
                (fun x => id_vs_info T' x) (fun x => id_vs_backup T' x)) as Hf.
  pose proof (readThreadSecret_readonly c T
                (<["message-id:" +:+ T' := v]> s)) as Hs.
  rewrite H in Hf. cbn [fst] in Hf.
  destruct (readThreadSecret c T (<["message-id:" +:+ T' := v]> s))
    as [r s1]. cbn [fst snd] in *. congruence.
Qed.

Lemma appendThreadKnown_run (c : Client P) (m : JWS P) (T : string)
    (s : gmap string (Value P)) keys (pt iv' : list byte) v :
  s !! ("thread-info:" +:+ T) = Some v ->
  truthy (Some v) = true ->
  verifyAppended c m m (Some v) = inr tt ->
  readThreadSecret c T s = (inr keys, s) ->
  Buffer_from (iv (payload m)) = Some iv' ->
  decryptText (fst keys) iv' (message (payload m)) = Some pt ->
  appendThreadKnown c m T s
  = (inr (T, utf8_decode P pt),
     snd (appendItem ("messages:" +:+ T) (VJWS m) s)).
Proof.
  intros Hinfo Ht Hv Hread Hiv Hdec.
  unfold appendThreadKnown, bind, getItem, lift, parseJWS.
  rewrite Hinfo, Ht. unfold invariant, ret. rewrite Hv, Hread, Hiv.
  cbn [orThrow]. rewrite Hdec. reflexivity.
Qed.

Lemma bind_getItem {B} k (K : option (Value P) -> @M P B) s :
  bind (getItem k) K s = K (s !! k) s.
Proof. reflexivity. Qed.

Lemma bind_setItem {B} k v (K : unit -> @M P B) s :
  bind (setItem k v) K s = K tt (<[k := v]> s).
Proof. reflexivity. Qed.

Lemma bind_lift_inr {A B} (a : A) (K : A -> @M P B) s :
  bind (lift (inr a)) K s = K a s.
Proof. reflexivity. Qed.

Lemma bind_invariant_true {B} e (K : unit -> @M P B) s :
  bind (invariant true e) K s = K tt s.
Proof. reflexivity. Qed.

Lemma replyToThread_run (fuel : nat) (c : Client P) (rnd : Entropy P)
    (iv' : list byte) (T msg : string) (selfSign : bool)
    (s : gmap string (Value P)) keys (current : string)
    (t : ThreadInfo P) (e : JWK P) :
  T <> "" ->
  readThreadSecret c T s = (inr keys, s) ->
  s !! ("message-id:" +:+ T) = Some (VString current) ->
  s !! ("thread-info:" +:+ T) = Some (VThreadInfo t) ->
  theirEPK t = Some e ->
  getJWKthumbprint P e <> "" ->
  myThumbprint t <> getJWKthumbprint P e ->
  signs_for (identityKeyPair c) ->
  reimports (publicKey (identityKeyPair c)) ->
  aes_roundtrip (P := P) ->
  well_formed_text (P := P) msg ->
  let nextId := JS.succ (JS.parseInt16 current) in
  let j := replyEnvelope c (snd keys) (getJWKthumbprint P e) nextId
             (aes_gcm_encrypt P (fst keys) iv' (utf8_encode P msg)) iv'
             selfSign in
  replyToThread (S fuel) c rnd iv' T msg selfSign s
  = (inr j,
     snd (appendItem ("messages:" +:+ T) (VJWS j)
            (<["message-id:" +:+ T := VString (JS.toString16 nextId)]> s))).
Proof.
  intros HT Hread Hcur Hinfo Hepk Hne Hmy Hsign Hid Haes Htext nextId j.
  unfold replyToThread.
  rewrite (bind_run _ _ _ _ _ Hread).
  rewrite bind_getItem, Hcur, bind_lift_inr, bind_setItem.
  fold nextId.
  set (s1 := <["message-id:" +:+ T := VString (JS.toString16 nextId)]> s).
  assert (Hinfo1 : s1 !! ("thread-info:" +:+ T) = Some (VThreadInfo t)).
  { unfold s1. rewrite lookup_insert_ne by apply id_vs_info. exact Hinfo. }
  rewrite bind_getItem, Hinfo1. cbn [truthy infoField].
  rewrite bind_invariant_true, Hepk. cbn [thumbprintOf].
  rewrite bind_lift_inr. fold j.
  unfold promise_truthy. rewrite bind_invariant_true.
  assert (Hdec : decryptText (fst keys) iv' (message (payload j))
                 = Some (utf8_encode P msg))
    by apply decryptText_encrypted, Haes.
  rewrite Hdec. cbn [orThrow]. rewrite bind_lift_inr.
  rewrite Htext, string_eqb_refl, bind_invariant_true.
  rewrite appendThread_known by exact HT.
  erewrite bind_run; [reflexivity|].
  apply appendThreadKnown_run
    with (iv' := iv') (v := VThreadInfo t) (pt := utf8_encode P msg)
         (keys := keys);
    try assumption; try reflexivity.
  - apply verifyAppended_run; assumption.
  - apply readThreadSecret_after_id, Hread.
  - apply Buffer_from_encode.
Qed.

End RunFacts.

Section ReplyTheorems.

Context {P : Platform}.



(** C8.  A reply returned by [replyToInvitation] has [header.jwk] set to
    the replier's identity public JWK and [payload.epk] set to the public
    JWK of the thread key generated for this thread (read back from the
    self-encrypted backup, whose JSON parses back); [appendThread]
    without a thread thumbprint rejects a message with a [jwk] header and
    no [epk] with [MalformedFirstReply]; and a reply returned by
    [replyToThread] without [selfSign] carries neither field. *)
Theorem first_reply_shape (fuel : nat) (c : Client P) (rnd : Entropy P)
    (iv' : list byte) :
  parse_jwks P (stringify_jwks P (exportKeyPair (fresh_thread_key rnd)))
  = Some (exportKeyPair (fresh_thread_key rnd)) ->
  (forall inv msg s s' j,
     replyToInvitation fuel c rnd iv' inv msg s = (inr j, s') ->
     jwk (header j) = Some (exportPublic P (publicKey (identityKeyPair c)))
     /\ epk (payload j)
        = Some (exportPublic P (publicKey (fresh_thread_key rnd))))
  /\ (forall m s signer,
        jwk (header m) = Some signer -> epk (payload m) = None ->
        appendThread (S fuel) c rnd m None s = (inl MalformedFirstReply, s))
  /\ (forall T msg s s' j,
        replyToThread fuel c rnd iv' T msg false s = (inr j, s') ->
        jwk (header j) = None /\ epk (payload j) = None).
Proof.
  intros Hjson. split; [|split].
  - intros inv msg s s' j H. unfold replyToInvitation in H.
    apply bind_ok in H as ([] & s1 & H1 & H). apply invariant_ok in H1 as [_ ->].
    apply bind_ok in H as (invite & s1 & H1 & H). apply lift_ok in H1 as [_ ->].
    apply bind_ok in H as (my & s1 & Hstart & H).
    apply startThread_fresh in Hstart as (-> & backup & Hdec & Hkey & Hinfo).
    apply replyToThread_ok in H
      as (keys & current & re' & buf & Hread & _ & _ & _ & -> & _).
    pose proof (readThreadSecret_epk c _ _ _ _ _ _ _ _ Hinfo Hkey Hdec Hjson
                  Hread) as Hepk.
    split; [reflexivity|].
    cbn [replyEnvelope signJWS payload epk]. rewrite Hepk. reflexivity.
  - intros m s signer. apply appendThread_no_epk.
  - intros T msg s s' j H.
    apply replyToThread_ok in H
      as (keys & current & re' & buf & _ & _ & _ & _ & -> & _).
    split; reflexivity.
Qed.

(** C4, as amended.  Once [replyToThread] has read the thread's secret
    and its stored id, every failure of the call - a decrypted plaintext
    that differs from the input, a reply that does not verify, or any
    other - leaves the storage equal to the initial one with the
    incremented id written under [message-id:T], and [messages:T]
    untouched; a plaintext mismatch does make the call fail, and a call
    that returns has passed the verification. *)
Theorem failed_reply_keeps_incremented_id (fuel : nat) (c : Client P)
    (rnd : Entropy P) (iv' : list byte) (T msg : string) (selfSign : bool)
    (s : gmap string (Value P)) keys (current : string) :
  T <> "" ->
  readThreadSecret c T s = (inr keys, s) ->
  s !! ("message-id:" +:+ T) = Some (VString current) ->
  let s1 := <["message-id:" +:+ T :=
                VString (JS.toString16 (JS.succ (JS.parseInt16 current)))]> s
  in
  (forall e s',
     replyToThread fuel c rnd iv' T msg selfSign s = (inl e, s') ->
     s' = s1 /\ s' !! ("messages:" +:+ T) = s !! ("messages:" +:+ T))
  /\ (forall buf,
        decryptText (fst keys) iv'
          (Some (Base64.encode true
                   (aes_gcm_encrypt P (fst keys) iv' (utf8_encode P msg))))
        = Some buf ->
        utf8_decode P buf <> msg ->
        exists e,
          replyToThread fuel c rnd iv' T msg selfSign s = (inl e, s1))
  /\ (forall j s',
        replyToThread fuel c rnd iv' T msg selfSign s = (inr j, s') ->
        verifyAppended c j j (s !! ("thread-info:" +:+ T)) = inr tt).
Proof.
  intros HT Hread Hcur s1.
  assert (Herr : forall e s',
             replyToThread fuel c rnd iv' T msg selfSign s = (inl e, s') ->
             s' = s1).
  { intros e s'. apply replyToThread_err with (keys := keys); assumption. }
  split; [|split].
  - intros e s' H. apply Herr in H as ->. split; [reflexivity|].
    unfold s1. apply lookup_insert_ne, id_vs_messages.
  - intros buf Hbuf Hneq.
    destruct (replyToThread fuel c rnd iv' T msg selfSign s)
      as [[e|j] s'] eqn:E.
    + exists e. by rewrite (Herr e s' eq_refl).
    + exfalso.
      apply replyToThread_ok in E
        as (keys' & cur' & re' & buf' & Hread' & _ & _ & _ & -> & Hd & Hm & _).
      rewrite Hread in Hread'. injection Hread' as <-.
      cbn [replyEnvelope signJWS payload message] in Hd.
      rewrite Hbuf in Hd. injection Hd as <-. contradiction.
  - intros j s' H.
    apply replyToThread_ok in H
      as (keys' & cur' & re' & buf' & _ & _ & _ & _ & _ & _ & _ & Hv).
    apply (Hv HT).
Qed.

(** C7, as amended.  On a readable thread, with a platform that honours
    its contracts and a well-formed text, [replyToThread] returns for
    every stored id that parses to an integer [n] with
    [0 <= n < 2^53 - 1]: it stores [n + 1] in hex, without wraparound,
    and gives the message the same id.  No bound is checked: [n + 1] may
    reach or exceed [MAX_MESSAGE_ID]. *)
Theorem reply_id_has_no_upper_bound (fuel : nat) (c : Client P)
    (rnd : Entropy P) (iv' : list byte) (T msg : string) (selfSign : bool)
    (s : gmap string (Value P)) keys (current : string)
    (t : ThreadInfo P) (e : JWK P) (n : Z) :
  T <> "" ->
  readThreadSecret c T s = (inr keys, s) ->
  s !! ("message-id:" +:+ T) = Some (VString current) ->
  s !! ("thread-info:" +:+ T) = Some (VThreadInfo t) ->
  theirEPK t = Some e ->
  getJWKthumbprint P e <> "" ->
  myThumbprint t <> getJWKthumbprint P e ->
  signs_for (identityKeyPair c) ->
  reimports (publicKey (identityKeyPair c)) ->
  aes_roundtrip (P := P) ->
  well_formed_text (P := P) msg ->
  JS.parseInt16 current = JS.Num n ->
  (0 <= n < 2 ^ 53 - 1)%Z ->
  exists j s',
    replyToThread (S fuel) c rnd iv' T msg selfSign s = (inr j, s')
    /\ s' !! ("message-id:" +:+ T)
       = Some (VString (JS.toString16 (JS.Num (n + 1))))
    /\ messageId (payload j) = Some (JS.toString16 (JS.Num (n + 1)))
    /\ JS.parseInt16 (JS.toString16 (JS.Num (n + 1))) = JS.Num (n + 1).
Proof.
  intros HT Hread Hcur Hinfo Hepk Hne Hmy Hsign Hid Haes Htext Hn Hrange.
  eexists _, _. split; [|split; [|split]].
  - apply replyToThread_run with (t := t) (e := e) (keys := keys)
                                 (current := current); assumption.
  - rewrite appendItem_lookup_ne
      by (intros E; symmetry in E; revert E; apply id_vs_messages).
    rewrite lookup_insert_eq, Hn, succ_small by exact Hrange. reflexivity.
  - cbn [replyEnvelope signJWS payload messageId].
    rewrite Hn, succ_small by exact Hrange. reflexivity.
  - apply parseInt16_toString16. lia.
Qed.

End ReplyTheorems.

(** ** The concrete platform honours the contracts *)
Section ToyFacts.

Lemma toy_signs (k : N) : signs_for (Toy.keypair k).
Proof. intros h p. apply N.eqb_refl. Qed.

Lemma toy_reimports (k : N) : reimports (P := Toy.platform) k.
Proof. reflexivity. Qed.

Lemma toy_dh (a b : N) : dh_agree (Toy.keypair a) (Toy.keypair b).
Proof. apply N.mul_comm. Qed.

Lemma toy_aes : aes_roundtrip (P := Toy.platform).
Proof.
  intros key iv' pt. cbn. unfold Toy.decrypt, Toy.encrypt.
  rewrite Byte.byte_dec_lb; reflexivity.
Qed.

Lemma run_eq {A} (r : (Error + A) * gmap string (Value Toy.platform)) x :
  fst r = x -> r = (x, snd r).
Proof. destruct r as [a b]. cbn. intros ->. reflexivity. Qed.

Lemma toy_secret (c : Client Toy.platform) (T : string)
    (s : gmap string (Value Toy.platform)) keys :
  fst (readThreadSecret c T s) = inr keys ->
  readThreadSecret c T s = (inr keys, s).
Proof.
  intros H. rewrite (run_eq _ _ H). f_equal.
  apply readThreadSecret_readonly.
Qed.

End ToyFacts.

(** ** The theorems at work on concrete runs *)


(** Alice's answer in the scenario verifies under her identity key. *)
Lemma reply_is_verified_with_identity_key_witness :
  Toy.step4 = (inr Toy.reply2, snd Toy.step4)
  /\ verifyJWS Toy.reply2 (Some (publicKey (identityKeyPair Toy.alice)))
     = true.
Proof.
  assert (H : Toy.step4 = (inr Toy.reply2, snd Toy.step4))
    by (apply run_eq; reflexivity).
  split; [exact H|].
  apply (reply_is_verified_with_identity_key 2 Toy.alice Toy.alice_rnd
           Toy.iv12 "a3" "hello bob" false (snd Toy.step3) (snd Toy.step4)
           Toy.reply2).
  - discriminate.
  - reflexivity.
  - exact H.
Defined.

(** A message that embeds Bob's key under a signature that is not Bob's
    is refused as [UnverifiedSigner]. *)
Lemma embedded_key_failure_is_unverified_signer_witness :
  verifyJWS Toy.forged None = false
  /\ appendThread 1 Toy.alice Toy.alice_rnd Toy.forged (Some "a3")
       (snd Toy.step3)
     = (inl UnverifiedSigner, snd Toy.step3).
Proof.
  split; [reflexivity|].
  apply (embedded_key_failure_is_unverified_signer 0 Toy.alice Toy.alice_rnd
           Toy.forged "a3" (snd Toy.step3) 177).
  - discriminate.
  - reflexivity.
  - reflexivity.
  - reflexivity.
Defined.

(** In Alice's thread: Bob's self-signed first reply is checked against
    its embedded key, Alice's own answer (addressed to Bob's thread)
    against her identity key, a message addressed to her thread against
    Bob's key; a message addressed to neither is refused. *)
Lemma append_verifier_selection_witness :
  verifyAppended Toy.alice Toy.reply1 Toy.reply1
    (snd Toy.step3 !! "thread-info:a3")
  = (if verifyJWS Toy.reply1 None then inr tt else inl UnverifiedSigner)
  /\ verifyAppended Toy.alice Toy.reply2 Toy.reply2
       (snd Toy.step3 !! "thread-info:a3")
     = (if verifyJWS Toy.reply2 (Some (publicKey (identityKeyPair Toy.alice)))
        then inr tt else inl BadSignature)
  /\ verifyAppended Toy.alice Toy.to_alice Toy.to_alice
       (snd Toy.step3 !! "thread-info:a3")
     = (if verifyJWS Toy.to_alice (Some (177 : PubKey Toy.platform))
        then inr tt else inl BadSignature)
  /\ appendThread 1 Toy.alice Toy.alice_rnd Toy.stray (Some "a3")
       (snd Toy.step3)
     = (inl UnverifiedSigner, snd Toy.step3).
Proof.
  assert (Hinfo : snd Toy.step3 !! "thread-info:a3"
                  = Some (VThreadInfo
                            (@mkThreadInfo Toy.platform "a3" (Some 179)
                               Toy.invite (Some 177))))
    by (reflexivity).
  rewrite Hinfo.
  pose proof (fun m =>
                append_verifier_selection 0 Toy.alice Toy.alice_rnd m "a3"
                  (@mkThreadInfo Toy.platform "a3" (Some 179) Toy.invite
                     (Some 177))
                  (snd Toy.step3) 179 177 177
                  ltac:(discriminate) Hinfo eq_refl eq_refl eq_refl) as Hsel.
  cbv zeta in Hsel.
  split; [|split; [|split]].
  - destruct (Hsel Toy.reply1) as (_ & Hemb & _).
    apply (Hemb 177). reflexivity.
  - destruct (Hsel Toy.reply2) as (_ & _ & Haddr & _).
    destruct (Haddr "b3" eq_refl eq_refl ltac:(discriminate)) as (Hme & _).
    apply Hme. reflexivity.
  - destruct (Hsel Toy.to_alice) as (_ & _ & Haddr & _).
    destruct (Haddr "a3" eq_refl eq_refl ltac:(discriminate))
      as (_ & Hpeer & _).
    apply Hpeer; [discriminate|reflexivity].
  - destruct (Hsel Toy.stray) as (Hfail & _ & Haddr & _).
    apply Hfail.
    destruct (Haddr "ff" eq_refl eq_refl ltac:(discriminate))
      as (_ & _ & Hnone).
    apply Hnone; discriminate.
Defined.

(** A first reply with id c to the invitation with id a is out of
    order. *)
Lemma first_reply_sequence_check_witness :
  snd Toy.step1 !! "invitation:a3" = Some (VJWS Toy.invite)
  /\ appendThread 1 Toy.alice Toy.alice_rnd Toy.late_first None
       (snd Toy.step1)
     = (inl OutOfOrder, snd Toy.step1).
Proof.
  assert (Hinv : snd Toy.step1 !! "invitation:a3" = Some (VJWS Toy.invite))
    by (reflexivity).
  split; [exact Hinv|].
  apply (first_reply_sequence_check 0 Toy.alice Toy.alice_rnd Toy.late_first
           Toy.invite (snd Toy.step1) 177 179 eq_refl eq_refl Hinv).
  - reflexivity.
  - reflexivity.
Defined.

(** On an empty storage neither the thread nor the invitation is
    known. *)
Lemma unknown_thread_or_invitation_witness :
  appendThread 1 Toy.alice Toy.alice_rnd Toy.stray None ∅
  = (inl ThreadNotFound, ∅)
  /\ appendThread 1 Toy.alice Toy.alice_rnd Toy.late_first None ∅
     = (inl UnknownInvitation, ∅).
Proof.
  split.
  - apply (unknown_thread_or_invitation 0 Toy.alice Toy.alice_rnd Toy.stray ∅);
      reflexivity.
  - apply (unknown_thread_or_invitation 0 Toy.alice Toy.alice_rnd
             Toy.late_first ∅) with (signer := 177) (e := 179);
      reflexivity.
Defined.

(** Bob's first reply carries his identity key (177) and his thread key
    (179); a first reply without [epk] is malformed. *)
Lemma first_reply_shape_witness :
  Toy.step2 = (inr Toy.reply1, snd Toy.step2)
  /\ jwk (header Toy.reply1) = Some (177 : JWK Toy.platform)
  /\ epk (payload Toy.reply1) = Some (179 : JWK Toy.platform)
  /\ appendThread 3 Toy.alice Toy.alice_rnd Toy.bare_first None ∅
     = (inl MalformedFirstReply, ∅).
Proof.
  assert (H : replyToInvitation 2 Toy.bob Toy.bob_rnd Toy.iv12 Toy.invite
                 "hi" ∅
               = (inr Toy.reply1, snd Toy.step2))
    by (apply run_eq; reflexivity).
  split; [exact H|].
  destruct (first_reply_shape 2 Toy.bob Toy.bob_rnd Toy.iv12
              ltac:(reflexivity)) as (Hfirst & _ & _).
  destruct (first_reply_shape 2 Toy.alice Toy.alice_rnd Toy.iv12
              ltac:(reflexivity)) as (_ & Hbare & _).
  destruct (Hfirst Toy.invite "hi" ∅ (snd Toy.step2) Toy.reply1 H)
    as [Hjwk Hepk].
  split; [|split].
  - exact Hjwk.
  - exact Hepk.
  - apply (Hbare Toy.bare_first ∅ 177); reflexivity.
Defined.

(** Bob's reply with a text the encoder cannot represent fails, and his
    storage differs from the previous one in the message id alone. *)
Lemma failed_reply_keeps_incremented_id_witness :
  fst Toy.step8 = inl SelfEncryptMismatch
  /\ snd Toy.step8
     = <["message-id:b3" := VString "c"]> (snd Toy.step5).
Proof.
  assert (H : Toy.step8 = (inl SelfEncryptMismatch, snd Toy.step8))
    by (apply run_eq; reflexivity).
  split; [reflexivity|].
  destruct (failed_reply_keeps_incremented_id 2 Toy.bob Toy.bob_rnd Toy.iv12
              "b3" Toy.lossy_text false (snd Toy.step5)
              (29177, 179) "b" ltac:(discriminate)
              ltac:(apply toy_secret; reflexivity)
              ltac:(reflexivity))
    as (Herr & _).
  apply (Herr SelfEncryptMismatch (snd Toy.step8) H).
Defined.

(** From the stored id 2^52 - 1 the reply goes through with id 2^52. *)
Lemma reply_id_has_no_upper_bound_witness :
  exists j s',
    Toy.step11 = (inr j, s')
    /\ s' !! "message-id:b3" = Some (VString "10000000000000")
    /\ messageId (payload j) = Some "10000000000000"
    /\ JS.parseInt16 "10000000000000" = JS.Num (2 ^ 52).
Proof.
  apply (reply_id_has_no_upper_bound 1 Toy.bob Toy.bob_rnd Toy.iv12 "b3" "x"
           false Toy.brim (29177, 179) "fffffffffffff"
           (@mkThreadInfo Toy.platform "b3" (Some 163) Toy.invite (Some 161))
           163 (2 ^ 52 - 1)).
  - discriminate.
  - apply toy_secret. reflexivity.
  - reflexivity.
  - reflexivity.
  - reflexivity.
  - discriminate.
  - discriminate.
  - apply toy_signs.
  - reflexivity.
  - apply toy_aes.
  - reflexivity.
  - reflexivity.
  - split; [discriminate|reflexivity].
Defined.

(** ** Runs that depart from the specification's sentences *)


(** No partial commit.  The reply fails its plaintext self-test, and the
    stored id has moved from b to c all the same. *)
Lemma failed_self_test_commits_id :
  fst Toy.step8 = inl SelfEncryptMismatch
  /\ snd Toy.step5 !! "message-id:b3" = Some (VString "b")
  /\ snd Toy.step8 !! "message-id:b3" = Some (VString "c")
  /\ snd Toy.step8 <> snd Toy.step5.
Proof.
  assert (H5 : snd Toy.step5 !! "message-id:b3" = Some (VString "b"))
    by reflexivity.
  assert (H8 : snd Toy.step8 !! "message-id:b3" = Some (VString "c"))
    by reflexivity.
  repeat split; try assumption; try reflexivity.
  intros E. rewrite E, H5 in H8. discriminate H8.
Qed.

(** Verifier by addressee.  After a first reply that names Alice's own
    thread key as [theirEPK], a message addressed to Alice's thread and
    signed by the peer (whose key the specification's rule selects, and
    under which it verifies) is refused: the engine checks it against
    Alice's identity key. *)
Lemma verifier_precedence_counterexample :
  snd Toy.step9 !! "thread-info:a3" = Some (VThreadInfo Toy.mirrored_info)
  /\ jwk (header Toy.to_alice) = None
  /\ re (payload Toy.to_alice) = Some (myThumbprint Toy.mirrored_info)
  /\ theirSignature Toy.mirrored_info ≫= importPublic Toy.platform
     = Some (177 : PubKey Toy.platform)
  /\ specVerifier Toy.alice Toy.to_alice Toy.mirrored_info
     = Some (177 : PubKey Toy.platform)
  /\ verifyJWS Toy.to_alice (Some (177 : PubKey Toy.platform)) = true
  /\ fst Toy.step10 = inl BadSignature.
Proof. repeat split; reflexivity. Qed.

(** Sequence check.  A first reply with a wrong id and no [epk], to a
    stored invitation: the failure is [MalformedFirstReply], not
    [OutOfOrder]. *)
Lemma sequence_check_counterexample :
  jwk (header Toy.bare_first) = Some (177 : JWK Toy.platform)
  /\ snd Toy.step1 !! "invitation:a3" = Some (VJWS Toy.invite)
  /\ JS.strict_eq (JS.parseInt16_opt (messageId (payload Toy.bare_first)))
       (JS.succ (JS.parseInt16_opt (messageId (payload Toy.invite))))
     = false
  /\ fst (appendThread 1 Toy.alice Toy.alice_rnd Toy.bare_first None
            (snd Toy.step1))
     = inl MalformedFirstReply
  /\ fst (appendThread 1 Toy.alice Toy.alice_rnd Toy.bare_first None
            (snd Toy.step1))
     <> inl OutOfOrder.
Proof.
  assert (H : fst (appendThread 1 Toy.alice Toy.alice_rnd Toy.bare_first
                     None (snd Toy.step1))
              = inl MalformedFirstReply) by reflexivity.
  repeat split; try reflexivity. rewrite H. discriminate.
Qed.

(** Overflow.  The incremented id 2^52 is no less than
    [MAX_MESSAGE_ID]; the call returns and stores it. *)
Lemma overflow_counterexample :
  Toy.brim !! "message-id:b3" = Some (VString "fffffffffffff")
  /\ JS.succ (JS.parseInt16 "fffffffffffff") = JS.Num (2 ^ 52)
  /\ (MAX_MESSAGE_ID <= inject_Z (2 ^ 52))%Q
  /\ fst Toy.step11 = inr (Toy.returned Toy.step11)
  /\ snd Toy.step11 !! "message-id:b3" = Some (VString "10000000000000").
Proof.
  repeat split; try reflexivity.
  vm_compute. discriminate.
Qed.

(** Unknown invitation.  A message with a [jwk] header, no [epk] and no
    stored invitation fails [MalformedFirstReply], not
    [UnknownInvitation]. *)
Lemma unknown_invitation_counterexample :
  jwk (header Toy.bare_first) = Some (177 : JWK Toy.platform)
  /\ (∅ : gmap string (Value Toy.platform)) !! "invitation:a3" = None
  /\ fst (appendThread 1 Toy.alice Toy.alice_rnd Toy.bare_first None ∅)
     = inl MalformedFirstReply
  /\ fst (appendThread 1 Toy.alice Toy.alice_rnd Toy.bare_first None ∅)
     <> inl UnknownInvitation.
Proof.
  assert (H : fst (appendThread 1 Toy.alice Toy.alice_rnd Toy.bare_first
                     None ∅)
              = inl MalformedFirstReply) by reflexivity.
  repeat split; try reflexivity. rewrite H. discriminate.
Qed.


(** ** The platform model on small inputs *)

Example parseInt16_ff : JS.parseInt16 "ff" = JS.Num 255.
Proof. reflexivity. Qed.

Example parseInt16_neg : JS.parseInt16 "  -0x1Fz" = JS.Num (-31).
Proof. reflexivity. Qed.

Example parseInt16_nan : JS.parseInt16 "zz" = JS.NaN.
Proof. reflexivity. Qed.

Example toString16_4096 : JS.toString16 (JS.Num 4096) = "1000".
Proof. reflexivity. Qed.

Example succ_2_53 : JS.succ (JS.Num (2 ^ 53)) = JS.Num (2 ^ 53).
Proof. reflexivity. Qed.

Example succ_2_53_3 : JS.succ (JS.Num (2 ^ 53 + 2)) = JS.Num (2 ^ 53 + 4).
Proof. reflexivity. Qed.

Example base64_std_fbff : Base64.encode false [xfb; xff] = "+/8=".
Proof. reflexivity. Qed.

Example base64_url_fbff : Base64.encode true [xfb; xff] = "-_8".
Proof. reflexivity. Qed.

Example base64_decode_both :
  Base64.decode "+/8=" = [xfb; xff] /\ Base64.decode "-_8" = [xfb; xff].
Proof. split; reflexivity. Qed.

(** * More of the client, proved *)

(** ** Storage after a thread is started; running the handshake's parts *)

Section HandshakeFacts.

Context {P : Platform}.

Lemma appendItem_lookup_eq k v (s : gmap string (Value P)) :
  snd (appendItem k v s) !! k = Some (VList (listAt s k ++ [v])).
Proof.
  unfold appendItem, listAt. cbn [snd].
  destruct (s !! k) as [[]|]; by rewrite lookup_insert_eq.
Qed.

Lemma listAt_insert_ne k k' v (s : gmap string (Value P)) :
  k <> k' -> listAt (<[k := v]> s) k' = listAt s k'.
Proof. intros H. unfold listAt. by rewrite lookup_insert_ne. Qed.

Lemma listAt_appendItem_ne k k' v (s : gmap string (Value P)) :
  k <> k' -> listAt (snd (appendItem k v s)) k' = listAt s k'.
Proof. intros H. unfold listAt. by rewrite appendItem_lookup_ne. Qed.

(** *** What [startThread] leaves in the storage *)

Lemma threadStarted_info c inv theirs sig mid my (s : gmap string (Value P)) :
  threadStarted c inv theirs sig mid my s !! ("thread-info:" +:+ my)
  = Some (VThreadInfo (mkThreadInfo my theirs inv (Some sig))).
Proof.
  unfold threadStarted.
  rewrite lookup_insert_ne by distinct_keys.
  rewrite !appendItem_lookup_ne by distinct_keys.
  apply lookup_insert_eq.
Qed.

Lemma threadStarted_id c inv theirs sig mid my (s : gmap string (Value P)) :
  threadStarted c inv theirs sig mid my s !! ("message-id:" +:+ my)
  = Some (match mid with Some m => VString m | None => VUndefined end).
Proof. unfold threadStarted. apply lookup_insert_eq. Qed.

Lemma threadStarted_messages c inv theirs sig mid my
    (s : gmap string (Value P)) :
  threadStarted c inv theirs sig mid my s !! ("messages:" +:+ my)
  = Some (VList (listAt s ("messages:" +:+ my) ++ [VJWS inv])).
Proof.
  unfold threadStarted.
  rewrite lookup_insert_ne by distinct_keys.
  rewrite appendItem_lookup_eq.
  rewrite listAt_appendItem_ne by distinct_keys.
  rewrite !listAt_insert_ne by distinct_keys. reflexivity.
Qed.

Lemma threadStarted_threads c inv theirs sig mid my
    (s : gmap string (Value P)) :
  threadStarted c inv theirs sig mid my s !! ("threads:" +:+ thumbprint c)
  = Some (VList (listAt s ("threads:" +:+ thumbprint c) ++ [VString my])).
Proof.
  unfold threadStarted.
  rewrite lookup_insert_ne by distinct_keys.
  rewrite appendItem_lookup_ne by distinct_keys.
  rewrite appendItem_lookup_eq.
  rewrite !listAt_insert_ne by distinct_keys. reflexivity.
Qed.

Lemma threadStarted_signer c inv theirs sig mid my
    (s : gmap string (Value P)) :
  threadStarted c inv theirs sig mid my s
    !! ("public-key:" +:+ getJWKthumbprint P sig)
  = Some (VJWK sig).
Proof.
  unfold threadStarted.
  rewrite lookup_insert_ne by distinct_keys.
  rewrite !appendItem_lookup_ne by distinct_keys.
  rewrite lookup_insert_ne by distinct_keys.
  apply lookup_insert_eq.
Qed.

Lemma threadStarted_other c inv theirs sig mid my
    (s : gmap string (Value P)) key :
  key <> "message-id:" +:+ my ->
  key <> "messages:" +:+ my ->
  key <> "threads:" +:+ thumbprint c ->
  key <> "thread-info:" +:+ my ->
  key <> "public-key:" +:+ getJWKthumbprint P sig ->
  threadStarted c inv theirs sig mid my s !! key = s !! key.
Proof.
  intros H1 H2 H3 H4 H5. unfold threadStarted.
  rewrite lookup_insert_ne by congruence.
  rewrite !appendItem_lookup_ne by congruence.
  rewrite !lookup_insert_ne by congruence. reflexivity.
Qed.

Lemma threadStarted_backup c inv theirs sig mid my
    (s : gmap string (Value P)) x :
  threadStarted c inv theirs sig mid my s !! ("encrypted-thread-key:" +:+ x)
  = s !! ("encrypted-thread-key:" +:+ x).
Proof. apply threadStarted_other; distinct_keys. Qed.

(** [startThread] with the thread's thumbprint given (the inviter's
    side). *)
Lemma startThread_given c rnd inv theirs sig mid my
    (s : gmap string (Value P)) :
  my <> "" ->
  truthy (s !! ("encrypted-thread-key:" +:+ my)) = true ->
  startThread c rnd inv theirs (Some sig) mid (Some my) s
  = (inr my, threadStarted c inv theirs sig mid my s).
Proof.
  intros Hmy Hkey. unfold startThread.
  rewrite (nonempty_Some _ Hmy). cbn [tmpl].
  unfold bind at 1, ret at 1.
  rewrite bind_getItem, Hkey, bind_invariant_true.
  cbn [thumbprintOf]. rewrite bind_lift_inr.
  reflexivity.
Qed.

(** [startThread] without a thumbprint (the replier's side): the thread
    key is generated and backed up first. *)
Lemma startThread_generated c rnd inv theirs sig mid
    (s : gmap string (Value P)) backup :
  encryptToSelf c (fresh_self_epk rnd) (fresh_self_iv rnd)
    (stringify_jwks P (exportKeyPair (fresh_thread_key rnd)))
  = inr backup ->
  let my := getJWKthumbprint P (snd (exportKeyPair (fresh_thread_key rnd))) in
  startThread c rnd inv theirs (Some sig) mid None s
  = (inr my,
     threadStarted c inv theirs sig mid my
       (<["encrypted-thread-key:" +:+ my := VJWS backup]> s)).
Proof.
  intros Henc my. unfold startThread. cbn [nonempty].
  unfold makeThreadKeys. rewrite Henc.
  unfold bind at 1. unfold bind at 1. unfold bind at 1.
  unfold lift at 1. unfold bind at 1. unfold setItem at 1, ret at 1.
  unfold ret at 1. cbn [fst]. fold my.
  rewrite bind_getItem, lookup_insert_eq. cbn [truthy].
  rewrite bind_invariant_true.
  cbn [thumbprintOf]. rewrite bind_lift_inr.
  reflexivity.
Qed.

(** Every [startThread] that returns has made exactly these writes. *)
Lemma startThread_ok c rnd inv theirs sig mid myT
    (s s' : gmap string (Value P)) my :
  startThread c rnd inv theirs sig mid myT s = (inr my, s') ->
  exists k s0,
    sig = Some k
    /\ truthy (s0 !! ("encrypted-thread-key:" +:+ my)) = true
    /\ s' = threadStarted c inv theirs k mid my s0
    /\ (if nonempty myT then myT = Some my /\ s0 = s
        else
          my = getJWKthumbprint P (snd (exportKeyPair (fresh_thread_key rnd)))
          /\ exists backup,
               encryptToSelf c (fresh_self_epk rnd) (fresh_self_iv rnd)
                 (stringify_jwks P (exportKeyPair (fresh_thread_key rnd)))
               = inr backup
               /\ s0 = <["encrypted-thread-key:" +:+ my := VJWS backup]> s).
Proof.
  unfold startThread. intros H.
  apply bind_ok in H as (my0 & s0 & H0 & H).
  apply bind_ok in H as (kb & s2 & H2 & H). apply getItem_ok in H2 as [-> ->].
  apply bind_ok in H as ([] & s2 & H2 & H). apply invariant_ok in H2 as [Hkey ->].
  apply bind_ok in H as (st & s2 & H2 & H). apply lift_ok in H2 as [Hsig ->].
  destruct sig as [k|]; [|discriminate]. injection Hsig as <-.
  apply bind_ok in H as ([] & s2 & H2 & H). apply setItem_ok in H2 as ->.
  apply bind_ok in H as ([] & s2 & H2 & H). apply setItem_ok in H2 as ->.
  apply bind_ok in H as ([] & s2 & H2 & H). apply appendItem_run in H2 as ->.
  apply bind_ok in H as ([] & s2 & H2 & H). apply appendItem_run in H2 as ->.
  apply bind_ok in H as ([] & s2 & H2 & H). apply setItem_ok in H2 as ->.
  apply ret_ok in H as [-> ->].
  exists k, s0. split; [reflexivity|]. split; [exact Hkey|].
  split; [reflexivity|].
  destruct (nonempty myT) eqn:Hn.
  - apply ret_ok in H0 as [-> ->]. split; [|reflexivity].
    destruct myT as [[|]|]; try discriminate. reflexivity.
  - apply bind_ok in H0 as (made & s1 & H1 & H0).
    apply ret_ok in H0 as [-> ->].
    unfold makeThreadKeys in H1.
    apply bind_ok in H1 as (backup & s2 & H2 & H1).
    apply lift_ok in H2 as [Henc ->].
    apply bind_ok in H1 as ([] & s2 & H2 & H1).
    apply setItem_ok in H2 as ->. apply ret_ok in H1 as [-> ->].
    split; [reflexivity|]. exists backup. split; [exact Henc|reflexivity].
Qed.

(** *** [encryptToSelf] *)

Lemma encryptToSelf_shape (c : Client P) (e : KeyPair P) (i : list byte)
    (m : string) (j : JWS P) :
  encryptToSelf c e i m = inr j ->
  j = signJWS
        (mkHeader "ES384" (Some (snd (exportKeyPair (identityKeyPair c)))))
        (mkPayload None None
           (Some (Base64.encode true
                    (aes_gcm_encrypt P
                       (deriveSharedSecret P (privateKey e)
                          (publicKey (storageKeyPair c)))
                       i (utf8_encode P m))))
           (Some (Base64.encode false i))
           (Some (snd (exportKeyPair e))) None None)
        (privateKey (identityKeyPair c))
  /\ verifyJWS j None = true.
Proof.
  unfold encryptToSelf.
  match goal with
  | |- context [signJWS ?h ?p ?k] => generalize (signJWS h p k)
  end.
  intros j0. destruct (verifyJWS j0 None) eqn:Hv; [|discriminate].
  destruct (bindE _ _); [discriminate|]. intros [= <-]. auto.
Qed.

Lemma encryptToSelf_run (c : Client P) (e : KeyPair P) (i : list byte)
    (m : string) :
  signs_for (identityKeyPair c) ->
  reimports (publicKey (identityKeyPair c)) ->
  reimports (publicKey e) ->
  dh_agree e (storageKeyPair c) ->
  aes_roundtrip (P := P) ->
  well_formed_text (P := P) m ->
  exists j, encryptToSelf c e i m = inr j.
Proof.
  intros Hsign Hid Hepk Hdh Haes Htext.
  set (h := mkHeader "ES384" (Some (snd (exportKeyPair (identityKeyPair c))))).
  set (secret := deriveSharedSecret P (privateKey e)
                   (publicKey (storageKeyPair c))).
  set (encrypted := aes_gcm_encrypt P secret i (utf8_encode P m)).
  set (p := mkPayload None None (Some (Base64.encode true encrypted))
              (Some (Base64.encode false i))
              (Some (snd (exportKeyPair e))) None None).
  set (j := signJWS h p (privateKey (identityKeyPair c))).
  assert (Hver : verifyWith (publicKey (identityKeyPair c)) j = true)
    by apply Hsign.
  assert (Hdec : decryptFromSelf c j = inr m).
  { unfold decryptFromSelf, parseJWS, verifyJWS. rewrite Hver.
    cbn [bindE payload j signJWS p epk iv message importKey exportKeyPair snd].
    rewrite Hepk. cbn [orThrow bindE].
    rewrite !Buffer_from_encode. cbn [orThrow bindE].
    rewrite <- Hdh. fold secret. unfold encrypted.
    rewrite Haes. cbn [orThrow bindE]. rewrite Htext. reflexivity. }
  exists j.
  unfold encryptToSelf. fold secret encrypted h p j.
  assert (Hself : verifyJWS j None = true).
  { unfold verifyJWS. cbn [header j signJWS h jwk exportKeyPair snd].
    rewrite Hid. exact Hver. }
  rewrite Hself, Hdec. cbn [bindE]. rewrite string_eqb_refl. reflexivity.
Qed.

(** *** [readThreadSecret] *)

Lemma readThreadSecret_value (c : Client P) (T : string) (t : ThreadInfo P)
    (e : JWK P) (pk : PubKey P) (backup : JWS P) (text : string)
    (jwks : PrivJWK P * JWK P) (priv : PrivKey P)
    (s : gmap string (Value P)) :
  s !! ("thread-info:" +:+ T) = Some (VThreadInfo t) ->
  theirEPK t = Some e ->
  importPublic P e = Some pk ->
  s !! ("encrypted-thread-key:" +:+ myThumbprint t) = Some (VJWS backup) ->
  decryptFromSelf c backup = inr text ->
  parse_jwks P text = Some jwks ->
  importPrivate P (fst jwks) = Some priv ->
  readThreadSecret c T s
  = (inr (deriveSharedSecret P priv pk, snd jwks), s).
Proof.
  intros Hinfo Hepk Hpk Hkey Hdec Hparse Hpriv.
  unfold readThreadSecret.
  rewrite bind_getItem, Hinfo. cbn [truthy infoField tmpl].
  rewrite bind_invariant_true, Hepk.
  rewrite bool_decide_eq_true_2 by eauto.
  rewrite bind_invariant_true. cbn [importKey]. rewrite Hpk.
  cbn [orThrow]. rewrite bind_lift_inr.
  rewrite bind_getItem, Hkey, bind_lift_inr, Hdec, bind_lift_inr.
  rewrite Hparse. cbn [orThrow]. rewrite bind_lift_inr, Hpriv.
  cbn [orThrow]. rewrite bind_lift_inr. reflexivity.
Qed.

End HandshakeFacts.

(** ** Self-encryption and invitations *)

Section InvitationTheorems.

Context {P : Platform}.

Lemma decryptFromSelf_verified (c : Client P) (j : JWS P) (m : string) :
  decryptFromSelf c j = inr m ->
  verifyJWS j (Some (publicKey (identityKeyPair c))) = true.
Proof.
  unfold decryptFromSelf, parseJWS.
  destruct (verifyJWS j (Some (publicKey (identityKeyPair c))));
    [reflexivity|discriminate].
Qed.

Lemma encryptToSelf_err (c : Client P) (e : KeyPair P) (i : list byte)
    (m : string) (err : Error) :
  encryptToSelf c e i m = inl err ->
  exists cause,
    err = ErrorEncryptingMessageBecause cause
    /\ (cause = ErrorEncryptingMessage \/ cause = SelfEncryptMismatch
        \/ cause = JWSVerificationFailed \/ cause = PlatformError).
Proof.
  unfold encryptToSelf.
  match goal with
  | |- context [signJWS ?h ?p ?k] => generalize (signJWS h p k)
  end.
  intros j0. destruct (verifyJWS j0 None).
  - destruct (decryptFromSelf c j0) as [x|d] eqn:E; cbn [bindE].
    + intros [= <-]. exists x. split; [reflexivity|].
      apply decryptFromSelf_errors in E as [->| ->]; auto.
    + destruct (String.eqb d m); [discriminate|].
      intros [= <-]. eauto.
  - intros [= <-]. eauto.
Qed.

(** X1.  Whatever the platform does, an envelope that [encryptToSelf]
    returns has passed its self-test: [decryptFromSelf] turns it back
    into the message, it verifies under the key it embeds and under the
    client's identity key, it embeds the identity public key and the
    fresh key's public half, and its [iv] field reads back as the IV.
    Every failure is reported as "Error encrypting message: <cause>",
    the cause being the failed signature check, the plaintext mismatch,
    or a failure inside [decryptFromSelf]. *)
Theorem encryptToSelf_is_self_tested (c : Client P) (e : KeyPair P)
    (i : list byte) (m : string) :
  (forall j,
     encryptToSelf c e i m = inr j ->
     decryptFromSelf c j = inr m
     /\ verifyJWS j None = true
     /\ verifyJWS j (Some (publicKey (identityKeyPair c))) = true
     /\ jwk (header j)
        = Some (exportPublic P (publicKey (identityKeyPair c)))
     /\ epk (payload j) = Some (exportPublic P (publicKey e))
     /\ Buffer_from (iv (payload j)) = Some i)
  /\ (forall err,
        encryptToSelf c e i m = inl err ->
        exists cause,
          err = ErrorEncryptingMessageBecause cause
          /\ (cause = ErrorEncryptingMessage \/ cause = SelfEncryptMismatch
              \/ cause = JWSVerificationFailed \/ cause = PlatformError)).
Proof.
  split.
  - intros j H.
    pose proof (encryptToSelf_ok _ _ _ _ _ H) as Hdec.
    pose proof (encryptToSelf_shape _ _ _ _ _ H) as [Hj Hv].
    split; [exact Hdec|]. split; [exact Hv|].
    split; [eapply decryptFromSelf_verified, Hdec|].
    rewrite Hj. cbn [signJWS header payload jwk epk iv exportKeyPair snd].
    split; [reflexivity|]. split; [reflexivity|].
    apply Buffer_from_encode.
  - apply encryptToSelf_err.
Qed.

Lemma makeThreadKeys_ok (c : Client P) (rnd : Entropy P)
    (s s' : gmap string (Value P)) made :
  makeThreadKeys c rnd s = (inr made, s') ->
  made = (getJWKthumbprint P (snd (exportKeyPair (fresh_thread_key rnd))),
          exportKeyPair (fresh_thread_key rnd))
  /\ exists backup,
       encryptToSelf c (fresh_self_epk rnd) (fresh_self_iv rnd)
         (stringify_jwks P (exportKeyPair (fresh_thread_key rnd)))
       = inr backup
       /\ s' = <["encrypted-thread-key:" +:+ fst made := VJWS backup]> s.
Proof.
  unfold makeThreadKeys. intros H.
  apply bind_ok in H as (backup & s2 & H2 & H).
  apply lift_ok in H2 as [Henc ->].
  apply bind_ok in H as ([] & s2 & H2 & H).
  apply setItem_ok in H2 as ->. apply ret_ok in H as [-> ->].
  split; [reflexivity|]. exists backup. split; [exact Henc|reflexivity].
Qed.

Lemma makeThreadKeys_err (c : Client P) (rnd : Entropy P)
    (s s' : gmap string (Value P)) e :
  makeThreadKeys c rnd s = (inl e, s') ->
  s' = s
  /\ encryptToSelf c (fresh_self_epk rnd) (fresh_self_iv rnd)
       (stringify_jwks P (exportKeyPair (fresh_thread_key rnd)))
     = inl e.
Proof.
  unfold makeThreadKeys. intros H.
  apply bind_err in H as [H|(backup & s2 & H2 & H)].
  - unfold lift in H. injection H as H ->. auto.
  - apply bind_err in H as [H|(? & ? & _ & H)]; discriminate H.
Qed.

(** X2.  [createInvitation] either fails inside the key backup, with
    "Error encrypting message: ..." and the storage untouched, or
    returns the invitation it signed with the identity key and has
    written exactly two entries, both under the thumbprint of the fresh
    thread key: the self-encrypted backup of that key (which
    [decryptFromSelf] opens) and the invitation itself.  The invitation
    embeds the identity public key, carries the thread key's public half
    as [epk], the drawn id in hex, and the note and nickname as given. *)
Theorem createInvitation_effects (c : Client P) (rnd : Entropy P)
    (random_id : Z) (note' nickname' : option string)
    (s s' : gmap string (Value P)) r :
  createInvitation c rnd random_id note' nickname' s = (r, s') ->
  match r with
  | inl e => s' = s /\ exists cause, e = ErrorEncryptingMessageBecause cause
  | inr inv =>
      let T :=
        getJWKthumbprint P (exportPublic P (publicKey (fresh_thread_key rnd)))
      in
      inv = signJWS
              (mkHeader "ES384"
                 (Some (exportPublic P (publicKey (identityKeyPair c)))))
              (mkPayload None (Some (JS.toString16 (JS.of_Z random_id)))
                 None None
                 (Some (exportPublic P (publicKey (fresh_thread_key rnd))))
                 note' nickname')
              (privateKey (identityKeyPair c))
      /\ exists backup,
           decryptFromSelf c backup
           = inr (stringify_jwks P (exportKeyPair (fresh_thread_key rnd)))
           /\ s' = <["invitation:" +:+ T := VJWS inv]>
                     (<["encrypted-thread-key:" +:+ T := VJWS backup]> s)
  end.
Proof.
  unfold createInvitation. intros H. destruct r as [e|inv].
  - apply bind_err in H as [H|(made & s1 & _ & H)].
    + apply makeThreadKeys_err in H as [-> H].
      split; [reflexivity|].
      apply encryptToSelf_err in H as (cause & -> & _). eauto.
    + apply bind_err in H as [H|(? & ? & _ & H)]; discriminate H.
  - apply bind_ok in H as (made & s1 & H1 & H).
    apply makeThreadKeys_ok in H1 as (-> & backup & Henc & ->).
    apply bind_ok in H as ([] & s2 & H2 & H).
    apply setItem_ok in H2 as ->. apply ret_ok in H as [-> ->].
    cbn [fst snd exportKeyPair]. split; [reflexivity|].
    exists backup. split; [eapply encryptToSelf_ok, Henc|reflexivity].
Qed.

Lemma verifyJWS_own (c : Client P) h p :
  signs_for (identityKeyPair c) ->
  reimports (publicKey (identityKeyPair c)) ->
  jwk h = Some (exportPublic P (publicKey (identityKeyPair c))) ->
  verifyJWS (signJWS h p (privateKey (identityKeyPair c))) None = true.
Proof.
  intros Hsign Hid Hjwk. unfold verifyJWS. cbn [signJWS header].
  rewrite Hjwk, Hid. apply Hsign.
Qed.

Lemma createInvitation_run (c : Client P) (rnd : Entropy P)
    (random_id : Z) (note' nickname' : option string)
    (s : gmap string (Value P)) backup :
  encryptToSelf c (fresh_self_epk rnd) (fresh_self_iv rnd)
    (stringify_jwks P (exportKeyPair (fresh_thread_key rnd)))
  = inr backup ->
  let T :=
    getJWKthumbprint P (exportPublic P (publicKey (fresh_thread_key rnd))) in
  let inv :=
    signJWS
      (mkHeader "ES384"
         (Some (exportPublic P (publicKey (identityKeyPair c)))))
      (mkPayload None (Some (JS.toString16 (JS.of_Z random_id)))
         None None
         (Some (exportPublic P (publicKey (fresh_thread_key rnd))))
         note' nickname')
      (privateKey (identityKeyPair c)) in
  createInvitation c rnd random_id note' nickname' s
  = (inr inv,
     <["invitation:" +:+ T := VJWS inv]>
       (<["encrypted-thread-key:" +:+ T := VJWS backup]> s)).
Proof.
  intros Henc T inv. unfold createInvitation, makeThreadKeys.
  rewrite Henc. reflexivity.
Qed.

(** X3.  On a platform that honours its contracts (signatures verify,
    exported keys import back, Diffie-Hellman agrees between the fresh
    key and the storage key, AES-GCM decryption undoes encryption, the
    JSON text of the thread key survives the text codec)
    [createInvitation] returns.  The invitation it returns is stored
    under [invitation:<thumbprint of its epk>], verifies against the key
    it embeds - so [parseJWS] and [replyToInvitation] accept it - and,
    for a drawn id between 0 and 2^53, its [messageId] parses back to
    that id. *)
Theorem createInvitation_succeeds (c : Client P) (rnd : Entropy P)
    (random_id : Z) (note' nickname' : option string)
    (s : gmap string (Value P)) :
  signs_for (identityKeyPair c) ->
  reimports (publicKey (identityKeyPair c)) ->
  reimports (publicKey (fresh_self_epk rnd)) ->
  dh_agree (fresh_self_epk rnd) (storageKeyPair c) ->
  aes_roundtrip (P := P) ->
  well_formed_text (P := P)
    (stringify_jwks P (exportKeyPair (fresh_thread_key rnd))) ->
  (0 <= random_id < 2 ^ 53)%Z ->
  exists inv s',
    createInvitation c rnd random_id note' nickname' s = (inr inv, s')
    /\ (exists e,
          epk (payload inv) = Some e
          /\ s' !! ("invitation:" +:+ getJWKthumbprint P e)
             = Some (VJWS inv))
    /\ verifyJWS inv None = true
    /\ parseJWS inv KeyOmitted = inr inv
    /\ JS.parseInt16_opt (messageId (payload inv)) = JS.Num random_id.
Proof.
  intros Hsign Hid Hepk Hdh Haes Htext Hrange.
  destruct (encryptToSelf_run c (fresh_self_epk rnd) (fresh_self_iv rnd)
              (stringify_jwks P (exportKeyPair (fresh_thread_key rnd)))
              Hsign Hid Hepk Hdh Haes Htext) as (backup & Henc).
  eexists _, _. split; [apply createInvitation_run, Henc|].
  assert (Hv : forall p,
             verifyJWS
               (signJWS
                  (mkHeader "ES384"
                     (Some (exportPublic P (publicKey (identityKeyPair c)))))
                  p (privateKey (identityKeyPair c))) None = true)
    by (intros p; by apply verifyJWS_own).
  split; [|split; [|split]].
  - eexists. split; [reflexivity|]. apply lookup_insert_eq.
  - apply Hv.
  - unfold parseJWS. cbn [signJWS header jwk]. rewrite Hv. reflexivity.
  - cbn [signJWS payload messageId JS.parseInt16_opt].
    rewrite of_Z_small by exact Hrange.
    apply parseInt16_toString16. lia.
Qed.

End InvitationTheorems.

(** ** The handshake, one call at a time *)

Section HandshakeTheorems.

Context {P : Platform}.

Lemma parseJWS_same (j j' : JWS P) k : parseJWS j k = inr j' -> j' = j.
Proof. unfold parseJWS. repeat case_match; congruence. Qed.

Lemma parseJWS_verified (j : JWS P) :
  verifyJWS j None = true -> parseJWS j KeyOmitted = inr j.
Proof. intros H. unfold parseJWS. rewrite H. by destruct (jwk (header j)). Qed.

Lemma strict_eq_defined (o : option string) (y : JS.num) :
  JS.strict_eq (JS.parseInt16_opt o) y = true -> exists m, o = Some m.
Proof. destruct o; [eauto|]. discriminate. Qed.

(** Everything a returning [replyToInvitation] has done. *)
Lemma replyToInvitation_ok (fuel : nat) (c : Client P) (rnd : Entropy P)
    (iv' : list byte) (inv : JWS P) (msg : string)
    (s s' : gmap string (Value P)) (j : JWS P) :
  let T :=
    getJWKthumbprint P (exportPublic P (publicKey (fresh_thread_key rnd))) in
  T <> "" ->
  replyToInvitation fuel c rnd iv' inv msg s = (inr j, s') ->
  verifyJWS inv None = true
  /\ exists sig e mid backup keys,
       jwk (header inv) = Some sig
       /\ epk (payload inv) = Some e
       /\ messageId (payload inv) = Some mid
       /\ encryptToSelf c (fresh_self_epk rnd) (fresh_self_iv rnd)
            (stringify_jwks P (exportKeyPair (fresh_thread_key rnd)))
          = inr backup
       /\ j = replyEnvelope c (snd keys) (getJWKthumbprint P e)
                (JS.succ (JS.parseInt16 mid))
                (aes_gcm_encrypt P (fst keys) iv' (utf8_encode P msg)) iv'
                true
       /\ s' = snd (appendItem ("messages:" +:+ T) (VJWS j)
                      (<["message-id:" +:+ T :=
                           VString (JS.toString16
                                      (JS.succ (JS.parseInt16 mid)))]>
                         (threadStarted c inv (Some e) sig (Some mid) T
                            (<["encrypted-thread-key:" +:+ T :=
                                 VJWS backup]> s)))).
Proof.
  intros T HT H. unfold replyToInvitation in H.
  apply bind_ok in H as ([] & s1 & H1 & H). apply invariant_ok in H1 as [Hv ->].
  apply bind_ok in H as (invite & s1 & H1 & H). apply lift_ok in H1 as [Hp ->].
  apply parseJWS_same in Hp as ->.
  apply bind_ok in H as (my & s1 & Hstart & H).
  apply startThread_ok in Hstart
    as (sig & s0 & Hsig & _ & -> & -> & backup & Henc & ->).
  cbn [exportKeyPair snd] in *. fold T in H |- *.
  apply replyToThread_ok in H
    as (keys & current & re' & buf & _ & Hcur & _ & Hre & -> & _ & _ & Hs').
  destruct (Hs' HT) as [_ ->]. clear Hs'.
  rewrite threadStarted_id in Hcur.
  rewrite threadStarted_info in Hre. cbn [infoField theirEPK] in Hre.
  destruct (messageId (payload inv)) as [mid|] eqn:Hmid; [|discriminate].
  injection Hcur as <-.
  destruct (epk (payload inv)) as [e|] eqn:He; [|discriminate].
  injection Hre as <-.
  split; [exact Hv|]. exists sig, e, mid, backup, keys.
  repeat (split; [first [assumption|reflexivity]|]). reflexivity.
Qed.

(** X4.  [replyToInvitation] refuses, before it generates or writes
    anything, an invitation that does not verify against the key it
    embeds - in particular one that embeds no key.  When it returns,
    with [T] the thumbprint of the freshly generated thread key, the
    storage holds: under [thread-info:T] the thread with the
    invitation's [epk] as the peer's key, the invitation and the
    invitation's embedded key as the peer's signature key; that key
    again under [public-key:<its thumbprint>]; under
    [encrypted-thread-key:T] a backup that [decryptFromSelf] opens to
    the thread key's JSON; [T] at the end of the client's thread list;
    and, at the end of [messages:T], the invitation followed by the
    reply. *)
Theorem replyToInvitation_effects (fuel : nat) (c : Client P)
    (rnd : Entropy P) (iv' : list byte) (inv : JWS P) (msg : string)
    (s : gmap string (Value P)) :
  let T :=
    getJWKthumbprint P (exportPublic P (publicKey (fresh_thread_key rnd))) in
  T <> "" ->
  (verifyJWS inv None = false ->
   replyToInvitation fuel c rnd iv' inv msg s
   = (inl InvalidInvitationSignature, s))
  /\ (jwk (header inv) = None ->
      replyToInvitation fuel c rnd iv' inv msg s
      = (inl InvalidInvitationSignature, s))
  /\ (forall j s',
        replyToInvitation fuel c rnd iv' inv msg s = (inr j, s') ->
        verifyJWS inv None = true
        /\ exists sig e,
             jwk (header inv) = Some sig
             /\ epk (payload inv) = Some e
             /\ s' !! ("thread-info:" +:+ T)
                = Some (VThreadInfo (mkThreadInfo T (Some e) inv (Some sig)))
             /\ s' !! ("public-key:" +:+ getJWKthumbprint P sig)
                = Some (VJWK sig)
             /\ (exists backup,
                   s' !! ("encrypted-thread-key:" +:+ T) = Some (VJWS backup)
                   /\ decryptFromSelf c backup
                      = inr (stringify_jwks P
                               (exportKeyPair (fresh_thread_key rnd))))
             /\ s' !! ("threads:" +:+ thumbprint c)
                = Some (VList (listAt s ("threads:" +:+ thumbprint c)
                               ++ [VString T]))
             /\ s' !! ("messages:" +:+ T)
                = Some (VList (listAt s ("messages:" +:+ T)
                               ++ [VJWS inv; VJWS j]))).
Proof.
  intros T HT.
  assert (Hrej : verifyJWS inv None = false ->
                 replyToInvitation fuel c rnd iv' inv msg s
                 = (inl InvalidInvitationSignature, s)).
  { intros Hv. unfold replyToInvitation. rewrite Hv. reflexivity. }
  split; [exact Hrej|]. split.
  { intros Hjwk. apply Hrej, verifyJWS_bare, Hjwk. }
  intros j s' H.
  apply replyToInvitation_ok in H
    as (Hv & sig & e & mid & backup & keys & Hsig & He & Hmid & Henc & -> & ->);
    [|exact HT].
  fold T. split; [exact Hv|]. exists sig, e.
  split; [exact Hsig|]. split; [exact He|].
  split; [|split; [|split; [|split]]].
  - rewrite appendItem_lookup_ne by distinct_keys.
    rewrite lookup_insert_ne by distinct_keys.
    apply threadStarted_info.
  - rewrite appendItem_lookup_ne by distinct_keys.
    rewrite lookup_insert_ne by distinct_keys.
    apply threadStarted_signer.
  - exists backup. split; [|eapply encryptToSelf_ok, Henc].
    rewrite appendItem_lookup_ne by distinct_keys.
    rewrite lookup_insert_ne by distinct_keys.
    rewrite threadStarted_backup. apply lookup_insert_eq.
  - rewrite appendItem_lookup_ne by distinct_keys.
    rewrite lookup_insert_ne by distinct_keys.
    rewrite threadStarted_threads.
    rewrite listAt_insert_ne by distinct_keys. reflexivity.
  - rewrite appendItem_lookup_eq.
    rewrite listAt_insert_ne by distinct_keys.
    unfold listAt at 1. rewrite threadStarted_messages.
    rewrite listAt_insert_ne by distinct_keys.
    rewrite <- app_assoc. reflexivity.
Qed.

(** X5.  The reply [replyToInvitation] returns is addressed to the
    thumbprint of the invitation's [epk] and numbered one above the
    invitation, in hex; the same id is left under [message-id:T].  So
    when the invitation's id is an integer [n] with
    [0 <= n < 2^53 - 1] the reply's id parses to [n + 1] and passes the
    comparison the inviter's [appendThread] makes (line 460). *)
Theorem first_reply_is_numbered_after_invitation (fuel : nat)
    (c : Client P) (rnd : Entropy P) (iv' : list byte) (inv : JWS P)
    (msg : string) (s s' : gmap string (Value P)) (j : JWS P) :
  let T :=
    getJWKthumbprint P (exportPublic P (publicKey (fresh_thread_key rnd))) in
  T <> "" ->
  replyToInvitation fuel c rnd iv' inv msg s = (inr j, s') ->
  exists e mid,
    epk (payload inv) = Some e
    /\ messageId (payload inv) = Some mid
    /\ re (payload j) = Some (getJWKthumbprint P e)
    /\ messageId (payload j)
       = Some (JS.toString16 (JS.succ (JS.parseInt16 mid)))
    /\ s' !! ("message-id:" +:+ T)
       = Some (VString (JS.toString16 (JS.succ (JS.parseInt16 mid))))
    /\ forall n,
         JS.parseInt16 mid = JS.Num n ->
         (0 <= n < 2 ^ 53 - 1)%Z ->
         JS.parseInt16_opt (messageId (payload j)) = JS.Num (n + 1)
         /\ JS.strict_eq (JS.parseInt16_opt (messageId (payload j)))
              (JS.succ (JS.parseInt16_opt (messageId (payload inv))))
            = true.
Proof.
  intros T HT H.
  apply replyToInvitation_ok in H
    as (Hv & sig & e & mid & backup & keys & Hsig & He & Hmid & Henc & -> & ->);
    [|exact HT].
  fold T. exists e, mid.
  split; [exact He|]. split; [exact Hmid|].
  split; [reflexivity|]. split; [reflexivity|]. split.
  - rewrite appendItem_lookup_ne by distinct_keys. apply lookup_insert_eq.
  - intros n Hn Hrange.
    assert (Hid : JS.parseInt16_opt
                    (messageId
                       (payload
                          (replyEnvelope c (snd keys) (getJWKthumbprint P e)
                             (JS.succ (JS.parseInt16 mid))
                             (aes_gcm_encrypt P (fst keys) iv'
                                (utf8_encode P msg)) iv' true)))
                  = JS.Num (n + 1)).
    { cbn [replyEnvelope signJWS payload messageId JS.parseInt16_opt].
      rewrite Hn, succ_small by exact Hrange.
      apply parseInt16_toString16. lia. }
    split; [exact Hid|].
    rewrite Hid, Hmid. cbn [JS.parseInt16_opt]. rewrite Hn.
    by apply strict_eq_succ.
Qed.

(** *** The inviter's side: a first reply arrives *)

Lemma appendThread_first_run (fuel : nat) (c : Client P) (rnd : Entropy P)
    (m inv : JWS P) (s : gmap string (Value P)) (signer e ei : JWK P) :
  jwk (header m) = Some signer ->
  epk (payload m) = Some e ->
  s !! ("invitation:" +:+ tmpl (re (payload m))) = Some (VJWS inv) ->
  parseJWS inv KeyOmitted = inr inv ->
  JS.strict_eq (JS.parseInt16_opt (messageId (payload m)))
    (JS.succ (JS.parseInt16_opt (messageId (payload inv)))) = true ->
  epk (payload inv) = Some ei ->
  getJWKthumbprint P ei <> "" ->
  truthy (s !! ("encrypted-thread-key:" +:+ getJWKthumbprint P ei)) = true ->
  appendThread (S fuel) c rnd m None s
  = appendThreadKnown c m (getJWKthumbprint P ei)
      (threadStarted c inv (Some e) signer (messageId (payload m))
         (getJWKthumbprint P ei) s).
Proof.
  intros Hjwk Hepk Hinv Hparse Hids Hei Hne Hkey.
  cbn [appendThread nonempty].
  change (parseJWS m KeyNull) with (@inr Error _ m).
  rewrite bind_lift_inr, Hjwk, Hepk.
  rewrite bool_decide_eq_true_2 by eauto.
  rewrite bind_invariant_true, bind_getItem, Hinv.
  cbn [truthy from_option id asJWS].
  rewrite bind_invariant_true, bind_lift_inr, Hparse, bind_lift_inr, Hids.
  rewrite bind_invariant_true, Hei. cbn [thumbprintOf].
  rewrite bind_lift_inr.
  erewrite bind_run; [reflexivity|].
  apply startThread_given; assumption.
Qed.

Lemma appendThread_first_ok (fuel : nat) (c : Client P) (rnd : Entropy P)
    (m : JWS P) (s s' : gmap string (Value P)) (signer : JWK P) r :
  jwk (header m) = Some signer ->
  appendThread (S fuel) c rnd m None s = (inr r, s') ->
  exists inv e ei my s1,
    s !! ("invitation:" +:+ tmpl (re (payload m))) = Some (VJWS inv)
    /\ parseJWS inv KeyOmitted = inr inv
    /\ epk (payload m) = Some e
    /\ epk (payload inv) = Some ei
    /\ JS.strict_eq (JS.parseInt16_opt (messageId (payload m)))
         (JS.succ (JS.parseInt16_opt (messageId (payload inv)))) = true
    /\ startThread c rnd inv (Some e) (Some signer) (messageId (payload m))
         (Some (getJWKthumbprint P ei)) s = (inr my, s1)
    /\ appendThreadKnown c m my s1 = (inr r, s').
Proof.
  intros Hjwk H. cbn [appendThread nonempty] in H.
  change (parseJWS m KeyNull) with (@inr Error _ m) in H.
  rewrite bind_lift_inr, Hjwk in H.
  apply bind_ok in H as ([] & s1 & H1 & H). apply invariant_ok in H1 as [He ->].
  apply bool_decide_eq_true_1 in He as [e He].
  apply bind_ok in H as (invitation & s1 & H1 & H).
  apply getItem_ok in H1 as [-> ->].
  apply bind_ok in H as ([] & s1 & H1 & H). apply invariant_ok in H1 as [_ ->].
  apply bind_ok in H as (stored & s1 & H1 & H). apply lift_ok in H1 as [Hst ->].
  destruct (s !! ("invitation:" +:+ tmpl (re (payload m))))
    as [[| |inv| | |]|] eqn:Hinv; try discriminate.
  cbn [from_option id asJWS] in Hst. injection Hst as <-.
  apply bind_ok in H as (inv' & s1 & H1 & H). apply lift_ok in H1 as [Hp ->].
  pose proof (parseJWS_same _ _ _ Hp) as ->.
  apply bind_ok in H as ([] & s1 & H1 & H). apply invariant_ok in H1 as [Hids ->].
  apply bind_ok in H as (tp & s1 & H1 & H). apply lift_ok in H1 as [Htp ->].
  destruct (epk (payload inv)) as [ei|] eqn:Hei; [|discriminate].
  injection Htp as <-.
  apply bind_ok in H as (my & s1 & Hstart & H).
  rewrite He in Hstart.
  exists inv, e, ei, my, s1. auto 10.
Qed.

(** X6.  When [appendThread], called without a thread thumbprint on a
    message that embeds a key, returns, then: the invitation stored
    under the message's [re] passed [parseJWS], the message carries an
    [epk] and an id that passed the sequence check, and the message
    verifies against the key it embeds.  The thread it reports is the
    thumbprint of the invitation's [epk] (taken non-empty), and the
    storage holds under that thumbprint the thread-info (peer key = the
    message's [epk], peer signature key = the message's embedded key,
    the stored invitation), the message's id as the thread's id, the
    thumbprint at the end of the client's thread list, and the
    invitation followed by the message at the end of the log. *)
Theorem first_reply_starts_thread (fuel : nat) (c : Client P)
    (rnd : Entropy P) (m inv : JWS P) (s s' : gmap string (Value P))
    (signer ei : JWK P) (T text : string) :
  jwk (header m) = Some signer ->
  s !! ("invitation:" +:+ tmpl (re (payload m))) = Some (VJWS inv) ->
  epk (payload inv) = Some ei ->
  getJWKthumbprint P ei <> "" ->
  appendThread (S fuel) c rnd m None s = (inr (T, text), s') ->
  T = getJWKthumbprint P ei
  /\ verifyJWS m None = true
  /\ parseJWS inv KeyOmitted = inr inv
  /\ exists e mid,
       epk (payload m) = Some e
       /\ messageId (payload m) = Some mid
       /\ JS.strict_eq (JS.parseInt16 mid)
            (JS.succ (JS.parseInt16_opt (messageId (payload inv)))) = true
       /\ s' !! ("thread-info:" +:+ T)
          = Some (VThreadInfo (mkThreadInfo T (Some e) inv (Some signer)))
       /\ s' !! ("message-id:" +:+ T) = Some (VString mid)
       /\ s' !! ("threads:" +:+ thumbprint c)
          = Some (VList (listAt s ("threads:" +:+ thumbprint c)
                         ++ [VString T]))
       /\ s' !! ("messages:" +:+ T)
          = Some (VList (listAt s ("messages:" +:+ T)
                         ++ [VJWS inv; VJWS m])).
Proof.
  intros Hjwk Hinv Hei Hne H.
  apply (appendThread_first_ok _ _ _ _ _ _ _ _ Hjwk) in H
    as (inv' & e & ei' & my & s1 & Hinv' & Hp & He & Hei' & Hids & Hstart & H).
  rewrite Hinv in Hinv'. injection Hinv' as <-.
  rewrite Hei in Hei'. injection Hei' as <-.
  apply startThread_ok in Hstart as (k & s0 & Hk & _ & -> & Hmode).
  injection Hk as <-.
  rewrite (nonempty_Some _ Hne) in Hmode. destruct Hmode as [Hmy ->].
  injection Hmy as <-.
  apply appendThreadKnown_ok in H as (_ & Hv & HT & ->).
  cbn [fst] in HT. subst T.
  destruct (strict_eq_defined _ _ Hids) as [mid Hmid].
  rewrite Hmid in Hids. cbn [JS.parseInt16_opt] in Hids.
  rewrite (verifyAppended_embedded _ _ _ _ Hjwk) in Hv.
  split; [reflexivity|].
  split; [destruct (verifyJWS m None); [reflexivity|discriminate]|].
  split; [exact Hp|]. exists e, mid. rewrite Hmid.
  split; [exact He|]. split; [reflexivity|]. split; [exact Hids|].
  split; [|split; [|split]].
  - rewrite appendItem_lookup_ne by distinct_keys.
    apply threadStarted_info.
  - rewrite appendItem_lookup_ne by distinct_keys.
    rewrite threadStarted_id. reflexivity.
  - rewrite appendItem_lookup_ne by distinct_keys.
    apply threadStarted_threads.
  - rewrite appendItem_lookup_eq.
    unfold listAt at 1. rewrite threadStarted_messages.
    rewrite <- app_assoc. reflexivity.
Qed.

(** X7.  The thread is started before the first reply's signature is
    looked at.  A message that embeds a key, carries an [epk], answers
    a stored invitation with the next id - and does not verify against
    the key it embeds - makes [appendThread] fail with "Unable to
    determine public key"; but the storage by then holds the thread:
    thread-info with the message's [epk] and embedded key, the
    message's id as the thread's id, the invitation in the log.  Only
    the message itself is not logged. *)
Theorem first_reply_is_committed_before_it_is_verified (fuel : nat)
    (c : Client P) (rnd : Entropy P) (m inv : JWS P)
    (s : gmap string (Value P)) (signer e ei : JWK P) :
  jwk (header m) = Some signer ->
  epk (payload m) = Some e ->
  s !! ("invitation:" +:+ tmpl (re (payload m))) = Some (VJWS inv) ->
  parseJWS inv KeyOmitted = inr inv ->
  JS.strict_eq (JS.parseInt16_opt (messageId (payload m)))
    (JS.succ (JS.parseInt16_opt (messageId (payload inv)))) = true ->
  epk (payload inv) = Some ei ->
  let T := getJWKthumbprint P ei in
  T <> "" ->
  truthy (s !! ("encrypted-thread-key:" +:+ T)) = true ->
  verifyJWS m None = false ->
  exists s',
    appendThread (S fuel) c rnd m None s = (inl UnverifiedSigner, s')
    /\ s' !! ("thread-info:" +:+ T)
       = Some (VThreadInfo (mkThreadInfo T (Some e) inv (Some signer)))
    /\ s' !! ("message-id:" +:+ T)
       = Some (match messageId (payload m) with
               | Some mid => VString mid
               | None => VUndefined
               end)
    /\ s' !! ("messages:" +:+ T)
       = Some (VList (listAt s ("messages:" +:+ T) ++ [VJWS inv])).
Proof.
  intros Hjwk Hepk Hinv Hparse Hids Hei T Hne Hkey Hv.
  eexists. split; [|split; [|split]].
  - rewrite (appendThread_first_run _ _ _ _ _ _ _ _ _ Hjwk Hepk Hinv Hparse
               Hids Hei Hne Hkey).
    apply appendThreadKnown_verify_fail.
    + fold T. rewrite threadStarted_info. reflexivity.
    + rewrite (verifyAppended_embedded _ _ _ _ Hjwk), Hv. reflexivity.
  - apply threadStarted_info.
  - apply threadStarted_id.
  - apply threadStarted_messages.
Qed.

End HandshakeTheorems.

(** ** Known threads *)

Section KnownThreadTheorems.

Context {P : Platform}.

Lemma appendItem_insert k v (s : gmap string (Value P)) :
  snd (appendItem k v s) = <[k := VList (listAt s k ++ [v])]> s.
Proof.
  unfold appendItem, listAt. cbn [snd].
  destruct (s !! k) as [[]|]; reflexivity.
Qed.

Lemma readThreadSecret_same (c : Client P) (T : string)
    (s : gmap string (Value P)) :
  readThreadSecret c T s = (fst (readThreadSecret c T s), s).
Proof.
  pose proof (readThreadSecret_readonly c T s) as H.
  destruct (readThreadSecret c T s) as [r s1]. cbn in *. congruence.
Qed.

(** [appendThreadKnown] decides on thread-info and key-backup entries
    only. *)
Lemma appendThreadKnown_frame (c : Client P) (m : JWS P) (T k : string)
    (v : Value P) (s : gmap string (Value P)) :
  (forall x, k <> "thread-info:" +:+ x) ->
  (forall x, k <> "encrypted-thread-key:" +:+ x) ->
  fst (appendThreadKnown c m T (<[k := v]> s))
  = fst (appendThreadKnown c m T s).
Proof.
  intros Hinfo Hkey.
  pose proof (readThreadSecret_frame c T k v s Hinfo Hkey) as Hf.
  unfold appendThreadKnown.
  change (parseJWS m KeyNull) with (@inr Error _ m).
  rewrite !bind_getItem, !bind_lift_inr.
  rewrite lookup_insert_ne by apply Hinfo.
  destruct (truthy (s !! ("thread-info:" +:+ T))); [|reflexivity].
  rewrite !bind_invariant_true.
  destruct (verifyAppended _ _ _ _) as [e|[]]; [reflexivity|].
  rewrite !bind_lift_inr.
  unfold bind.
  rewrite (readThreadSecret_same c T s).
  rewrite (readThreadSecret_same c T (<[k:=v]> s)), Hf.
  destruct (fst (readThreadSecret c T s)) as [e|keys]; [reflexivity|].
  unfold lift.
  destruct (orThrow (Buffer_from _) _) as [e|iv']; [reflexivity|].
  destruct (orThrow (decryptText _ _ _) _) as [e|buf]; reflexivity.
Qed.

(** X8.  [appendThread] with a thread thumbprint writes to nothing
    but that thread's log: every other key reads the same afterwards,
    whatever the outcome.  When the call fails the storage is unchanged;
    when it returns, it reports the thread it was given and the log has
    grown by exactly the ingested envelope, at the end. *)
Theorem appendThread_known_writes_only_the_log (fuel : nat) (c : Client P)
    (rnd : Entropy P) (m : JWS P) (T : string)
    (s s' : gmap string (Value P)) r :
  T <> "" ->
  appendThread (S fuel) c rnd m (Some T) s = (r, s') ->
  (forall key, key <> "messages:" +:+ T -> s' !! key = s !! key)
  /\ match r with
     | inl _ => s' = s
     | inr out =>
         fst out = T
         /\ s' !! ("messages:" +:+ T)
            = Some (VList (listAt s ("messages:" +:+ T) ++ [VJWS m]))
     end.
Proof.
  intros HT H. rewrite appendThread_known in H by exact HT.
  destruct r as [e|out].
  - apply appendThreadKnown_clean in H as ->. auto.
  - apply appendThreadKnown_ok in H as (_ & _ & Hout & ->).
    split; [|split; [exact Hout|apply appendItem_lookup_eq]].
    intros key Hkey. apply appendItem_lookup_ne. congruence.
Qed.

(** X9.  Ingesting is repeatable and not deduplicated: when
    [appendThread] with a thread thumbprint has returned, the same call
    on the resulting storage returns the same thread and text again,
    and the log then ends with the envelope twice; every other key
    still reads as before the first call. *)
Theorem appendThread_known_twice (fuel : nat) (c : Client P)
    (rnd : Entropy P) (m : JWS P) (T : string)
    (s s1 : gmap string (Value P)) out :
  T <> "" ->
  appendThread (S fuel) c rnd m (Some T) s = (inr out, s1) ->
  exists s2,
    appendThread (S fuel) c rnd m (Some T) s1 = (inr out, s2)
    /\ s2 !! ("messages:" +:+ T)
       = Some (VList (listAt s ("messages:" +:+ T) ++ [VJWS m; VJWS m]))
    /\ forall key, key <> "messages:" +:+ T -> s2 !! key = s !! key.
Proof.
  intros HT H. rewrite !appendThread_known in * by exact HT.
  pose proof H as H0.
  apply appendThreadKnown_ok in H as (_ & _ & _ & ->).
  rewrite appendItem_insert.
  set (s1 := <["messages:" +:+ T :=
                 VList (listAt s ("messages:" +:+ T) ++ [VJWS m])]> s).
  pose proof (appendThreadKnown_frame c m T ("messages:" +:+ T)
                (VList (listAt s ("messages:" +:+ T) ++ [VJWS m])) s
                (fun x => messages_vs_info T x)
                (fun x => messages_vs_backup T x)) as Hf.
  rewrite H0 in Hf. cbn [fst] in Hf. fold s1 in Hf.
  destruct (appendThreadKnown c m T s1) as [r s2] eqn:H2.
  cbn [fst] in Hf. subst r.
  exists s2. split; [reflexivity|].
  apply appendThreadKnown_ok in H2 as (_ & _ & _ & ->).
  split.
  - rewrite appendItem_lookup_eq. unfold listAt at 1, s1.
    rewrite lookup_insert_eq, <- app_assoc. reflexivity.
  - intros key Hkey. rewrite appendItem_lookup_ne by congruence.
    unfold s1. rewrite lookup_insert_ne by congruence. reflexivity.
Qed.

Lemma readThreadSecret_error_kinds (c : Client P) (T : string)
    (s s' : gmap string (Value P)) e :
  readThreadSecret c T s = (inl e, s') ->
  (e = ThreadNotFound /\ truthy (s !! ("thread-info:" +:+ T)) = false)
  \/ (e = PublicKeyNotFound
      /\ infoField theirEPK (s !! ("thread-info:" +:+ T)) = None)
  \/ e = ThreadKeyNotFound \/ e = PlatformError
  \/ e = JWSVerificationFailed.
Proof.
  intros H. unfold readThreadSecret in H.
  apply bind_err in H as [H|(ti & s1 & H1 & H)]; [discriminate H|].
  apply getItem_ok in H1 as [-> ->].
  apply bind_err in H as [H|(? & ? & _ & H)].
  { apply invariant_err in H as [-> Ht]. auto. }
  apply bind_err in H as [H|(? & ? & _ & H)].
  { apply invariant_err in H as [-> Ht]. right. left. split; [reflexivity|].
    destruct (infoField theirEPK _); [|reflexivity].
    rewrite bool_decide_eq_true_2 in Ht by eauto. discriminate. }
  do 2 right.
  apply bind_err in H as [H|(? & ? & _ & H)].
  { apply lift_err in H. unfold importKey in H.
    repeat case_match; simplify_eq; auto.
    apply orThrow_err in H as ->. auto. }
  apply bind_err in H as [H|(? & ? & _ & H)]; [discriminate H|].
  apply bind_err in H as [H|(? & ? & _ & H)].
  { apply lift_err in H. repeat case_match; simplify_eq; auto. }
  apply bind_err in H as [H|(? & ? & _ & H)].
  { apply lift_err in H. apply decryptFromSelf_errors in H as [->| ->]; auto. }
  apply bind_err in H as [H|(? & ? & _ & H)].
  { apply lift_err, orThrow_err in H as ->. auto. }
  apply bind_err in H as [H|(? & ? & _ & H)].
  { apply lift_err, orThrow_err in H as ->. auto. }
  discriminate H.
Qed.

(** X10.  A failed [replyToThread] changes at most the thread's stored
    id.  Either it failed before the id was written - the thread's
    secret could not be read, or no string is stored under
    [message-id:T] ("Invalid message id") - and the storage is
    unchanged; or it leaves the initial storage with the id advanced by
    one.  In neither case has any log grown.  In particular a thread
    that is not in the storage gives "Thread not found" and no write. *)
Theorem failed_reply_changes_at_most_the_id (fuel : nat) (c : Client P)
    (rnd : Entropy P) (iv' : list byte) (T msg : string) (selfSign : bool)
    (s : gmap string (Value P)) :
  T <> "" ->
  (forall e s',
     replyToThread fuel c rnd iv' T msg selfSign s = (inl e, s') ->
     (s' = s
      \/ exists current,
           s !! ("message-id:" +:+ T) = Some (VString current)
           /\ s' = <["message-id:" +:+ T :=
                       VString (JS.toString16
                                  (JS.succ (JS.parseInt16 current)))]> s)
     /\ forall T', s' !! ("messages:" +:+ T') = s !! ("messages:" +:+ T'))
  /\ (truthy (s !! ("thread-info:" +:+ T)) = false ->
      replyToThread fuel c rnd iv' T msg selfSign s
      = (inl ThreadNotFound, s))
  /\ (forall keys,
        readThreadSecret c T s = (inr keys, s) ->
        (forall current,
           s !! ("message-id:" +:+ T) <> Some (VString current)) ->
        replyToThread fuel c rnd iv' T msg selfSign s
        = (inl InvalidMessageId, s)).
Proof.
  intros HT. split; [|split].
  - intros e s' H.
    assert (Hcases :
              s' = s
              \/ exists current,
                   s !! ("message-id:" +:+ T) = Some (VString current)
                   /\ s' = <["message-id:" +:+ T :=
                               VString (JS.toString16
                                          (JS.succ (JS.parseInt16 current)))]>
                             s).
    { destruct (readThreadSecret c T s) as [[e0|keys] s0] eqn:Hread.
      - left. unfold replyToThread in H.
        rewrite (bind_fail _ _ _ _ _ Hread) in H.
        injection H as _ <-.
        eapply readonly_run; [apply readThreadSecret_readonly|exact Hread].
      - pose proof (readonly_run _ _ _ _ (readThreadSecret_readonly c T) Hread)
          as ->.
        destruct (s !! ("message-id:" +:+ T)) as [v|] eqn:Hcur.
        2:{ left. unfold replyToThread in H.
            rewrite (bind_run _ _ _ _ _ Hread), bind_getItem, Hcur in H.
            injection H as _ <-. reflexivity. }
        destruct v as [| current | | | |];
          try (left; unfold replyToThread in H;
               rewrite (bind_run _ _ _ _ _ Hread), bind_getItem, Hcur in H;
               injection H as _ <-; reflexivity).
        right. exists current. split; [reflexivity|].
        eapply replyToThread_err; eauto. }
    split; [exact Hcases|]. intros T'.
    destruct Hcases as [->|(current & _ & ->)]; [reflexivity|].
    apply lookup_insert_ne, id_vs_messages.
  - intros Ht. unfold replyToThread.
    erewrite bind_fail; [reflexivity|].
    unfold readThreadSecret. rewrite bind_getItem, Ht. reflexivity.
  - intros keys Hread Hcur. unfold replyToThread.
    rewrite (bind_run _ _ _ _ _ Hread), bind_getItem.
    destruct (s !! ("message-id:" +:+ T)) as [[]|]; try reflexivity.
    exfalso. eapply Hcur. reflexivity.
Qed.

(** X11.  [readThreadSecret] never writes, and its failures are these:
    "Thread not found" exactly when nothing truthy is stored under
    [thread-info:T]; "Public key not found" only when the stored thread
    has no peer key; otherwise "Thread key not found" (no backup
    stored), a failed signature check on the backup, or a platform
    error (key import, decryption, JSON). *)
Theorem readThreadSecret_failures (c : Client P) (T : string)
    (s : gmap string (Value P)) :
  snd (readThreadSecret c T s) = s
  /\ (fst (readThreadSecret c T s) = inl ThreadNotFound
      <-> truthy (s !! ("thread-info:" +:+ T)) = false)
  /\ (forall e,
        fst (readThreadSecret c T s) = inl e ->
        (e = ThreadNotFound /\ truthy (s !! ("thread-info:" +:+ T)) = false)
        \/ (e = PublicKeyNotFound
            /\ infoField theirEPK (s !! ("thread-info:" +:+ T)) = None)
        \/ e = ThreadKeyNotFound \/ e = PlatformError
        \/ e = JWSVerificationFailed).
Proof.
  split; [apply readThreadSecret_readonly|].
  assert (Hkinds : forall e,
             fst (readThreadSecret c T s) = inl e ->
             (e = ThreadNotFound
              /\ truthy (s !! ("thread-info:" +:+ T)) = false)
             \/ (e = PublicKeyNotFound
                 /\ infoField theirEPK (s !! ("thread-info:" +:+ T)) = None)
             \/ e = ThreadKeyNotFound \/ e = PlatformError
             \/ e = JWSVerificationFailed).
  { intros e H. apply readThreadSecret_error_kinds with (c := c) (s' := s).
    rewrite readThreadSecret_same, H. reflexivity. }
  split; [|exact Hkinds]. split.
  - intros H. apply Hkinds in H as [[_ H]|[[H _]|[H|[H|H]]]];
      [exact H|discriminate H..].
  - intros Ht. unfold readThreadSecret.
    rewrite bind_getItem, Ht. reflexivity.
Qed.

(** X12.  Both ends of a thread derive the same secret.  If each
    side's thread-info names the other side's thread key as the peer's
    key, and each side's backup opens to its own thread key, then on a
    platform where JSON and key export round-trip and Diffie-Hellman is
    symmetric, [readThreadSecret] returns on both sides, with one and
    the same secret, each with its own thread public key. *)
Theorem thread_secrets_agree (ca cb : Client P) (Ta Tb : string)
    (ta tb : ThreadInfo P) (ka kb : KeyPair P) (ba bb : JWS P)
    (sa sb : gmap string (Value P)) :
  sa !! ("thread-info:" +:+ Ta) = Some (VThreadInfo ta) ->
  theirEPK ta = Some (exportPublic P (publicKey kb)) ->
  sa !! ("encrypted-thread-key:" +:+ myThumbprint ta) = Some (VJWS ba) ->
  decryptFromSelf ca ba = inr (stringify_jwks P (exportKeyPair ka)) ->
  sb !! ("thread-info:" +:+ Tb) = Some (VThreadInfo tb) ->
  theirEPK tb = Some (exportPublic P (publicKey ka)) ->
  sb !! ("encrypted-thread-key:" +:+ myThumbprint tb) = Some (VJWS bb) ->
  decryptFromSelf cb bb = inr (stringify_jwks P (exportKeyPair kb)) ->
  json_roundtrip ka -> json_roundtrip kb ->
  reimports (publicKey ka) -> reimports (publicKey kb) ->
  reimports_private (privateKey ka) -> reimports_private (privateKey kb) ->
  dh_agree ka kb ->
  exists secret,
    readThreadSecret ca Ta sa
    = (inr (secret, exportPublic P (publicKey ka)), sa)
    /\ readThreadSecret cb Tb sb
       = (inr (secret, exportPublic P (publicKey kb)), sb).
Proof.
  intros Hia Hea Hka Hda Hib Heb Hkb Hdb Hja Hjb Hpa Hpb Hra Hrb Hdh.
  exists (deriveSharedSecret P (privateKey ka) (publicKey kb)). split.
  - eapply (readThreadSecret_value ca Ta ta) with (jwks := exportKeyPair ka);
      eassumption.
  - rewrite Hdh.
    eapply (readThreadSecret_value cb Tb tb) with (jwks := exportKeyPair kb);
      eassumption.
Qed.

(** A message without an embedded key is routed by its [re]. *)
Lemma appendThread_routed (fuel : nat) (c : Client P) (rnd : Entropy P)
    (m : JWS P) (T : string) (s : gmap string (Value P)) :
  jwk (header m) = None ->
  re (payload m) = Some T ->
  T <> "" ->
  is_Some (s !! ("thread-info:" +:+ T)) ->
  appendThread (S fuel) c rnd m None s = appendThread fuel c rnd m (Some T) s.
Proof.
  intros Hjwk Hre HT Hinfo. cbn [appendThread nonempty].
  change (parseJWS m KeyNull) with (@inr Error _ m).
  rewrite bind_lift_inr, Hjwk, Hre. cbn [tmpl].
  unfold bind at 1, hasItem at 1.
  rewrite bool_decide_eq_true_2 by exact Hinfo.
  rewrite bind_invariant_true. reflexivity.
Qed.

Lemma verifyAppended_peer (c : Client P) (j : JWS P) (t : ThreadInfo P)
    (r : string) (e sig : JWK P) (pk : PubKey P) :
  jwk (header j) = None ->
  re (payload j) = Some r ->
  r <> "" ->
  myThumbprint t = r ->
  theirEPK t = Some e ->
  getJWKthumbprint P e <> r ->
  theirSignature t = Some sig ->
  importPublic P sig = Some pk ->
  verifyWith pk j = true ->
  verifyAppended c j j (Some (VThreadInfo t)) = inr tt.
Proof.
  intros Hjwk Hre Hr Hmy Hepk Hne Hsig Hpk Hver.
  unfold verifyAppended. rewrite verifyJWS_bare by exact Hjwk.
  unfold selectVerifier. rewrite Hjwk, Hre.
  rewrite bool_decide_eq_false_2 by (intros [x Hx]; discriminate).
  rewrite (nonempty_Some _ Hr). cbn [negb andb infoField].
  rewrite Hmy, same_refl, Hsig. cbn [thumbprintOf importKey bindE].
  rewrite Hpk, Hepk. cbn [orThrow bindE thumbprintOf].
  rewrite same_Some, bool_decide_eq_false_2 by congruence.
  cbn [bindE verifyJWS]. rewrite Hver. reflexivity.
Qed.

(** The receiving side of a reply: an envelope without an embedded key,
    addressed to a thread of this client and signed with the key that
    thread records for the peer, is ingested with or without the
    thread's thumbprint. *)
Lemma appendThread_from_peer (fuel : nat) (c : Client P) (rnd : Entropy P)
    (j : JWS P) (T : string) (t : ThreadInfo P) (e sig : JWK P)
    (pk : PubKey P) (s : gmap string (Value P)) keys (iv' buf : list byte) :
  jwk (header j) = None ->
  re (payload j) = Some T ->
  T <> "" ->
  s !! ("thread-info:" +:+ T) = Some (VThreadInfo t) ->
  myThumbprint t = T ->
  theirEPK t = Some e ->
  getJWKthumbprint P e <> T ->
  theirSignature t = Some sig ->
  importPublic P sig = Some pk ->
  verifyWith pk j = true ->
  readThreadSecret c T s = (inr keys, s) ->
  Buffer_from (iv (payload j)) = Some iv' ->
  decryptText (fst keys) iv' (message (payload j)) = Some buf ->
  appendThread (S fuel) c rnd j (Some T) s
  = (inr (T, utf8_decode P buf),
     snd (appendItem ("messages:" +:+ T) (VJWS j) s))
  /\ appendThread (S (S fuel)) c rnd j None s
     = (inr (T, utf8_decode P buf),
        snd (appendItem ("messages:" +:+ T) (VJWS j) s)).
Proof.
  intros Hjwk Hre HT Hinfo Hmy Hepk Hne Hsig Hpk Hver Hread Hiv Hbuf.
  assert (Hknown : appendThread (S fuel) c rnd j (Some T) s
                   = (inr (T, utf8_decode P buf),
                      snd (appendItem ("messages:" +:+ T) (VJWS j) s))).
  { rewrite appendThread_known by exact HT.
    apply appendThreadKnown_run with (iv' := iv') (v := VThreadInfo t)
                                     (keys := keys); try assumption.
    - reflexivity.
    - eapply verifyAppended_peer; eassumption. }
  split; [exact Hknown|]. rewrite <- Hknown.
  apply appendThread_routed; try assumption. rewrite Hinfo. eauto.
Qed.

(** Lines 484-518 on an envelope addressed to this thread: the recorded
    signature key of the peer is imported, and replaced by the client's
    own identity key when the thread's thumbprint is also the
    thumbprint of the recorded peer key (line 496). *)
Lemma verifyAppended_addressed (c : Client P) (j : JWS P) (t : ThreadInfo P)
    (r : string) (e sig : JWK P) (pk : PubKey P) :
  jwk (header j) = None ->
  re (payload j) = Some r ->
  r <> "" ->
  myThumbprint t = r ->
  theirEPK t = Some e ->
  theirSignature t = Some sig ->
  importPublic P sig = Some pk ->
  verifyAppended c j j (Some (VThreadInfo t))
  = if verifyWith (if bool_decide (r = getJWKthumbprint P e)
                   then publicKey (identityKeyPair c) else pk) j
    then inr tt else inl BadSignature.
Proof.
  intros Hjwk Hre Hr Hmy Hepk Hsig Hpk.
  unfold verifyAppended. rewrite verifyJWS_bare by exact Hjwk.
  unfold selectVerifier. rewrite Hjwk, Hre.
  rewrite bool_decide_eq_false_2 by (intros [x Hx]; discriminate).
  rewrite (nonempty_Some _ Hr). cbn [negb andb infoField].
  rewrite Hmy, same_refl, Hsig. cbn [thumbprintOf importKey bindE].
  rewrite Hpk, Hepk. cbn [orThrow bindE thumbprintOf].
  rewrite same_Some.
  destruct (bool_decide (r = getJWKthumbprint P e));
    cbn [bindE verifyJWS];
    match goal with |- context [verifyWith ?k j] =>
      destruct (verifyWith k j) end; reflexivity.
Qed.

Lemma appendThread_refused (fuel : nat) (c : Client P) (rnd : Entropy P)
    (j : JWS P) (T : string) (v : Value P) (s : gmap string (Value P))
    (e : Error) :
  jwk (header j) = None ->
  re (payload j) = Some T ->
  T <> "" ->
  s !! ("thread-info:" +:+ T) = Some v ->
  truthy (Some v) = true ->
  verifyAppended c j j (Some v) = inl e ->
  appendThread (S fuel) c rnd j (Some T) s = (inl e, s)
  /\ appendThread (S (S fuel)) c rnd j None s = (inl e, s).
Proof.
  intros Hjwk Hre HT Hinfo Ht Hv.
  assert (Hknown : appendThread (S fuel) c rnd j (Some T) s = (inl e, s)).
  { rewrite appendThread_known by exact HT.
    unfold appendThreadKnown, bind, getItem, lift, parseJWS.
    rewrite Hinfo, Ht. unfold invariant, ret. rewrite Hv. reflexivity. }
  split; [exact Hknown|]. rewrite <- Hknown.
  apply appendThread_routed; try assumption. rewrite Hinfo. eauto.
Qed.

(** X13.  When a reply reaches the peer.  Let [replyToThread] (without
    [selfSign]) return an envelope on the sender's side, where the
    sender's thread-info records the peer key [e1], and let [T2] be the
    thumbprint of [e1], not empty.  Let the receiver hold a thread-info
    under [T2] whose [myThumbprint] is [T2], which records a peer key
    [e2] and a peer signature key that imports to the sender's identity
    key; let both sides read their thread secrets, and the secrets be
    equal; let the sender's signatures verify.  Then the envelope is
    addressed to [T2], and the receiver's [appendThread], with that
    thread's thumbprint or with none, has one of two outcomes.  If the
    thumbprint of [e2] is not [T2], or the envelope verifies under the
    receiver's own identity key, the call returns that thread and the
    very text the sender passed in, and adds the envelope at the end of
    the thread's log.  If the thumbprint of [e2] is [T2] - the recorded
    peer key is the thread's own key - and the envelope does not verify
    under the receiver's identity key, the call throws the error of
    lines 512-516 ("expected message addressed to ... to be signed with
    ...", [BadSignature]) and the storage is as before: line 496 has
    replaced the sender's key by the receiver's own. *)
Theorem reply_is_delivered (fuel fuel' : nat) (c1 c2 : Client P)
    (rnd1 rnd2 : Entropy P) (iv' : list byte) (T1 msg : string)
    (s1 s1' s2 : gmap string (Value P)) (j : JWS P)
    (t1 t2 : ThreadInfo P) (e1 e2 sig : JWK P) k1 k2 :
  replyToThread fuel c1 rnd1 iv' T1 msg false s1 = (inr j, s1') ->
  s1 !! ("thread-info:" +:+ T1) = Some (VThreadInfo t1) ->
  theirEPK t1 = Some e1 ->
  let T2 := getJWKthumbprint P e1 in
  T2 <> "" ->
  s2 !! ("thread-info:" +:+ T2) = Some (VThreadInfo t2) ->
  myThumbprint t2 = T2 ->
  theirEPK t2 = Some e2 ->
  theirSignature t2 = Some sig ->
  importPublic P sig = Some (publicKey (identityKeyPair c1)) ->
  signs_for (identityKeyPair c1) ->
  readThreadSecret c1 T1 s1 = (inr k1, s1) ->
  readThreadSecret c2 T2 s2 = (inr k2, s2) ->
  fst k1 = fst k2 ->
  re (payload j) = Some T2
  /\ (getJWKthumbprint P e2 <> T2
      \/ verifyWith (publicKey (identityKeyPair c2)) j = true ->
      appendThread (S fuel') c2 rnd2 j (Some T2) s2
      = (inr (T2, msg), snd (appendItem ("messages:" +:+ T2) (VJWS j) s2))
      /\ appendThread (S (S fuel')) c2 rnd2 j None s2
         = (inr (T2, msg),
            snd (appendItem ("messages:" +:+ T2) (VJWS j) s2)))
  /\ (getJWKthumbprint P e2 = T2 ->
      verifyWith (publicKey (identityKeyPair c2)) j = false ->
      appendThread (S fuel') c2 rnd2 j (Some T2) s2 = (inl BadSignature, s2)
      /\ appendThread (S (S fuel')) c2 rnd2 j None s2
         = (inl BadSignature, s2)).
Proof.
  intros H Hi1 He1 T2 HT2 Hi2 Hmy He2 Hsig Hpk Hsign Hr1 Hr2 Hk.
  apply replyToThread_ok in H
    as (keys & current & re' & buf & Hread & _ & _ & Hre & -> & Hbuf & Hmsg & _).
  rewrite Hr1 in Hread. injection Hread as <-.
  rewrite Hi1 in Hre. cbn [infoField] in Hre. rewrite He1 in Hre.
  injection Hre as <-. fold T2 in Hbuf |- *.
  set (j := replyEnvelope c1 (snd k1) T2 (JS.succ (JS.parseInt16 current))
              (aes_gcm_encrypt P (fst k1) iv' (utf8_encode P msg)) iv' false)
    in *.
  assert (Hjwk : jwk (header j) = None) by reflexivity.
  assert (Hre : re (payload j) = Some T2) by reflexivity.
  assert (Hown : verifyWith (publicKey (identityKeyPair c1)) j = true)
    by apply Hsign.
  pose proof (verifyAppended_addressed c2 j t2 T2 e2 sig _
                Hjwk Hre HT2 Hmy He2 Hsig Hpk) as Hv.
  split; [exact Hre|]. split.
  - intros Hcase. subst msg.
    assert (Hok : verifyAppended c2 j j (Some (VThreadInfo t2)) = inr tt).
    { rewrite Hv. destruct (bool_decide (T2 = getJWKthumbprint P e2)) eqn:Hb.
      - destruct Hcase as [Hne|Hself].
        + apply bool_decide_eq_true_1 in Hb. symmetry in Hb. contradiction.
        + rewrite Hself. reflexivity.
      - rewrite Hown. reflexivity. }
    assert (Hknown : appendThread (S fuel') c2 rnd2 j (Some T2) s2
                     = (inr (T2, utf8_decode P buf),
                        snd (appendItem ("messages:" +:+ T2) (VJWS j) s2))).
    { rewrite appendThread_known by exact HT2.
      apply appendThreadKnown_run with (iv' := iv') (v := VThreadInfo t2)
                                       (keys := k2); try assumption.
      - reflexivity.
      - apply Buffer_from_encode.
      - rewrite <- Hk. exact Hbuf. }
    split; [exact Hknown|]. rewrite <- Hknown.
    apply appendThread_routed; try assumption. rewrite Hi2. eauto.
  - intros Hsame Hself.
    apply appendThread_refused with (v := VThreadInfo t2); try assumption.
    + reflexivity.
    + rewrite Hv, bool_decide_eq_true_2 by (symmetry; exact Hsame).
      rewrite Hself. reflexivity.
Qed.

End KnownThreadTheorems.

(** ** Message ids from call to call *)

Section MessageIds.

Context {P : Platform}.




End MessageIds.

(** ** Whole conversations *)

Section Conversation.

Context {P : Platform}.

Lemma usable_draw_backup (c : Client P) (rnd : Entropy P) :
  honest_identity c -> usable_draw c rnd -> aes_roundtrip (P := P) ->
  exists backup,
    encryptToSelf c (fresh_self_epk rnd) (fresh_self_iv rnd)
      (stringify_jwks P (exportKeyPair (fresh_thread_key rnd)))
    = inr backup.
Proof.
  intros [Hsign Hid] (Hepk & Hdh & _ & _ & _ & Htext & _) Haes.
  by apply encryptToSelf_run.
Qed.

(** The replier's side of the handshake, run forward. *)
Lemma replyToInvitation_run (fuel : nat) (c : Client P) (rnd : Entropy P)
    (iv' : list byte) (inv : JWS P) (msg : string)
    (s : gmap string (Value P)) (sig e : JWK P) (pk : PubKey P)
    (mid : string) (backup : JWS P) :
  verifyJWS inv None = true ->
  jwk (header inv) = Some sig ->
  epk (payload inv) = Some e ->
  importPublic P e = Some pk ->
  messageId (payload inv) = Some mid ->
  encryptToSelf c (fresh_self_epk rnd) (fresh_self_iv rnd)
    (stringify_jwks P (exportKeyPair (fresh_thread_key rnd)))
  = inr backup ->
  json_roundtrip (fresh_thread_key rnd) ->
  reimports_private (privateKey (fresh_thread_key rnd)) ->
  let T :=
    getJWKthumbprint P (exportPublic P (publicKey (fresh_thread_key rnd))) in
  T <> "" ->
  getJWKthumbprint P e <> "" ->
  T <> getJWKthumbprint P e ->
  honest_identity c ->
  aes_roundtrip (P := P) ->
  well_formed_text (P := P) msg ->
  let secret :=
    deriveSharedSecret P (privateKey (fresh_thread_key rnd)) pk in
  let next := JS.succ (JS.parseInt16 mid) in
  let j :=
    replyEnvelope c (exportPublic P (publicKey (fresh_thread_key rnd)))
      (getJWKthumbprint P e) next
      (aes_gcm_encrypt P secret iv' (utf8_encode P msg)) iv' true in
  let s0 :=
    threadStarted c inv (Some e) sig (Some mid) T
      (<["encrypted-thread-key:" +:+ T := VJWS backup]> s) in
  replyToInvitation (S fuel) c rnd iv' inv msg s
  = (inr j,
     snd (appendItem ("messages:" +:+ T) (VJWS j)
            (<["message-id:" +:+ T := VString (JS.toString16 next)]> s0)))
  /\ readThreadSecret c T s0
     = (inr (secret, exportPublic P (publicKey (fresh_thread_key rnd))), s0).
Proof.
  intros Hv Hsig He Hpk Hmid Henc Hjson Hpriv T HT HTe Hne [Hsign Hid]
    Haes Htext secret next j s0.
  assert (Hread : readThreadSecret c T s0
                  = (inr (secret,
                          exportPublic P (publicKey (fresh_thread_key rnd))),
                     s0)).
  { eapply (readThreadSecret_value c T)
      with (jwks := exportKeyPair (fresh_thread_key rnd)).
    - apply threadStarted_info.
    - reflexivity.
    - exact Hpk.
    - cbn [myThumbprint]. unfold s0. rewrite threadStarted_backup.
      apply lookup_insert_eq.
    - eapply encryptToSelf_ok, Henc.
    - exact Hjson.
    - exact Hpriv. }
  split; [|exact Hread].
  unfold replyToInvitation. rewrite Hv, bind_invariant_true.
  rewrite (parseJWS_verified _ Hv), bind_lift_inr, Hsig, He, Hmid.
  erewrite bind_run; [|apply startThread_generated, Henc].
  cbn [exportKeyPair snd]. fold T s0.
  apply (replyToThread_run fuel c rnd iv' T msg true s0
           (secret, exportPublic P (publicKey (fresh_thread_key rnd))) mid
           (mkThreadInfo T (Some e) inv (Some sig)) e);
    try assumption; try reflexivity.
  - unfold s0. rewrite threadStarted_id. reflexivity.
  - apply threadStarted_info.
Qed.

(** The inviter's side of the handshake, run forward. *)
Lemma appendThread_first_delivers (fuel : nat) (c : Client P)
    (rnd : Entropy P) (m inv : JWS P) (s : gmap string (Value P))
    (signer e ei : JWK P) (pk pke : PubKey P) (backup : JWS P)
    (text : string) (jwks : PrivJWK P * JWK P) (priv : PrivKey P)
    (iv' buf : list byte) :
  jwk (header m) = Some signer ->
  importPublic P signer = Some pk ->
  verifyWith pk m = true ->
  epk (payload m) = Some e ->
  importPublic P e = Some pke ->
  s !! ("invitation:" +:+ tmpl (re (payload m))) = Some (VJWS inv) ->
  parseJWS inv KeyOmitted = inr inv ->
  JS.strict_eq (JS.parseInt16_opt (messageId (payload m)))
    (JS.succ (JS.parseInt16_opt (messageId (payload inv)))) = true ->
  epk (payload inv) = Some ei ->
  let T := getJWKthumbprint P ei in
  T <> "" ->
  s !! ("encrypted-thread-key:" +:+ T) = Some (VJWS backup) ->
  decryptFromSelf c backup = inr text ->
  parse_jwks P text = Some jwks ->
  importPrivate P (fst jwks) = Some priv ->
  Buffer_from (iv (payload m)) = Some iv' ->
  decryptText (deriveSharedSecret P priv pke) iv' (message (payload m))
  = Some buf ->
  let s1 := threadStarted c inv (Some e) signer (messageId (payload m)) T s in
  appendThread (S fuel) c rnd m None s
  = (inr (T, utf8_decode P buf),
     snd (appendItem ("messages:" +:+ T) (VJWS m) s1))
  /\ readThreadSecret c T s1
     = (inr (deriveSharedSecret P priv pke, snd jwks), s1).
Proof.
  intros Hjwk Hpk Hver Hepk Hpke Hinv Hparse Hids Hei T HT Hkey Hdec Hjson
    Hpriv Hiv Hbuf s1.
  assert (Hread : readThreadSecret c T s1
                  = (inr (deriveSharedSecret P priv pke, snd jwks), s1)).
  { eapply (readThreadSecret_value c T) with (jwks := jwks).
    - apply threadStarted_info.
    - reflexivity.
    - exact Hpke.
    - cbn [myThumbprint]. unfold s1. rewrite threadStarted_backup.
      exact Hkey.
    - exact Hdec.
    - exact Hjson.
    - exact Hpriv. }
  split; [|exact Hread].
  rewrite (appendThread_first_run _ _ _ _ _ _ _ _ _ Hjwk Hepk Hinv Hparse
             Hids Hei HT) by (fold T; rewrite Hkey; reflexivity).
  fold T s1.
  eapply appendThreadKnown_run with (iv' := iv').
  - apply threadStarted_info.
  - reflexivity.
  - rewrite (verifyAppended_embedded _ _ _ _ Hjwk).
    unfold verifyJWS. rewrite Hjwk, Hpk, Hver. reflexivity.
  - exact Hread.
  - exact Hiv.
  - exact Hbuf.
Qed.

Lemma readThreadSecret_after_append (c : Client P) (T T' : string)
    (v : Value P) (s : gmap string (Value P)) keys :
  readThreadSecret c T s = (inr keys, s) ->
  readThreadSecret c T (snd (appendItem ("messages:" +:+ T') v s))
  = (inr keys, snd (appendItem ("messages:" +:+ T') v s)).
Proof.
  intros H. rewrite appendItem_insert.
  rewrite readThreadSecret_same.
  rewrite (readThreadSecret_frame c T ("messages:" +:+ T') _ s
             (fun x => messages_vs_info T' x)
             (fun x => messages_vs_backup T' x)), H.
  reflexivity.
Qed.

(** The whole handshake, run forward, with every intermediate value
    spelled out. *)
Lemma handshake_run (fuel : nat) (alice bob : Client P)
    (rndA rndB rnd' : Entropy P) (ivB : list byte) (random_id : Z)
    (note' nickname' : option string) (msg : string)
    (sA sB : gmap string (Value P)) (backupA backupB : JWS P) :
  let ka := fresh_thread_key rndA in
  let kb := fresh_thread_key rndB in
  let TA := getJWKthumbprint P (exportPublic P (publicKey ka)) in
  let TB := getJWKthumbprint P (exportPublic P (publicKey kb)) in
  honest_identity alice -> honest_identity bob ->
  usable_draw alice rndA -> usable_draw bob rndB ->
  encryptToSelf alice (fresh_self_epk rndA) (fresh_self_iv rndA)
    (stringify_jwks P (exportKeyPair ka)) = inr backupA ->
  encryptToSelf bob (fresh_self_epk rndB) (fresh_self_iv rndB)
    (stringify_jwks P (exportKeyPair kb)) = inr backupB ->
  dh_agree ka kb ->
  aes_roundtrip (P := P) ->
  well_formed_text (P := P) msg ->
  TA <> TB ->
  (0 <= random_id < 2 ^ 53 - 1)%Z ->
  let idA := exportPublic P (publicKey (identityKeyPair alice)) in
  let idB := exportPublic P (publicKey (identityKeyPair bob)) in
  let secret := deriveSharedSecret P (privateKey kb) (publicKey ka) in
  let I :=
    signJWS (mkHeader "ES384" (Some idA))
      (mkPayload None (Some (JS.toString16 (JS.of_Z random_id))) None None
         (Some (exportPublic P (publicKey ka))) note' nickname')
      (privateKey (identityKeyPair alice)) in
  let sA1 :=
    <["invitation:" +:+ TA := VJWS I]>
      (<["encrypted-thread-key:" +:+ TA := VJWS backupA]> sA) in
  let R :=
    replyEnvelope bob (exportPublic P (publicKey kb)) TA
      (JS.Num (random_id + 1))
      (aes_gcm_encrypt P secret ivB (utf8_encode P msg)) ivB true in
  let sB0 :=
    threadStarted bob I (Some (exportPublic P (publicKey ka))) idA
      (Some (JS.toString16 (JS.Num random_id))) TB
      (<["encrypted-thread-key:" +:+ TB := VJWS backupB]> sB) in
  let sB1 :=
    snd (appendItem ("messages:" +:+ TB) (VJWS R)
           (<["message-id:" +:+ TB :=
                VString (JS.toString16 (JS.Num (random_id + 1)))]> sB0)) in
  let sA1' :=
    threadStarted alice I (Some (exportPublic P (publicKey kb))) idB
      (Some (JS.toString16 (JS.Num (random_id + 1)))) TA sA1 in
  let sA2 := snd (appendItem ("messages:" +:+ TA) (VJWS R) sA1') in
  createInvitation alice rndA random_id note' nickname' sA = (inr I, sA1)
  /\ replyToInvitation (S fuel) bob rndB ivB I msg sB = (inr R, sB1)
  /\ appendThread (S fuel) alice rnd' R None sA1 = (inr (TA, msg), sA2)
  /\ readThreadSecret alice TA sA2
     = (inr (secret, exportPublic P (publicKey ka)), sA2)
  /\ readThreadSecret bob TB sB1
     = (inr (secret, exportPublic P (publicKey kb)), sB1).
Proof.
  intros ka kb TA TB HidA HidB HdrawA HdrawB HencA HencB Hdh Haes Htext Hne
    Hrange idA idB secret I sA1 R sB0 sB1 sA1' sA2.
  destruct HdrawA as (_ & _ & HpubA & HprivA & HjsonA & _ & HTA).
  destruct HdrawB as (_ & _ & HpubB & HprivB & HjsonB & _ & HTB).
  fold ka TA in HpubA, HprivA, HjsonA, HTA.
  fold kb TB in HpubB, HprivB, HjsonB, HTB.
  assert (HofZ : JS.of_Z random_id = JS.Num random_id)
    by (apply of_Z_small; lia).
  assert (HvI : verifyJWS I None = true).
  { destruct HidA as [Hs Hr]. by apply verifyJWS_own. }
  assert (Hparse : JS.parseInt16 (JS.toString16 (JS.Num random_id))
                   = JS.Num random_id)
    by (apply parseInt16_toString16; lia).
  assert (Hnext : JS.succ (JS.parseInt16 (JS.toString16 (JS.Num random_id)))
                  = JS.Num (random_id + 1))
    by (rewrite Hparse; apply succ_small; lia).
  (* Alice invites *)
  assert (H1 : createInvitation alice rndA random_id note' nickname' sA
               = (inr I, sA1))
    by apply createInvitation_run, HencA.
  (* Bob replies *)
  destruct (replyToInvitation_run fuel bob rndB ivB I msg sB idA
              (exportPublic P (publicKey ka)) (publicKey ka)
              (JS.toString16 (JS.Num random_id)) backupB)
    as [H2 HreadB]; try assumption; try reflexivity.
  { cbn [I signJWS payload messageId]. rewrite HofZ. reflexivity. }
  { intros E. apply Hne. symmetry. exact E. }
  cbv zeta in H2, HreadB. fold kb TB TA secret in H2, HreadB.
  rewrite Hnext in H2. fold R sB0 in H2, HreadB. fold sB1 in H2.
  (* Alice ingests the reply *)
  destruct (appendThread_first_delivers fuel alice rnd' R I sA1 idB
              (exportPublic P (publicKey kb))
              (exportPublic P (publicKey ka))
              (publicKey (identityKeyPair bob)) (publicKey kb) backupA
              (stringify_jwks P (exportKeyPair ka)) (exportKeyPair ka)
              (privateKey ka) ivB (utf8_encode P msg))
    as [H3 HreadA]; try reflexivity.
  { apply HidB. }
  { apply HidB. }
  { exact HpubB. }
  { apply lookup_insert_eq. }
  { apply parseJWS_verified, HvI. }
  { cbn [R I replyEnvelope signJWS payload messageId JS.parseInt16_opt].
    rewrite HofZ, Hparse.
    apply strict_eq_succ; [exact Hrange|].
    apply parseInt16_toString16. lia. }
  { exact HTA. }
  { unfold sA1. rewrite lookup_insert_ne by distinct_keys.
    apply lookup_insert_eq. }
  { eapply encryptToSelf_ok, HencA. }
  { exact HjsonA. }
  { exact HprivA. }
  { apply Buffer_from_encode. }
  { cbn [R replyEnvelope signJWS payload message].
    fold ka kb. rewrite Hdh. apply decryptText_encrypted, Haes. }
  cbv zeta in H3, HreadA.
  cbn [I signJWS payload epk] in H3, HreadA. fold ka TA in H3, HreadA.
  rewrite Htext in H3.
  change (messageId (payload R))
    with (Some (JS.toString16 (JS.Num (random_id + 1)))) in H3, HreadA.
  fold I sA1' in H3, HreadA. fold sA2 in H3.
  cbn [exportKeyPair snd] in HreadA. fold ka kb in HreadA.
  rewrite Hdh in HreadA. fold secret in HreadA.
  split; [exact H1|]. split; [exact H2|]. split; [exact H3|]. split.
  - apply readThreadSecret_after_append, HreadA.
  - apply readThreadSecret_after_append, readThreadSecret_after_id, HreadB.
Qed.

(** What the handshake leaves on both sides. *)
Lemma handshake_facts (fuel : nat) (alice bob : Client P)
    (rndA rndB rnd' : Entropy P) (ivB : list byte) (random_id : Z)
    (note' nickname' : option string) (msg : string)
    (sA sB : gmap string (Value P)) :
  let ka := fresh_thread_key rndA in
  let kb := fresh_thread_key rndB in
  let TA := getJWKthumbprint P (exportPublic P (publicKey ka)) in
  let TB := getJWKthumbprint P (exportPublic P (publicKey kb)) in
  honest_identity alice -> honest_identity bob ->
  usable_draw alice rndA -> usable_draw bob rndB ->
  dh_agree ka kb ->
  aes_roundtrip (P := P) ->
  well_formed_text (P := P) msg ->
  TA <> TB ->
  (0 <= random_id < 2 ^ 53 - 1)%Z ->
  exists I R sA1 sB1 sA2 secret,
    createInvitation alice rndA random_id note' nickname' sA = (inr I, sA1)
    /\ epk (payload I) = Some (exportPublic P (publicKey ka))
    /\ replyToInvitation (S fuel) bob rndB ivB I msg sB = (inr R, sB1)
    /\ appendThread (S fuel) alice rnd' R None sA1 = (inr (TA, msg), sA2)
    /\ readThreadSecret alice TA sA2
       = (inr (secret, exportPublic P (publicKey ka)), sA2)
    /\ readThreadSecret bob TB sB1
       = (inr (secret, exportPublic P (publicKey kb)), sB1)
    /\ sA2 !! ("thread-info:" +:+ TA)
       = Some (VThreadInfo
                 (mkThreadInfo TA (Some (exportPublic P (publicKey kb))) I
                    (Some (exportPublic P (publicKey (identityKeyPair bob))))))
    /\ sB1 !! ("thread-info:" +:+ TB)
       = Some (VThreadInfo
                 (mkThreadInfo TB (Some (exportPublic P (publicKey ka))) I
                    (Some (exportPublic P
                             (publicKey (identityKeyPair alice))))))
    /\ sA2 !! ("message-id:" +:+ TA)
       = Some (VString (JS.toString16 (JS.Num (random_id + 1))))
    /\ sB1 !! ("message-id:" +:+ TB)
       = Some (VString (JS.toString16 (JS.Num (random_id + 1)))).
Proof.
  intros ka kb TA TB HidA HidB HdrawA HdrawB Hdh Haes Htext Hne Hrange.
  destruct (usable_draw_backup alice rndA HidA HdrawA Haes) as [backupA HencA].
  destruct (usable_draw_backup bob rndB HidB HdrawB Haes) as [backupB HencB].
  destruct (handshake_run fuel alice bob rndA rndB rnd' ivB random_id note'
              nickname' msg sA sB backupA backupB HidA HidB HdrawA HdrawB
              HencA HencB Hdh Haes Htext Hne Hrange)
    as (H1 & H2 & H3 & H4 & H5).
  eexists _, _, _, _, _, _.
  split; [exact H1|]. split; [reflexivity|].
  split; [exact H2|]. split; [exact H3|]. split; [exact H4|].
  split; [exact H5|]. split; [|split; [|split]].
  - rewrite appendItem_lookup_ne by distinct_keys.
    apply threadStarted_info.
  - rewrite appendItem_lookup_ne by distinct_keys.
    rewrite lookup_insert_ne by distinct_keys.
    apply threadStarted_info.
  - rewrite appendItem_lookup_ne by distinct_keys.
    rewrite threadStarted_id. reflexivity.
  - rewrite appendItem_lookup_ne by distinct_keys.
    apply lookup_insert_eq.
Qed.

(** X14.  The handshake delivers the first message.  On a platform that
    honours its contracts for the two identities and the keys drawn
    (signatures verify; exported keys import back; JSON and the text
    codec round-trip; Diffie-Hellman is symmetric; AES-GCM decryption
    undoes encryption), with distinct non-empty thread thumbprints, a
    well-formed text and a drawn id below 2^53 - 1: Alice's
    [createInvitation] returns an invitation, Bob's [replyToInvitation]
    on it returns a reply, and Alice's [appendThread] on that reply,
    without a thread thumbprint, returns Bob's text under the thumbprint
    of her invitation's [epk].  Afterwards [readThreadSecret] gives both
    sides the same secret. *)
Theorem handshake_delivers_first_message (fuel : nat) (alice bob : Client P)
    (rndA rndB rnd' : Entropy P) (ivB : list byte) (random_id : Z)
    (note' nickname' : option string) (msg : string)
    (sA sB : gmap string (Value P)) :
  let ka := fresh_thread_key rndA in
  let kb := fresh_thread_key rndB in
  let TA := getJWKthumbprint P (exportPublic P (publicKey ka)) in
  let TB := getJWKthumbprint P (exportPublic P (publicKey kb)) in
  honest_identity alice -> honest_identity bob ->
  usable_draw alice rndA -> usable_draw bob rndB ->
  dh_agree ka kb ->
  aes_roundtrip (P := P) ->
  well_formed_text (P := P) msg ->
  TA <> TB ->
  (0 <= random_id < 2 ^ 53 - 1)%Z ->
  exists I R sA1 sB1 sA2 secret,
    createInvitation alice rndA random_id note' nickname' sA = (inr I, sA1)
    /\ epk (payload I) = Some (exportPublic P (publicKey ka))
    /\ replyToInvitation (S fuel) bob rndB ivB I msg sB = (inr R, sB1)
    /\ appendThread (S fuel) alice rnd' R None sA1 = (inr (TA, msg), sA2)
    /\ readThreadSecret alice TA sA2
       = (inr (secret, exportPublic P (publicKey ka)), sA2)
    /\ readThreadSecret bob TB sB1
       = (inr (secret, exportPublic P (publicKey kb)), sB1).
Proof.
  intros ka kb TA TB HidA HidB HdrawA HdrawB Hdh Haes Htext Hne Hrange.
  destruct (handshake_facts fuel alice bob rndA rndB rnd' ivB random_id note'
              nickname' msg sA sB HidA HidB HdrawA HdrawB Hdh Haes Htext Hne
              Hrange)
    as (I & R & sA1 & sB1 & sA2 & secret & H1 & H2 & H3 & H4 & H5 & H6 & _).
  exists I, R, sA1, sB1, sA2, secret. auto 10.
Qed.

(** X15.  After the handshake the conversation goes on.  Under the
    same contracts, once Alice has ingested Bob's first reply, her
    [replyToThread] on the thread returns an envelope that embeds no
    key and no [epk], is addressed to the thumbprint of Bob's thread
    key, and is numbered two above the invitation; and Bob's
    [appendThread] on it, without a thread thumbprint, finds his thread
    by that address and returns Alice's text. *)
Theorem answer_is_delivered_after_handshake (fuel : nat)
    (alice bob : Client P) (rndA rndB rnd' rnd'' : Entropy P)
    (ivA ivB : list byte) (random_id : Z) (note' nickname' : option string)
    (msg msg2 : string) (sA sB sA1 sB1 sA2 : gmap string (Value P))
    (I R : JWS P) :
  let ka := fresh_thread_key rndA in
  let kb := fresh_thread_key rndB in
  let TA := getJWKthumbprint P (exportPublic P (publicKey ka)) in
  let TB := getJWKthumbprint P (exportPublic P (publicKey kb)) in
  honest_identity alice -> honest_identity bob ->
  usable_draw alice rndA -> usable_draw bob rndB ->
  dh_agree ka kb ->
  aes_roundtrip (P := P) ->
  well_formed_text (P := P) msg ->
  well_formed_text (P := P) msg2 ->
  TA <> TB ->
  (0 <= random_id < 2 ^ 53 - 2)%Z ->
  createInvitation alice rndA random_id note' nickname' sA = (inr I, sA1) ->
  replyToInvitation (S fuel) bob rndB ivB I msg sB = (inr R, sB1) ->
  appendThread (S fuel) alice rnd' R None sA1 = (inr (TA, msg), sA2) ->
  exists R2 sA3 sB2,
    replyToThread (S fuel) alice rnd' ivA TA msg2 false sA2 = (inr R2, sA3)
    /\ jwk (header R2) = None
    /\ epk (payload R2) = None
    /\ re (payload R2) = Some TB
    /\ JS.parseInt16_opt (messageId (payload R2)) = JS.Num (random_id + 2)
    /\ appendThread (S (S fuel)) bob rnd'' R2 None sB1
       = (inr (TB, msg2), sB2).
Proof.
  intros ka kb TA TB HidA HidB HdrawA HdrawB Hdh Haes Htext Htext2 Hne Hrange
    H1 H2 H3.
  destruct (handshake_facts fuel alice bob rndA rndB rnd' ivB random_id note'
              nickname' msg sA sB HidA HidB HdrawA HdrawB Hdh Haes Htext Hne
              ltac:(lia))
    as (I0 & R0 & sA10 & sB10 & sA20 & secret & H1' & _ & H2' & H3' & HreadA
        & HreadB & HinfoA & HinfoB & HidsA & _).
  fold ka kb TA TB in H1', H2', H3', HreadA, HreadB, HinfoA, HinfoB, HidsA.
  rewrite H1 in H1'. injection H1' as <- <-.
  rewrite H2 in H2'. injection H2' as <- <-.
  rewrite H3 in H3'. injection H3' as <-.
  destruct HdrawA as (_ & _ & HpubA & _ & _ & _ & HTA).
  destruct HdrawB as (_ & _ & HpubB & _ & _ & _ & HTB).
  fold ka TA in HpubA, HTA. fold kb TB in HpubB, HTB.
  destruct HidA as [HsignA HreA].
  assert (Hparse : JS.parseInt16 (JS.toString16 (JS.Num (random_id + 1)))
                   = JS.Num (random_id + 1))
    by (apply parseInt16_toString16; lia).
  assert (Hnext :
            JS.succ (JS.parseInt16 (JS.toString16 (JS.Num (random_id + 1))))
            = JS.Num (random_id + 2)).
  { rewrite Hparse, succ_small by lia. f_equal. lia. }
  pose proof (replyToThread_run fuel alice rnd' ivA TA msg2 false sA2 _ _ _
                (exportPublic P (publicKey kb)) HTA HreadA HidsA HinfoA
                eq_refl HTB Hne HsignA HreA Haes Htext2) as Hrun.
  cbv zeta in Hrun. rewrite Hnext in Hrun. cbn [fst snd] in Hrun.
  eexists _, _, _. split; [exact Hrun|].
  split; [reflexivity|]. split; [reflexivity|]. split; [reflexivity|].
  split.
  - cbn [replyEnvelope signJWS payload messageId JS.parseInt16_opt].
    apply parseInt16_toString16. lia.
  - destruct (appendThread_from_peer fuel bob rnd''
                (replyEnvelope alice (exportPublic P (publicKey ka)) TB
                   (JS.Num (random_id + 2))
                   (aes_gcm_encrypt P secret ivA (utf8_encode P msg2)) ivA
                   false)
                TB _ _ _ (publicKey (identityKeyPair alice)) sB1 _ ivA
                (utf8_encode P msg2) eq_refl eq_refl HTB HinfoB eq_refl
                eq_refl Hne eq_refl HreA (HsignA _ _) HreadB
                (Buffer_from_encode _ _)
                (decryptText_encrypted _ _ _ Haes)) as [_ Hpeer].
    rewrite Htext2 in Hpeer. exact Hpeer.
Qed.

End Conversation.

(** ** The recursion of [appendThread] *)

Section Recursion.

Context {P : Platform}.

Lemma verifyAppended_settles (c : Client P) (m jws : JWS P) ti :
  verifyAppended c m jws ti <> inl OutOfFuel.
Proof.
  unfold verifyAppended, selectVerifier, thumbprintOf, importKey, bindE.
  intros H.
  repeat case_match; simplify_eq;
    repeat match goal with
           | E : orThrow _ _ = inl _ |- _ => apply orThrow_err in E
           end; discriminate.
Qed.

Lemma appendThreadKnown_settles (c : Client P) (m : JWS P) (T : string)
    (s s' : gmap string (Value P)) :
  appendThreadKnown c m T s <> (inl OutOfFuel, s').
Proof.
  intros Hk. unfold appendThreadKnown in Hk.
  apply bind_err in Hk as [Hk|(? & ? & _ & Hk)]; [discriminate Hk|].
  apply bind_err in Hk as [Hk|(? & ? & _ & Hk)]; [discriminate Hk|].
  apply bind_err in Hk as [Hk|(? & ? & _ & Hk)];
    [apply invariant_err in Hk as [? _]; discriminate|].
  apply bind_err in Hk as [Hk|(? & ? & _ & Hk)];
    [apply lift_err in Hk; by apply verifyAppended_settles in Hk|].
  apply bind_err in Hk as [Hk|(? & ? & _ & Hk)].
  { apply readThreadSecret_error_kinds in Hk
      as [[? _]|[[? _]|[?|[?|?]]]]; discriminate. }
  apply bind_err in Hk as [Hk|(? & ? & _ & Hk)];
    [apply lift_err, orThrow_err in Hk; discriminate|].
  apply bind_err in Hk as [Hk|(? & ? & _ & Hk)];
    [apply lift_err, orThrow_err in Hk; discriminate|].
  apply bind_err in Hk as [Hk|(? & ? & _ & Hk)]; discriminate Hk.
Qed.

Lemma startThread_settles (c : Client P) (rnd : Entropy P) inv theirs sig
    mid myT (s s' : gmap string (Value P)) :
  startThread c rnd inv theirs sig mid myT s <> (inl OutOfFuel, s').
Proof.
  intros H. unfold startThread in H.
  apply bind_err in H as [H|(? & ? & _ & H)].
  { destruct (nonempty myT); [discriminate H|].
    apply bind_err in H as [H|(? & ? & _ & H)]; [|discriminate H].
    apply makeThreadKeys_err in H as [_ H].
    apply encryptToSelf_err in H as (cause & ? & _). discriminate. }
  apply bind_err in H as [H|(? & ? & _ & H)]; [discriminate H|].
  apply bind_err in H as [H|(? & ? & _ & H)];
    [apply invariant_err in H as [? _]; discriminate|].
  apply bind_err in H as [H|(? & ? & _ & H)].
  { apply lift_err in H. destruct sig; discriminate H. }
  repeat (apply bind_err in H as [H|(? & ? & _ & H)]; [discriminate H|]).
  discriminate H.
Qed.

(** X16.  [appendThread] calls itself at most once.  When the call
    names a thread, or the envelope embeds a key, or the envelope is
    addressed ([re] is a non-empty string), two levels of the call
    settle it: the result is the same however much deeper the call
    could go, and it is never the recursion running out. *)
Theorem appendThread_recurses_at_most_once (fuel : nat) (c : Client P)
    (rnd : Entropy P) (m : JWS P) (T : option string)
    (s : gmap string (Value P)) :
  nonempty T = true \/ is_Some (jwk (header m))
  \/ nonempty (re (payload m)) = true ->
  appendThread (S (S fuel)) c rnd m T s = appendThread 2 c rnd m T s
  /\ fst (appendThread 2 c rnd m T s) <> inl OutOfFuel.
Proof.
  intros H.
  assert (Hnot : forall (r : (Error + string * string)
                             * gmap string (Value P)),
             (forall s', r <> (inl OutOfFuel, s')) ->
             fst r <> inl OutOfFuel).
  { intros [r s1] Hr E. cbn [fst] in E. subst r. by eapply Hr. }
  cbn [appendThread].
  destruct (nonempty T) eqn:HT.
  { split; [reflexivity|]. apply Hnot. intros s'.
    apply appendThreadKnown_settles. }
  destruct H as [H|H]; [discriminate H|].
  change (parseJWS m KeyNull) with (@inr Error _ m).
  rewrite !bind_lift_inr.
  destruct (jwk (header m)) as [signer|] eqn:Hjwk.
  - split; [reflexivity|]. apply Hnot. intros s' Hr.
    apply bind_err in Hr as [Hr|(? & ? & _ & Hr)];
      [apply invariant_err in Hr as [? _]; discriminate|].
    apply bind_err in Hr as [Hr|(? & ? & _ & Hr)]; [discriminate Hr|].
    apply bind_err in Hr as [Hr|(? & ? & _ & Hr)];
      [apply invariant_err in Hr as [? _]; discriminate|].
    apply bind_err in Hr as [Hr|(? & ? & _ & Hr)].
    { apply lift_err in Hr. unfold asJWS in Hr.
      repeat case_match; simplify_eq. }
    apply bind_err in Hr as [Hr|(? & ? & _ & Hr)].
    { apply lift_err in Hr. unfold parseJWS in Hr.
      repeat case_match; simplify_eq. }
    apply bind_err in Hr as [Hr|(? & ? & _ & Hr)];
      [apply invariant_err in Hr as [? _]; discriminate|].
    apply bind_err in Hr as [Hr|(? & ? & _ & Hr)].
    { apply lift_err in Hr. unfold thumbprintOf in Hr.
      repeat case_match; simplify_eq. }
    apply bind_err in Hr as [Hr|(my & s2 & _ & Hr)];
      [by apply startThread_settles in Hr|].
    by apply appendThreadKnown_settles in Hr.
  - destruct H as [[x Hx]|H]; [discriminate Hx|].
    rewrite H. split; [reflexivity|].
    unfold bind, hasItem.
    destruct (bool_decide _); [|discriminate].
    cbn [invariant ret]. apply Hnot. intros s'.
    apply appendThreadKnown_settles.
Qed.

(** X17.  An unaddressed envelope can keep [appendThread] from ever
    settling.  For an envelope without an embedded key whose [re] is
    missing or empty, called without a thread thumbprint: if the
    storage has no entry under [thread-info:] followed by that [re]
    (as a template literal prints it) the call fails with "Thread not
    found"; if it has one, the call re-enters itself with the same
    arguments, at every depth. *)
Theorem appendThread_unaddressed (c : Client P) (rnd : Entropy P)
    (m : JWS P) (s : gmap string (Value P)) :
  jwk (header m) = None ->
  nonempty (re (payload m)) = false ->
  (s !! ("thread-info:" +:+ tmpl (re (payload m))) = None ->
   forall fuel,
     appendThread (S fuel) c rnd m None s = (inl ThreadNotFound, s))
  /\ (is_Some (s !! ("thread-info:" +:+ tmpl (re (payload m)))) ->
      forall fuel,
        appendThread (S fuel) c rnd m None s
        = appendThread fuel c rnd m None s
        /\ appendThread fuel c rnd m None s = (inl OutOfFuel, s)).
Proof.
  intros Hjwk Hre. split.
  - intros Hinfo fuel. by apply appendThread_no_thread.
  - intros Hinfo.
    assert (Hstep : forall fuel,
               appendThread (S fuel) c rnd m None s
               = appendThread fuel c rnd m None s).
    { intros fuel. cbn [appendThread nonempty].
      change (parseJWS m KeyNull) with (@inr Error _ m).
      rewrite bind_lift_inr, Hjwk.
      unfold bind at 1, hasItem at 1.
      rewrite bool_decide_eq_true_2 by exact Hinfo.
      rewrite bind_invariant_true.
      destruct (re (payload m)) as [[|a r]|];
        [|discriminate Hre|reflexivity].
      destruct fuel; reflexivity. }
    intros fuel. split; [apply Hstep|].
    induction fuel as [|fuel IH]; [reflexivity|].
    rewrite Hstep. exact IH.
Qed.

End Recursion.

(** ** What the engine leaves alone *)

Section Frames.

Context {P : Platform}.

Lemma preserves_readonly {A} keep (m : @M P A) :
  readonly m -> preserves keep m.
Proof.
  intros Hm s r s' H key _.
  apply (readonly_run _ _ _ _ Hm) in H as ->. reflexivity.
Qed.

Lemma preserves_bind {A B} keep (m : @M P A) (k : A -> @M P B) :
  preserves keep m -> (forall a, preserves keep (k a)) ->
  preserves keep (bind m k).
Proof.
  intros Hm Hk s r s' H key Hkey. unfold bind in H.
  destruct (m s) as [[e|a] s1] eqn:E.
  - injection H as <- <-. eapply Hm; eauto.
  - rewrite (Hk a _ _ _ H key Hkey). eapply Hm; eauto.
Qed.

Lemma preserves_setItem keep k (v : Value P) :
  ~ keep k -> preserves keep (setItem k v).
Proof.
  intros Hk s r s' H key Hkey. injection H as _ <-.
  apply lookup_insert_ne. congruence.
Qed.

Lemma preserves_appendItem keep k (v : Value P) :
  ~ keep k -> preserves keep (appendItem k v).
Proof.
  intros Hk s r s' H key Hkey.
  apply (f_equal snd) in H. cbn [snd] in H. subst s'.
  apply appendItem_lookup_ne. congruence.
Qed.

Lemma preserves_if {A} keep (b : bool) (m1 m2 : @M P A) :
  preserves keep m1 -> preserves keep m2 ->
  preserves keep (if b then m1 else m2).
Proof. by destruct b. Qed.

Ltac frame :=
  repeat match goal with
         | |- preserves _ (bind _ _) => apply preserves_bind; [|intros ?]
         | |- preserves _ (if _ then _ else _) => apply preserves_if
         | |- preserves _ (ret _) => apply preserves_readonly, readonly_ret
         | |- preserves _ (throw _) =>
             apply preserves_readonly, readonly_throw
         | |- preserves _ (lift _) => apply preserves_readonly, readonly_lift
         | |- preserves _ (invariant _ _) =>
             apply preserves_readonly, readonly_invariant
         | |- preserves _ (getItem _) =>
             apply preserves_readonly, readonly_getItem
         | |- preserves _ (hasItem _) =>
             apply preserves_readonly, readonly_hasItem
         | |- preserves _ (readThreadSecret _ _) =>
             apply preserves_readonly, readThreadSecret_readonly
         end.

Lemma preserves_appendThreadKnown keep (c : Client P) (m : JWS P)
    (T : string) :
  ~ keep ("messages:" +:+ T) -> preserves keep (appendThreadKnown c m T).
Proof.
  intros Hk. unfold appendThreadKnown. frame.
  by apply preserves_appendItem.
Qed.

Lemma preserves_makeThreadKeys keep (c : Client P) (rnd : Entropy P) :
  (forall x, ~ keep ("encrypted-thread-key:" +:+ x)) ->
  preserves keep (makeThreadKeys c rnd).
Proof.
  intros Hk. unfold makeThreadKeys. frame. apply preserves_setItem, Hk.
Qed.

Lemma preserves_startThread keep (c : Client P) (rnd : Entropy P) inv theirs
    sig mid myT :
  (forall x, ~ keep ("encrypted-thread-key:" +:+ x)) ->
  (forall x, ~ keep ("public-key:" +:+ x)) ->
  (forall x, ~ keep ("thread-info:" +:+ x)) ->
  (forall x, ~ keep ("threads:" +:+ x)) ->
  (forall x, ~ keep ("messages:" +:+ x)) ->
  (forall x, ~ keep ("message-id:" +:+ x)) ->
  preserves keep (startThread c rnd inv theirs sig mid myT).
Proof.
  intros Hkey Hpk Hinfo Hthreads Hmsg Hid. unfold startThread. frame;
    first [ by apply preserves_makeThreadKeys
          | by apply preserves_setItem
          | by apply preserves_appendItem ].
Qed.

Lemma preserves_appendThread keep (fuel : nat) (c : Client P)
    (rnd : Entropy P) (m : JWS P) (T : option string) :
  (forall x, ~ keep ("encrypted-thread-key:" +:+ x)) ->
  (forall x, ~ keep ("public-key:" +:+ x)) ->
  (forall x, ~ keep ("thread-info:" +:+ x)) ->
  (forall x, ~ keep ("threads:" +:+ x)) ->
  (forall x, ~ keep ("messages:" +:+ x)) ->
  (forall x, ~ keep ("message-id:" +:+ x)) ->
  preserves keep (appendThread fuel c rnd m T).
Proof.
  intros Hkey Hpk Hinfo Hthreads Hmsg Hid.
  revert T. induction fuel as [|fuel IH]; intros T.
  - apply preserves_readonly. cbn. auto with engine.
  - cbn [appendThread]. apply preserves_if.
    + by apply preserves_appendThreadKnown.
    + apply preserves_bind; [frame|intros jws].
      destruct (jwk (header jws)).
      * frame; first [ by apply preserves_startThread
                     | by apply preserves_appendThreadKnown ].
      * frame. apply IH.
Qed.

Lemma preserves_replyToThread keep (fuel : nat) (c : Client P)
    (rnd : Entropy P) (iv' : list byte) (T msg : string) (selfSign : bool) :
  T <> "" ->
  ~ keep ("message-id:" +:+ T) ->
  ~ keep ("messages:" +:+ T) ->
  preserves keep (replyToThread fuel c rnd iv' T msg selfSign).
Proof.
  intros HT Hid Hmsg. unfold replyToThread. frame.
  - by apply preserves_setItem.
  - destruct fuel as [|fuel].
    + apply preserves_readonly. cbn. auto with engine.
    + rewrite appendThread_known by exact HT.
      by apply preserves_appendThreadKnown.
Qed.

(** X23.  [replyToThread] on a thread [T] touches that thread's id and
    log and nothing else: whatever the call returns or throws, every
    key other than [message-id:T] and [messages:T] reads the same
    afterwards - no other thread's entries, no thread-info, no key
    backup, no invitation. *)
Theorem replyToThread_touches_only_its_thread (fuel : nat) (c : Client P)
    (rnd : Entropy P) (iv' : list byte) (T msg : string) (selfSign : bool)
    (s s' : gmap string (Value P)) r :
  T <> "" ->
  replyToThread fuel c rnd iv' T msg selfSign s = (r, s') ->
  forall key,
    key <> "message-id:" +:+ T -> key <> "messages:" +:+ T ->
    s' !! key = s !! key.
Proof.
  intros HT H key Hid Hmsg.
  apply (preserves_replyToThread
           (fun k => k <> "message-id:" +:+ T /\ k <> "messages:" +:+ T)
           fuel c rnd iv' T msg selfSign HT) with (r := r) (s := s) (s' := s');
    [tauto|tauto|exact H|auto].
Qed.

Lemma preserves_replyToThread_any keep (fuel : nat) (c : Client P)
    (rnd : Entropy P) (iv' : list byte) (T msg : string) (selfSign : bool) :
  (forall x, ~ keep ("encrypted-thread-key:" +:+ x)) ->
  (forall x, ~ keep ("public-key:" +:+ x)) ->
  (forall x, ~ keep ("thread-info:" +:+ x)) ->
  (forall x, ~ keep ("threads:" +:+ x)) ->
  (forall x, ~ keep ("messages:" +:+ x)) ->
  (forall x, ~ keep ("message-id:" +:+ x)) ->
  preserves keep (replyToThread fuel c rnd iv' T msg selfSign).
Proof.
  intros Hkey Hpk Hinfo Hthreads Hmsg Hid. unfold replyToThread. frame.
  - by apply preserves_setItem.
  - by apply preserves_appendThread.
Qed.

(** X24.  Invitations are never consumed.  No call of [appendThread],
    [replyToThread] or [replyToInvitation], whatever its arguments and
    outcome, writes under [invitation:]: every stored invitation is
    still stored afterwards, unchanged - also the one a first reply has
    just answered, which can therefore be answered again. *)
Theorem invitations_are_never_consumed (fuel : nat) (c : Client P)
    (rnd : Entropy P) (iv' : list byte) (m inv : JWS P)
    (T : option string) (T' msg : string) (selfSign : bool)
    (s : gmap string (Value P)) (x : string) :
  (forall r s',
     appendThread fuel c rnd m T s = (r, s') ->
     s' !! ("invitation:" +:+ x) = s !! ("invitation:" +:+ x))
  /\ (forall r s',
        replyToThread fuel c rnd iv' T' msg selfSign s = (r, s') ->
        s' !! ("invitation:" +:+ x) = s !! ("invitation:" +:+ x))
  /\ (forall r s',
        replyToInvitation fuel c rnd iv' inv msg s = (r, s') ->
        s' !! ("invitation:" +:+ x) = s !! ("invitation:" +:+ x)).
Proof.
  set (keep := fun k : string => exists y, k = "invitation:" +:+ y).
  assert (Hkeep : keep ("invitation:" +:+ x)) by (by exists x).
  assert (Hkey : forall y, ~ keep ("encrypted-thread-key:" +:+ y))
    by (intros y [z Hz]; revert Hz; distinct_keys).
  assert (Hpk : forall y, ~ keep ("public-key:" +:+ y))
    by (intros y [z Hz]; revert Hz; distinct_keys).
  assert (Hinfo : forall y, ~ keep ("thread-info:" +:+ y))
    by (intros y [z Hz]; revert Hz; distinct_keys).
  assert (Hthreads : forall y, ~ keep ("threads:" +:+ y))
    by (intros y [z Hz]; revert Hz; distinct_keys).
  assert (Hmsg : forall y, ~ keep ("messages:" +:+ y))
    by (intros y [z Hz]; revert Hz; distinct_keys).
  assert (Hid : forall y, ~ keep ("message-id:" +:+ y))
    by (intros y [z Hz]; revert Hz; distinct_keys).
  split; [|split].
  - intros r s' H.
    by apply (preserves_appendThread keep fuel c rnd m T Hkey Hpk Hinfo
                Hthreads Hmsg Hid s r s' H).
  - intros r s' H.
    by apply (preserves_replyToThread_any keep fuel c rnd iv' T' msg selfSign
                Hkey Hpk Hinfo Hthreads Hmsg Hid s r s' H).
  - intros r s' H.
    assert (Hp : preserves keep (replyToInvitation fuel c rnd iv' inv msg)).
    { unfold replyToInvitation. frame.
      - by apply preserves_startThread.
      - by apply preserves_replyToThread_any. }
    by apply (Hp s r s' H).
Qed.

Lemma preserves_bind_val {A B} keep (m : @M P A) (k : A -> @M P B)
    (Q : A -> Prop) :
  preserves keep m ->
  (forall s a s1, m s = (inr a, s1) -> Q a) ->
  (forall a, Q a -> preserves keep (k a)) ->
  preserves keep (bind m k).
Proof.
  intros Hm HQ Hk s r s' H key Hkey. unfold bind in H.
  destruct (m s) as [[e|a] s1] eqn:E.
  - injection H as <- <-. eapply Hm; eauto.
  - rewrite (Hk a (HQ _ _ _ E) _ _ _ H key Hkey). eapply Hm; eauto.
Qed.

(** [startThread] writes under the thread it starts and the peer's key
    only, also when it fails half-way. *)
Lemma preserves_startThread_at (keep : string -> Prop) (c : Client P)
    (rnd : Entropy P) inv theirs sig mid myT (T : string) :
  (if nonempty myT then myT = Some T
   else T = getJWKthumbprint P (snd (exportKeyPair (fresh_thread_key rnd)))) ->
  ~ keep ("encrypted-thread-key:" +:+ T) ->
  (forall k, sig = Some k ->
             ~ keep ("public-key:" +:+ getJWKthumbprint P k)) ->
  ~ keep ("thread-info:" +:+ T) ->
  ~ keep ("threads:" +:+ thumbprint c) ->
  ~ keep ("messages:" +:+ T) ->
  ~ keep ("message-id:" +:+ T) ->
  preserves keep (startThread c rnd inv theirs sig mid myT)
  /\ forall s my s1,
       startThread c rnd inv theirs sig mid myT s = (inr my, s1) -> my = T.
Proof.
  intros Hmode Nkey Npk Ninfo Nthreads Nmsg Nid.
  assert (Hmy : forall s my s1,
             startThread c rnd inv theirs sig mid myT s = (inr my, s1) ->
             my = T).
  { intros s my s1 H.
    apply startThread_ok in H as (k & s0 & _ & _ & _ & Hm).
    destruct (nonempty myT); [destruct Hm; congruence|].
    destruct Hm as [-> _]. by rewrite Hmode. }
  split; [|exact Hmy].
  intros s r s' H key Hkey.
  assert (Hfirst : forall s0 my,
             (if nonempty myT then ret (tmpl myT)
              else bind (makeThreadKeys c rnd) (fun r => ret (fst r))) s
             = (inr my, s0) ->
             my = T /\ s0 !! key = s !! key).
  { intros s0 my H0. destruct (nonempty myT) eqn:Hn.
    - apply ret_ok in H0 as [-> ->]. rewrite Hmode. auto.
    - apply bind_ok in H0 as (made & s2 & Hmk & Hret).
      apply ret_ok in Hret as [-> ->].
      apply makeThreadKeys_ok in Hmk as (-> & backup & _ & ->).
      cbn [fst]. rewrite <- Hmode. split; [reflexivity|].
      apply lookup_insert_ne. congruence. }
  destruct r as [e|my].
  - unfold startThread in H.
    apply bind_err in H as [H|(my & s0 & H0 & H)].
    { destruct (nonempty myT); [discriminate H|].
      apply bind_err in H as [H|(? & ? & _ & H)]; [|discriminate H].
      apply makeThreadKeys_err in H as [-> _]. reflexivity. }
    destruct (Hfirst _ _ H0) as [-> Hs0]. rewrite <- Hs0.
    apply bind_err in H as [H|(? & ? & H1 & H)]; [discriminate H|].
    apply getItem_ok in H1 as [_ ->].
    apply bind_err in H as [H|(? & ? & H1 & H)].
    { destruct (truthy _); [discriminate H|]. by injection H as _ <-. }
    apply invariant_ok in H1 as [_ ->].
    apply bind_err in H as [H|(? & ? & H1 & H)].
    { unfold lift in H. by injection H as _ <-. }
    repeat (apply bind_err in H as [H|(? & ? & _ & H)]; [discriminate H|]).
    discriminate H.
  - pose proof (Hmy _ _ _ H) as ->.
    apply startThread_ok in H as (k & s0 & -> & _ & -> & Hm).
    rewrite threadStarted_other;
      try (intros ->; first [by apply Nid|by apply Nmsg|by apply Nthreads
                            |by apply Ninfo|by eapply Npk]).
    destruct (nonempty myT); [by destruct Hm as [_ ->]|].
    destruct Hm as (_ & backup & _ & ->).
    apply lookup_insert_ne. congruence.
Qed.

(** X25.  The two calls that start a thread write under that thread
    and the peer's key only.  Whatever they return or throw, and with
    [T] the thread's (non-empty) thumbprint - for [replyToInvitation]
    the thumbprint of the fresh thread key, for [appendThread] on a
    first reply the thumbprint of the stored invitation's [epk] - every
    key other than [thread-info:T], [message-id:T], [messages:T],
    [encrypted-thread-key:T], the client's thread list and
    [public-key:<thumbprint of the embedded key>] reads the same
    afterwards. *)
Theorem starting_a_thread_touches_only_that_thread (fuel : nat)
    (c : Client P) (rnd : Entropy P) (s s' : gmap string (Value P))
    (T : string) (signer : JWK P) (key : string) :
  T <> "" ->
  key <> "thread-info:" +:+ T ->
  key <> "message-id:" +:+ T ->
  key <> "messages:" +:+ T ->
  key <> "encrypted-thread-key:" +:+ T ->
  key <> "threads:" +:+ thumbprint c ->
  key <> "public-key:" +:+ getJWKthumbprint P signer ->
  (forall iv' inv msg r,
     T = getJWKthumbprint P
           (exportPublic P (publicKey (fresh_thread_key rnd))) ->
     jwk (header inv) = Some signer ->
     replyToInvitation fuel c rnd iv' inv msg s = (r, s') ->
     s' !! key = s !! key)
  /\ (forall m inv ei r,
        jwk (header m) = Some signer ->
        s !! ("invitation:" +:+ tmpl (re (payload m))) = Some (VJWS inv) ->
        epk (payload inv) = Some ei ->
        T = getJWKthumbprint P ei ->
        appendThread (S fuel) c rnd m None s = (r, s') ->
        s' !! key = s !! key).
Proof.
  intros HT K1 K2 K3 K4 K5 K6.
  set (keep := fun k : string =>
                 k <> "thread-info:" +:+ T /\ k <> "message-id:" +:+ T
                 /\ k <> "messages:" +:+ T
                 /\ k <> "encrypted-thread-key:" +:+ T
                 /\ k <> "threads:" +:+ thumbprint c
                 /\ k <> "public-key:" +:+ getJWKthumbprint P signer).
  assert (Hkeep : keep key) by (unfold keep; auto 10).
  assert (N1 : ~ keep ("thread-info:" +:+ T)) by (unfold keep; tauto).
  assert (N2 : ~ keep ("message-id:" +:+ T)) by (unfold keep; tauto).
  assert (N3 : ~ keep ("messages:" +:+ T)) by (unfold keep; tauto).
  assert (N4 : ~ keep ("encrypted-thread-key:" +:+ T))
    by (unfold keep; tauto).
  assert (N5 : ~ keep ("threads:" +:+ thumbprint c)) by (unfold keep; tauto).
  assert (N6 : forall k, Some signer = Some k ->
                         ~ keep ("public-key:" +:+ getJWKthumbprint P k))
    by (intros k [= <-]; unfold keep; tauto).
  split.
  - intros iv' inv msg r HTdef Hjwk H.
    assert (Hp : preserves keep (replyToInvitation fuel c rnd iv' inv msg)).
    { unfold replyToInvitation.
      apply preserves_bind; [frame|intros _].
      apply preserves_bind_val with (Q := fun invite => invite = inv);
        [frame| |].
      { intros s0 a s1 Ha. apply lift_ok in Ha as [Ha _].
        eapply parseJWS_same, Ha. }
      intros invite ->. rewrite Hjwk.
      destruct (preserves_startThread_at keep c rnd inv (epk (payload inv))
                  (Some signer) (messageId (payload inv)) None T HTdef N4 N6
                  N1 N5 N3 N2) as [Hst Hmy].
      apply preserves_bind_val with (Q := fun my => my = T);
        [exact Hst|exact Hmy|].
      intros my ->. by apply preserves_replyToThread. }
    by apply (Hp s r s' H).
  - intros m inv ei r Hjwk Hinv Hei HTdef H.
    cbn [appendThread nonempty] in H.
    change (parseJWS m KeyNull) with (@inr Error _ m) in H.
    rewrite bind_lift_inr, Hjwk in H.
    unfold bind at 1 in H.
    destruct (bool_decide (is_Some (epk (payload m))));
      [|by injection H as _ <-].
    cbn [invariant ret] in H.
    rewrite bind_getItem, Hinv in H. cbn [truthy from_option id asJWS] in H.
    rewrite bind_invariant_true, bind_lift_inr in H.
    unfold bind at 1, lift at 1 in H.
    destruct (parseJWS inv KeyOmitted) as [e|inv'] eqn:Hp;
      [by injection H as _ <-|].
    apply parseJWS_same in Hp as ->.
    unfold bind at 1 in H.
    destruct (JS.strict_eq _ _); [|by injection H as _ <-].
    cbn [invariant ret] in H.
    rewrite Hei in H. cbn [thumbprintOf] in H.
    rewrite bind_lift_inr, <- HTdef in H.
    destruct (preserves_startThread_at keep c rnd inv (epk (payload m))
                (Some signer) (messageId (payload m)) (Some T) T) as [Hst Hmy];
      try assumption.
    { by rewrite (nonempty_Some _ HT). }
    revert H.
    match goal with
    | |- bind ?m0 ?k0 s = _ -> _ =>
        assert (Hp : preserves keep (bind m0 k0))
    end.
    { apply preserves_bind_val with (Q := fun my => my = T);
        [exact Hst|exact Hmy|].
      intros my ->. by apply preserves_appendThreadKnown. }
    intros H. by apply (Hp s r s' H).
Qed.

End Frames.

(** ** Strings, and the identity manager *)

Section StringFacts.

Lemma append_inj_r (a b c : string) : a +:+ b = a +:+ c -> b = c.
Proof.
  induction a as [|x a IH]; [by rewrite !append_nil|].
  rewrite !append_cons. intros [= H]. auto.
Qed.

Lemma length_append (a b : string) :
  String.length (a +:+ b) = (String.length a + String.length b)%nat.
Proof.
  induction a as [|x a IH]; [by rewrite append_nil|].
  rewrite append_cons. cbn [String.length]. by rewrite IH.
Qed.

Lemma append_inj_l (a b c : string) : a +:+ c = b +:+ c -> a = b.
Proof.
  revert b. induction a as [|x a IH]; intros [|y b] H.
  - reflexivity.
  - apply (f_equal String.length) in H.
    rewrite append_nil, append_cons in H. cbn [String.length] in H.
    rewrite length_append in H. lia.
  - apply (f_equal String.length) in H.
    rewrite append_nil, append_cons in H. cbn [String.length] in H.
    rewrite length_append in H. lia.
  - rewrite !append_cons in H. injection H as -> H. f_equal. by apply IH.
Qed.

Lemma substring_whole (s : string) (m : nat) :
  (String.length s <= m)%nat -> String.substring 0 m s = s.
Proof.
  revert m. induction s as [|x s IH]; intros m Hm.
  - by destruct m.
  - destruct m as [|m]; [cbn in Hm; lia|].
    cbn [String.substring]. rewrite IH; [reflexivity|]. cbn in Hm. lia.
Qed.

Lemma substring_prefix (a b : string) :
  String.substring 0 (String.length a) (a +:+ b) = a.
Proof.
  induction a as [|x a IH]; [by destruct b|].
  rewrite append_cons. cbn [String.length String.substring]. by rewrite IH.
Qed.

Lemma substring_skip (a b : string) (n m : nat) :
  String.substring (String.length a + n) m (a +:+ b) = String.substring n m b.
Proof.
  induction a as [|x a IH]; [by rewrite append_nil|].
  rewrite append_cons. cbn [String.length Nat.add String.substring].
  exact IH.
Qed.

Lemma substring_long (s : string) (n m : nat) :
  (String.length s <= n + m)%nat ->
  String.substring n m s = String.substring n (String.length s) s.
Proof.
  revert n m. induction s as [|x s IH]; intros n m Hm.
  - by destruct n, m.
  - destruct n as [|n].
    + rewrite !substring_whole by (cbn in *; lia). reflexivity.
    + cbn [String.length String.substring].
      rewrite (IH n m) by (cbn in Hm; lia).
      rewrite (IH n (S (String.length s))) by lia. reflexivity.
Qed.

Lemma substring_suffix (s : string) (n : nat) :
  exists pre,
    s = pre +:+ String.substring n (String.length s) s
    /\ String.length pre = Nat.min n (String.length s).
Proof.
  revert n. induction s as [|x s IH]; intros n.
  - exists "". by destruct n.
  - destruct n as [|n].
    + exists "". rewrite substring_whole by lia. split; reflexivity.
    + destruct (IH n) as (pre & Hs & Hlen).
      exists (String x pre). cbn [String.length String.substring].
      rewrite append_cons. split.
      * f_equal. rewrite (substring_long s n (S (String.length s))) by lia.
        exact Hs.
      * cbn [Nat.min]. by rewrite Hlen.
Qed.

End StringFacts.

Section IdentityTheorems.

Context {P : Platform} (V : Vault P).

Lemma importKeyPair_exported (k : KeyPair P) :
  reimports (publicKey k) -> reimports_private (privateKey k) ->
  importKeyPair (fst (exportKeyPair k)) (snd (exportKeyPair k)) = Some k.
Proof.
  intros Hpub Hpriv. unfold importKeyPair. cbn [exportKeyPair fst snd].
  rewrite Hpub, Hpriv. by destruct k.
Qed.

(** X18.  [generateClient] followed by [loadClient] gives the generated
    keys back.  On a platform where unwrapping with the same password
    undoes wrapping and exported keys import back, [generateClient]
    returns a client whose thumbprint is the thumbprint of the identity
    public key and whose key pairs are the generated ones; it has
    written one record, under [identity:<thumbprint>], holding the two
    public keys and the two wrapped private keys; a later [loadClient]
    with that thumbprint and password returns the same client; and
    every other thumbprint loads as it did before. *)
Theorem generateClient_then_loadClient (identity storageKey : KeyPair P)
    (salt1 salt2 : Salt V) (password : string) (storage : gmap string (StoredIdentity P)) :
  unwraps V (exportPrivate P (privateKey identity)) password salt1 ->
  unwraps V (exportPrivate P (privateKey storageKey)) password salt2 ->
  reimports (publicKey identity) ->
  reimports_private (privateKey identity) ->
  reimports (publicKey storageKey) ->
  reimports_private (privateKey storageKey) ->
  let t := getJWKthumbprint P (exportPublic P (publicKey identity)) in
  let c := mkClient t identity storageKey in
  let record :=
    mkStoredIdentity (exportPublic P (publicKey identity))
      (encryptPrivateKey V (exportPrivate P (privateKey identity)) password
         salt1)
      (exportPublic P (publicKey storageKey))
      (encryptPrivateKey V (exportPrivate P (privateKey storageKey)) password
         salt2) in
  generateClient V identity storageKey salt1 salt2 password storage
  = (inr c, <["identity:" +:+ t := record]> storage)
  /\ loadClient V (<["identity:" +:+ t := record]> storage) t password
     = inr c
  /\ forall t' password',
       t' <> t ->
       loadClient V (<["identity:" +:+ t := record]> storage) t' password'
       = loadClient V storage t' password'.
Proof.
  intros Hw1 Hw2 Hpub1 Hpriv1 Hpub2 Hpriv2 t c record.
  assert (Hload : loadClient V (<["identity:" +:+ t := record]> storage) t
                    password = inr c).
  { unfold loadClient. rewrite lookup_insert_eq.
    cbn [record id_private id_jwk storage_private storage_jwk].
    rewrite Hw1.
    rewrite (importKeyPair_exported identity Hpub1 Hpriv1 : importKeyPair
               (exportPrivate P (privateKey identity))
               (exportPublic P (publicKey identity)) = Some identity).
    rewrite Hw2.
    rewrite (importKeyPair_exported storageKey Hpub2 Hpriv2 : importKeyPair
               (exportPrivate P (privateKey storageKey))
               (exportPublic P (publicKey storageKey)) = Some storageKey).
    reflexivity. }
  split; [|split; [exact Hload|]].
  - unfold generateClient. cbn [exportKeyPair fst snd]. fold t record.
    rewrite Hload. reflexivity.
  - intros t' password' Hne. unfold loadClient.
    rewrite lookup_insert_ne; [reflexivity|].
    intros E. apply append_inj_r in E. congruence.
Qed.

(** X19.  [loadClient] fails with "No identity found for thumbprint"
    exactly when nothing is stored under [identity:<thumbprint>]; it
    fails whenever the wrapped identity key does not open under the
    password; and a client it returns carries the thumbprint that was
    asked for, public keys that are the imports of the two stored JWKs,
    and private keys that are the imports of what the two wrapped
    strings open to under the password.  Nothing compares the
    thumbprint with the stored identity key. *)
Theorem loadClient_outcomes (storage : gmap string (StoredIdentity P))
    (thumbprint' password : string) :
  (loadClient V storage thumbprint' password = inl NoIdentityFound
   <-> storage !! ("identity:" +:+ thumbprint') = None)
  /\ (forall storedData,
        storage !! ("identity:" +:+ thumbprint') = Some storedData ->
        decryptPrivateKey V (id_private storedData) password = None ->
        loadClient V storage thumbprint' password = inl UnwrapFailed)
  /\ (forall c,
        loadClient V storage thumbprint' password = inr c ->
        thumbprint c = thumbprint'
        /\ exists storedData idPrivate storagePrivate,
             storage !! ("identity:" +:+ thumbprint') = Some storedData
             /\ decryptPrivateKey V (id_private storedData) password
                = Some idPrivate
             /\ decryptPrivateKey V (storage_private storedData) password
                = Some storagePrivate
             /\ importPublic P (id_jwk storedData)
                = Some (publicKey (identityKeyPair c))
             /\ importPrivate P idPrivate
                = Some (privateKey (identityKeyPair c))
             /\ importPublic P (storage_jwk storedData)
                = Some (publicKey (storageKeyPair c))
             /\ importPrivate P storagePrivate
                = Some (privateKey (storageKeyPair c))).
Proof.
  unfold loadClient, importKeyPair. split; [|split].
  - split.
    + intros H. repeat case_match; simplify_eq. reflexivity.
    + intros ->. reflexivity.
  - intros storedData -> ->. reflexivity.
  - intros c H.
    destruct (storage !! ("identity:" +:+ thumbprint')) as [rec|];
      [|discriminate].
    destruct (decryptPrivateKey V (id_private rec) password) as [k1|] eqn:E1;
      [|discriminate].
    destruct (importPrivate P k1) as [priv1|] eqn:E2; [|discriminate].
    destruct (importPublic P (id_jwk rec)) as [pub1|] eqn:E3; [|discriminate].
    destruct (decryptPrivateKey V (storage_private rec) password)
      as [k2|] eqn:E4; [|discriminate].
    destruct (importPrivate P k2) as [priv2|] eqn:E5; [|discriminate].
    destruct (importPublic P (storage_jwk rec)) as [pub2|] eqn:E6;
      [|discriminate].
    injection H as <-. split; [reflexivity|].
    exists rec, k1, k2. cbn. auto 10.
Qed.

End IdentityTheorems.

(** ** Key nicknames *)

Section NicknameTheorems.

Lemma indexOfColon_namespace (prefix rest : string) :
  indexOfColon prefix = None ->
  indexOfColon (prefix +:+ ":" +:+ rest) = Some (String.length prefix).
Proof.
  induction prefix as [|x prefix IH]; intros H.
  - reflexivity.
  - rewrite append_cons. cbn [indexOfColon String.length] in *.
    destruct (Ascii.eqb x ":"); [discriminate|].
    destruct (indexOfColon prefix); [discriminate|].
    rewrite IH by reflexivity. reflexivity.
Qed.

Lemma nicknamedKey_split (keyNicknames : Nicknames) (prefix rest : string) :
  prefix <> "" ->
  indexOfColon prefix = None ->
  nicknamedKey keyNicknames (prefix +:+ ":" +:+ rest)
  = match keyNicknames !! rest with
    | Some nickname' => prefix +:+ ":[" +:+ nickname' +:+ "]"
    | None => prefix +:+ ":" +:+ rest
    end.
Proof.
  intros Hne Hfree. unfold nicknamedKey.
  rewrite (indexOfColon_namespace _ _ Hfree).
  destruct prefix as [|x prefix]; [congruence|].
  cbn [String.length].
  change (S (String.length prefix)) with (String.length (String x prefix)).
  set (p := String x prefix).
  rewrite substring_prefix.
  replace (String.length p + 1)%nat with (String.length (p +:+ ":") + 0)%nat
    by (rewrite length_append; cbn; lia).
  rewrite <- (append_assoc p ":" rest), substring_skip.
  rewrite substring_whole
    by (rewrite !length_append; cbn [String.length]; lia).
  rewrite append_assoc. reflexivity.
Qed.

(** X20.  [getNickname] shows the registered nickname followed, in
    brackets, by the last five characters of the key - the whole key
    when it has five characters or fewer - and the text "undefined" in
    place of the nickname for a key that was never registered.
    [setNickname] changes what one key shows and no other. *)
Theorem getNickname_shows_the_key_tail (key : string)
    (keyNicknames : Nicknames) :
  let tail := substring_from (Z.of_nat (String.length key) - 5) key in
  (exists skipped, key = skipped +:+ tail)
  /\ String.length tail = Nat.min 5 (String.length key)
  /\ getNickname key keyNicknames
     = tmpl (keyNicknames !! key) +:+ "(" +:+ tail +:+ ")"
  /\ (keyNicknames !! key = None ->
      getNickname key keyNicknames = "undefined(" +:+ tail +:+ ")")
  /\ (forall nickname',
        getNickname key (setNickname key nickname' keyNicknames)
        = nickname' +:+ "(" +:+ tail +:+ ")")
  /\ forall other nickname',
       other <> key ->
       getNickname key (setNickname other nickname' keyNicknames)
       = getNickname key keyNicknames.
Proof.
  intros tail.
  destruct (substring_suffix key (Z.to_nat (Z.of_nat (String.length key) - 5)))
    as (skipped & Hkey & Hlen).
  fold (substring_from (Z.of_nat (String.length key) - 5) key) in Hkey.
  fold tail in Hkey.
  split; [by exists skipped|]. split.
  { apply (f_equal String.length) in Hkey.
    rewrite length_append in Hkey. lia. }
  split; [reflexivity|]. split.
  { intros Hnone. unfold getNickname. rewrite Hnone. reflexivity. }
  split.
  - intros nickname'. unfold getNickname, setNickname.
    rewrite lookup_insert_eq. reflexivity.
  - intros other nickname' Hne. unfold getNickname, setNickname.
    rewrite lookup_insert_ne by exact Hne. reflexivity.
Qed.

(** X21.  How [serializeWithNicknames] renames a key.  A key without a
    colon, or with nothing before its first colon, is kept.  A key
    [<namespace>:<rest>], split at its first colon, is kept when
    [rest] has no nickname and becomes [<namespace>:[<nickname>]] when
    it has one: the namespace is never changed, and what follows later
    colons is part of the thumbprint looked up.  So two entries of one
    namespace whose thumbprints carry the same nickname are handed to
    [Object.fromEntries] under one and the same key. *)
Theorem nicknamedKey_by_namespace (keyNicknames : Nicknames) :
  (forall key, indexOfColon key = None ->
               nicknamedKey keyNicknames key = key)
  /\ (forall rest, nicknamedKey keyNicknames (":" +:+ rest) = ":" +:+ rest)
  /\ (forall prefix rest,
        prefix <> "" ->
        indexOfColon prefix = None ->
        (keyNicknames !! rest = None ->
         nicknamedKey keyNicknames (prefix +:+ ":" +:+ rest)
         = prefix +:+ ":" +:+ rest)
        /\ forall nickname',
             keyNicknames !! rest = Some nickname' ->
             nicknamedKey keyNicknames (prefix +:+ ":" +:+ rest)
             = prefix +:+ ":[" +:+ nickname' +:+ "]")
  /\ (forall prefix rest1 rest2 nickname',
        prefix <> "" ->
        indexOfColon prefix = None ->
        keyNicknames !! rest1 = Some nickname' ->
        keyNicknames !! rest2 = Some nickname' ->
        nicknamedKey keyNicknames (prefix +:+ ":" +:+ rest1)
        = nicknamedKey keyNicknames (prefix +:+ ":" +:+ rest2)).
Proof.
  split; [|split; [|split]].
  - intros key H. unfold nicknamedKey. rewrite H. reflexivity.
  - intros rest. reflexivity.
  - intros prefix rest Hne Hfree. split.
    + intros H. rewrite nicknamedKey_split, H by assumption. reflexivity.
    + intros n H. rewrite nicknamedKey_split, H by assumption. reflexivity.
  - intros prefix rest1 rest2 n Hne Hfree H1 H2.
    rewrite !nicknamedKey_split, H1, H2 by assumption. reflexivity.
Qed.

(** X22.  The nickname of a thread key follows the client's nickname at
    the time the key is made.  [makeThreadKeys] registers each new
    thumbprint under [thread[<clientNickname>]], reading the field
    [clientNickname] at that call (line 310); the field is mutable
    ([setClientNickname], lines 55-57).  Take two calls, made when the
    field held [nickname1] and then [nickname2], for the thumbprints
    [T1] and [T2], and let whatever was registered in between have left
    the entry of [T1] as the first call wrote it - as
    [setClientNickname] does unless [T1] is the client's own thumbprint
    or that of its storage key.  Then in any namespace
    [serializeWithNicknames] writes the entries of [T2] under
    [<namespace>:[thread[<nickname2>]]] and, when [T1] is not [T2],
    those of [T1] under [<namespace>:[thread[<nickname1>]]].  So with
    the nickname unchanged between the two calls the entries of both
    threads are handed to [Object.fromEntries] under one key; with two
    different nicknames and two different thumbprints they are written
    under two different keys. *)
Theorem thread_keys_share_one_nickname {P : Platform} {A}
    (nickname1 nickname2 : string) (rnd1 rnd2 : Entropy P)
    (keyNicknames between : gmap string string) (namespace : string)
    (v1 v2 : A) (stringify : list (string * A) -> string) :
  namespace <> "" ->
  indexOfColon namespace = None ->
  let T1 :=
    getJWKthumbprint P (exportPublic P (publicKey (fresh_thread_key rnd1))) in
  let T2 :=
    getJWKthumbprint P (exportPublic P (publicKey (fresh_thread_key rnd2))) in
  let first := nicknameThreadKey nickname1 rnd1 keyNicknames in
  between !! T1 = first !! T1 ->
  let registry := nicknameThreadKey nickname2 rnd2 between in
  let key1 := namespace +:+ ":[thread[" +:+ nickname1 +:+ "]]" in
  let key2 := namespace +:+ ":[thread[" +:+ nickname2 +:+ "]]" in
  let entries :=
    [(namespace +:+ ":" +:+ T1, v1); (namespace +:+ ":" +:+ T2, v2)] in
  nicknamedKey registry (namespace +:+ ":" +:+ T2) = key2
  /\ (T1 <> T2 -> nicknamedKey registry (namespace +:+ ":" +:+ T1) = key1)
  /\ (nickname1 = nickname2 ->
      serializeWithNicknames stringify entries registry
      = stringify [(key2, v1); (key2, v2)])
  /\ (T1 <> T2 -> nickname1 <> nickname2 ->
      key1 <> key2
      /\ serializeWithNicknames stringify entries registry
         = stringify [(key1, v1); (key2, v2)])
  /\ (forall (c : Client P) nickname,
        T1 <> thumbprint c ->
        T1 <> getJWKthumbprint P
                (exportPublic P (publicKey (storageKeyPair c))) ->
        snd (setClientNickname c nickname first) !! T1 = first !! T1).
Proof.
  intros Hne Hfree T1 T2 first Hkept registry key1 key2 entries.
  assert (Hfirst : first !! T1 = Some ("thread[" +:+ nickname1 +:+ "]"))
    by apply lookup_insert_eq.
  assert (H2 : registry !! T2 = Some ("thread[" +:+ nickname2 +:+ "]"))
    by apply lookup_insert_eq.
  assert (H1 : T1 <> T2 ->
               registry !! T1 = Some ("thread[" +:+ nickname1 +:+ "]")).
  { intros Hd. unfold registry, nicknameThreadKey, setNickname.
    cbn [exportKeyPair snd]. fold T1 T2.
    rewrite lookup_insert_ne by (intros E; apply Hd; symmetry; exact E).
    rewrite Hkept. exact Hfirst. }
  assert (E2 : nicknamedKey registry (namespace +:+ ":" +:+ T2) = key2).
  { rewrite nicknamedKey_split, H2 by assumption. unfold key2.
    rewrite !append_assoc. reflexivity. }
  assert (E1 : T1 <> T2 ->
               nicknamedKey registry (namespace +:+ ":" +:+ T1) = key1).
  { intros Hd. rewrite nicknamedKey_split, (H1 Hd) by assumption.
    unfold key1. rewrite !append_assoc. reflexivity. }
  split; [exact E2|]. split; [exact E1|]. split; [|split].
  - intros Hsame. unfold serializeWithNicknames, entries.
    cbn [map fst snd]. rewrite E2.
    destruct (decide (T1 = T2)) as [Hd|Hd].
    + rewrite Hd, E2. reflexivity.
    + rewrite (E1 Hd). unfold key1, key2. rewrite Hsame. reflexivity.
  - intros Hd Hnick. split.
    + unfold key1, key2. intros E. apply Hnick.
      apply append_inj_r in E. apply (append_inj_r ":[thread[") in E.
      eapply append_inj_l, E.
    + unfold serializeWithNicknames, entries. cbn [map fst snd].
      rewrite E2, (E1 Hd). reflexivity.
  - intros c nickname Hid Hst. unfold setClientNickname. cbn [snd].
    destruct (nonempty (Some nickname)); [|reflexivity].
    unfold setNickname.
    rewrite lookup_insert_ne by (intros E; apply Hst; symmetry; exact E).
    rewrite lookup_insert_ne by (intros E; apply Hid; symmetry; exact E).
    reflexivity.
Qed.

End NicknameTheorems.

(** ** The further theorems at work on concrete runs *)

Lemma toy_identity (c : Client Toy.platform) (k : N) :
  identityKeyPair c = Toy.keypair k -> honest_identity c.
Proof. intros H. split; rewrite H; [apply toy_signs|reflexivity]. Qed.

Lemma toy_draw_alice : usable_draw Toy.alice Toy.alice_rnd.
Proof.
  unfold usable_draw.
  split; [reflexivity|]. split; [apply toy_dh|].
  split; [reflexivity|]. split; [reflexivity|].
  split; [reflexivity|]. split; [reflexivity|discriminate].
Qed.

Lemma toy_draw_bob : usable_draw Toy.bob Toy.bob_rnd.
Proof.
  unfold usable_draw.
  split; [reflexivity|]. split; [apply toy_dh|].
  split; [reflexivity|]. split; [reflexivity|].
  split; [reflexivity|]. split; [reflexivity|discriminate].
Qed.

Lemma run_step2 :
  replyToInvitation 2 Toy.bob Toy.bob_rnd Toy.iv12 Toy.invite "hi" ∅
  = (inr Toy.reply1, snd Toy.step2).
Proof. apply run_eq. reflexivity. Qed.

Lemma run_step3 :
  appendThread 2 Toy.alice Toy.alice_rnd Toy.reply1 None (snd Toy.step1)
  = (inr ("a3", "hi"), snd Toy.step3).
Proof. apply run_eq. reflexivity. Qed.

Lemma run_step4 :
  replyToThread 2 Toy.alice Toy.alice_rnd Toy.iv12 "a3" "hello bob" false
    (snd Toy.step3)
  = (inr Toy.reply2, snd Toy.step4).
Proof. apply run_eq. reflexivity. Qed.


(** Alice's backup of a text opens again. *)
Lemma encryptToSelf_is_self_tested_witness :
  exists j,
    encryptToSelf Toy.alice (Toy.keypair 164) Toy.iv12 "hello" = inr j
    /\ decryptFromSelf Toy.alice j = inr "hello"
    /\ Buffer_from (iv (payload j)) = Some Toy.iv12.
Proof.
  eexists. split; [reflexivity|].
  destruct (encryptToSelf_is_self_tested Toy.alice (Toy.keypair 164) Toy.iv12
              "hello") as [Hok _].
  destruct (Hok _ eq_refl) as (Hdec & _ & _ & _ & _ & Hiv).
  split; [exact Hdec|exact Hiv].
Defined.

(** Alice's invitation: the two entries written under a3. *)
Lemma createInvitation_effects_witness :
  Toy.step1 = (inr Toy.invite, snd Toy.step1)
  /\ exists backup,
       decryptFromSelf Toy.alice backup = inr "a3:a3"
       /\ snd Toy.step1
          = <["invitation:a3" := VJWS Toy.invite]>
              (<["encrypted-thread-key:a3" := VJWS backup]> ∅).
Proof.
  assert (H : createInvitation Toy.alice Toy.alice_rnd 10 None (Some "alice")
                ∅ = (inr Toy.invite, snd Toy.step1))
    by (apply run_eq; reflexivity).
  split; [exact H|].
  pose proof (createInvitation_effects Toy.alice Toy.alice_rnd 10 None
                (Some "alice") ∅ (snd Toy.step1) (inr Toy.invite) H) as E.
  cbv beta iota zeta in E. destruct E as (_ & backup & Hdec & Hs).
  exists backup. split; [exact Hdec|exact Hs].
Defined.

Lemma createInvitation_succeeds_witness :
  exists inv s',
    createInvitation Toy.alice Toy.alice_rnd 10 None (Some "alice") ∅
    = (inr inv, s')
    /\ (exists e,
          epk (payload inv) = Some e
          /\ s' !! ("invitation:" +:+ getJWKthumbprint Toy.platform e)
             = Some (VJWS inv))
    /\ verifyJWS inv None = true
    /\ parseJWS inv KeyOmitted = inr inv
    /\ JS.parseInt16_opt (messageId (payload inv)) = JS.Num 10.
Proof.
  apply (createInvitation_succeeds Toy.alice Toy.alice_rnd 10 None
           (Some "alice") ∅).
  - apply toy_signs.
  - reflexivity.
  - reflexivity.
  - apply toy_dh.
  - apply toy_aes.
  - reflexivity.
  - lia.
Defined.

(** Bob's reply to the invitation: what his storage holds afterwards;
    and an envelope without an embedded key is not an invitation. *)
Lemma replyToInvitation_effects_witness :
  replyToInvitation 2 Toy.bob Toy.bob_rnd Toy.iv12 Toy.stray "hi" ∅
  = (inl InvalidInvitationSignature, ∅)
  /\ exists sig e,
       jwk (header Toy.invite) = Some sig
       /\ epk (payload Toy.invite) = Some e
       /\ snd Toy.step2 !! "thread-info:b3"
          = Some (VThreadInfo
                    (mkThreadInfo "b3" (Some e) Toy.invite (Some sig)))
       /\ snd Toy.step2 !! "messages:b3"
          = Some (VList [VJWS Toy.invite; VJWS Toy.reply1]).
Proof.
  destruct (replyToInvitation_effects 2 Toy.bob Toy.bob_rnd Toy.iv12
              Toy.stray "hi" ∅ ltac:(discriminate)) as (_ & Hbare & _).
  split; [apply Hbare; reflexivity|].
  destruct (replyToInvitation_effects 2 Toy.bob Toy.bob_rnd Toy.iv12
              Toy.invite "hi" ∅ ltac:(discriminate)) as (_ & _ & Heff).
  destruct (Heff _ _ run_step2)
    as (_ & sig & e & Hsig & He & Hinfo & _ & _ & _ & Hlog).
  exists sig, e.
  split; [exact Hsig|]. split; [exact He|]. split; [exact Hinfo|exact Hlog].
Defined.

(** Bob's reply is addressed to a3 and numbered b, one above the
    invitation's a. *)
Lemma first_reply_is_numbered_after_invitation_witness :
  re (payload Toy.reply1) = Some "a3"
  /\ messageId (payload Toy.reply1) = Some "b"
  /\ snd Toy.step2 !! "message-id:b3" = Some (VString "b")
  /\ JS.strict_eq (JS.parseInt16_opt (messageId (payload Toy.reply1)))
       (JS.succ (JS.parseInt16_opt (messageId (payload Toy.invite))))
     = true.
Proof.
  destruct (first_reply_is_numbered_after_invitation 2 Toy.bob Toy.bob_rnd
              Toy.iv12 Toy.invite "hi" ∅ (snd Toy.step2) Toy.reply1
              ltac:(discriminate) run_step2)
    as (e & mid & He & Hmid & Hre & Hid & Hstored & Hseq).
  assert (E1 : epk (payload Toy.invite) = Some (163 : JWK Toy.platform))
    by reflexivity.
  assert (E2 : messageId (payload Toy.invite) = Some "a") by reflexivity.
  rewrite E1 in He. injection He as <-.
  rewrite E2 in Hmid. injection Hmid as <-.
  split; [exact Hre|]. split; [exact Hid|]. split; [exact Hstored|].
  apply (Hseq 10%Z); [reflexivity|split; [lia|reflexivity]].
Defined.

(** Alice ingests Bob's first reply: thread a3, log = invitation then
    reply. *)
Lemma first_reply_starts_thread_witness :
  verifyJWS Toy.reply1 None = true
  /\ snd Toy.step3 !! "thread-info:a3"
     = Some (VThreadInfo Stage.alice_info)
  /\ snd Toy.step3 !! "messages:a3"
     = Some (VList [VJWS Toy.invite; VJWS Toy.reply1]).
Proof.
  destruct (first_reply_starts_thread 1 Toy.alice Toy.alice_rnd Toy.reply1
              Toy.invite (snd Toy.step1) (snd Toy.step3) 177 163 "a3" "hi"
              eq_refl eq_refl eq_refl ltac:(discriminate) run_step3)
    as (_ & Hv & _ & e & mid & He & _ & _ & Hinfo & _ & _ & Hlog).
  assert (E1 : epk (payload Toy.reply1) = Some (179 : JWK Toy.platform))
    by reflexivity.
  rewrite E1 in He. injection He as <-.
  split; [exact Hv|]. split; [exact Hinfo|exact Hlog].
Defined.

(** A forged first reply fails, and leaves the thread a3 behind. *)
Lemma first_reply_is_committed_before_it_is_verified_witness :
  exists s',
    Stage.step12 = (inl UnverifiedSigner, s')
    /\ snd Toy.step1 !! "thread-info:a3" = None
    /\ s' !! "thread-info:a3" = Some (VThreadInfo Stage.alice_info)
    /\ s' !! "message-id:a3" = Some (VString "b")
    /\ s' !! "messages:a3" = Some (VList [VJWS Toy.invite]).
Proof.
  destruct (first_reply_is_committed_before_it_is_verified 1 Toy.alice
              Toy.alice_rnd Stage.forged_first Toy.invite (snd Toy.step1)
              177 179 163 eq_refl eq_refl eq_refl eq_refl eq_refl eq_refl
              ltac:(discriminate) eq_refl eq_refl)
    as (s' & Hrun & Hinfo & Hid & Hlog).
  exists s'. split; [exact Hrun|]. split; [reflexivity|].
  split; [exact Hinfo|]. split; [exact Hid|exact Hlog].
Defined.

Lemma run_step13 :
  appendThread 2 Toy.bob Toy.bob_rnd Toy.reply2 (Some "b3") (snd Toy.step2)
  = (inr ("b3", "hello bob"), snd Stage.step13).
Proof. apply run_eq. reflexivity. Qed.

(** Bob ingests Alice's answer: his stored id stays, the log grows by
    the answer; a refused envelope leaves Alice's storage as it was. *)
Lemma appendThread_known_writes_only_the_log_witness :
  snd Stage.step13 !! "message-id:b3" = snd Toy.step2 !! "message-id:b3"
  /\ snd Stage.step13 !! "messages:b3"
     = Some (VList [VJWS Toy.invite; VJWS Toy.reply1; VJWS Toy.reply2])
  /\ snd (appendThread 1 Toy.alice Toy.alice_rnd Toy.forged (Some "a3")
            (snd Toy.step3))
     = snd Toy.step3.
Proof.
  destruct (appendThread_known_writes_only_the_log 1 Toy.bob Toy.bob_rnd
              Toy.reply2 "b3" (snd Toy.step2) (snd Stage.step13)
              (inr ("b3", "hello bob")) ltac:(discriminate) run_step13)
    as (Hframe & _ & Hlog).
  split; [apply Hframe; discriminate|]. split; [exact Hlog|].
  assert (H : appendThread 1 Toy.alice Toy.alice_rnd Toy.forged (Some "a3")
                (snd Toy.step3)
              = (inl UnverifiedSigner,
                 snd (appendThread 1 Toy.alice Toy.alice_rnd Toy.forged
                        (Some "a3") (snd Toy.step3))))
    by (apply run_eq; reflexivity).
  destruct (appendThread_known_writes_only_the_log 0 Toy.alice Toy.alice_rnd
              Toy.forged "a3" (snd Toy.step3) _ _ ltac:(discriminate) H)
    as (_ & Hsame).
  exact Hsame.
Defined.

(** Ingested twice, Alice's answer is in Bob's log twice. *)
Lemma appendThread_known_twice_witness :
  exists s2,
    appendThread 2 Toy.bob Toy.bob_rnd Toy.reply2 (Some "b3")
      (snd Stage.step13)
    = (inr ("b3", "hello bob"), s2)
    /\ s2 !! "messages:b3"
       = Some (VList [VJWS Toy.invite; VJWS Toy.reply1; VJWS Toy.reply2;
                      VJWS Toy.reply2]).
Proof.
  destruct (appendThread_known_twice 1 Toy.bob Toy.bob_rnd Toy.reply2 "b3"
              (snd Toy.step2) (snd Stage.step13) ("b3", "hello bob")
              ltac:(discriminate) run_step13)
    as (s2 & Hrun & Hlog & _).
  exists s2. split; [exact Hrun|exact Hlog].
Defined.

(** Bob's failed reply (a text the encoder cannot represent) left his
    log alone; on an empty storage the thread is not found. *)
Lemma failed_reply_changes_at_most_the_id_witness :
  snd Toy.step8 !! "messages:b3" = snd Toy.step5 !! "messages:b3"
  /\ replyToThread 2 Toy.bob Toy.bob_rnd Toy.iv12 "b3" "x" false ∅
     = (inl ThreadNotFound, ∅).
Proof.
  assert (H : replyToThread 2 Toy.bob Toy.bob_rnd Toy.iv12 "b3"
                Toy.lossy_text false (snd Toy.step5)
              = (inl SelfEncryptMismatch, snd Toy.step8))
    by (apply run_eq; reflexivity).
  destruct (failed_reply_changes_at_most_the_id 2 Toy.bob Toy.bob_rnd
              Toy.iv12 "b3" Toy.lossy_text false (snd Toy.step5)
              ltac:(discriminate)) as (Hfail & _ & _).
  destruct (Hfail _ _ H) as [_ Hlog].
  split; [apply (Hlog "b3")|].
  destruct (failed_reply_changes_at_most_the_id 2 Toy.bob Toy.bob_rnd
              Toy.iv12 "b3" "x" false ∅ ltac:(discriminate))
    as (_ & Hnone & _).
  apply Hnone. reflexivity.
Defined.

(** On an empty storage no thread has a secret. *)
Lemma readThreadSecret_failures_witness :
  fst (readThreadSecret Toy.bob "b3" ∅) = inl ThreadNotFound
  /\ snd (readThreadSecret Toy.bob "b3" ∅) = ∅.
Proof.
  destruct (readThreadSecret_failures Toy.bob "b3" ∅) as (Hsame & Hiff & _).
  split; [apply Hiff; reflexivity|exact Hsame].
Defined.

(** After the handshake Alice and Bob read the same secret. *)
Lemma thread_secrets_agree_witness :
  exists secret,
    readThreadSecret Toy.alice "a3" (snd Toy.step3)
    = (inr (secret, (163 : JWK Toy.platform)), snd Toy.step3)
    /\ readThreadSecret Toy.bob "b3" (snd Toy.step2)
       = (inr (secret, (179 : JWK Toy.platform)), snd Toy.step2).
Proof.
  apply (thread_secrets_agree Toy.alice Toy.bob "a3" "b3" Stage.alice_info
           Stage.bob_info (Toy.keypair 163) (Toy.keypair 179)
           (Stage.stored (snd Toy.step3) "encrypted-thread-key:a3")
           (Stage.stored (snd Toy.step2) "encrypted-thread-key:b3")
           (snd Toy.step3) (snd Toy.step2));
    reflexivity.
Defined.

Lemma run_step15 :
  replyToThread 2 Toy.alice Toy.alice_rnd Toy.iv12 "a3" "hello" false
    Stage.alice_echo
  = (inr (Toy.returned Stage.step15), snd Stage.step15).
Proof. apply run_eq. reflexivity. Qed.

(** Alice's answer reaches Bob; an answer on a thread that records its
    own key as the peer's is refused by a Bob who holds that thread. *)
Lemma reply_is_delivered_witness :
  re (payload Toy.reply2) = Some "b3"
  /\ appendThread 2 Toy.bob Toy.bob_rnd Toy.reply2 None (snd Toy.step2)
     = (inr ("b3", "hello bob"),
        snd (appendItem "messages:b3" (VJWS Toy.reply2) (snd Toy.step2)))
  /\ appendThread 2 Toy.bob Toy.bob_rnd (Toy.returned Stage.step15) None
       Stage.bob_echo
     = (inl BadSignature, Stage.bob_echo).
Proof.
  destruct (reply_is_delivered 2 0 Toy.alice Toy.bob Toy.alice_rnd
              Toy.bob_rnd Toy.iv12 "a3" "hello bob" (snd Toy.step3)
              (snd Toy.step4) (snd Toy.step2) Toy.reply2 Stage.alice_info
              Stage.bob_info 179 163 161 (29177, 163) (29177, 179)
              run_step4 eq_refl eq_refl ltac:(discriminate) eq_refl eq_refl
              eq_refl eq_refl eq_refl (toy_signs 161)
              ltac:(apply toy_secret; reflexivity)
              ltac:(apply toy_secret; reflexivity) eq_refl)
    as (Hre & Hok & _).
  destruct Hok as [_ Hrun]; [left; discriminate|].
  split; [exact Hre|]. split; [exact Hrun|].
  destruct (reply_is_delivered 2 0 Toy.alice Toy.bob Toy.alice_rnd
              Toy.bob_rnd Toy.iv12 "a3" "hello" Stage.alice_echo
              (snd Stage.step15) Stage.bob_echo (Toy.returned Stage.step15)
              Stage.echo_info Stage.echo_info 163 163 161
              (26569, 163) (26569, 163)
              run_step15 eq_refl eq_refl ltac:(discriminate) eq_refl eq_refl
              eq_refl eq_refl eq_refl (toy_signs 161)
              ltac:(apply toy_secret; reflexivity)
              ltac:(apply toy_secret; reflexivity) eq_refl)
    as (_ & _ & Hbad).
  destruct (Hbad eq_refl eq_refl) as [_ Hrun']. exact Hrun'.
Defined.

(** The scenario from the start: invitation, reply, ingestion. *)
Lemma handshake_delivers_first_message_witness :
  exists I R sA1 sB1 sA2 secret,
    createInvitation Toy.alice Toy.alice_rnd 10 None (Some "alice") ∅
    = (inr I, sA1)
    /\ epk (payload I) = Some (163 : JWK Toy.platform)
    /\ replyToInvitation 2 Toy.bob Toy.bob_rnd Toy.iv12 I "hi" ∅
       = (inr R, sB1)
    /\ appendThread 2 Toy.alice Toy.alice_rnd R None sA1
       = (inr ("a3", "hi"), sA2)
    /\ readThreadSecret Toy.alice "a3" sA2
       = (inr (secret, (163 : JWK Toy.platform)), sA2)
    /\ readThreadSecret Toy.bob "b3" sB1
       = (inr (secret, (179 : JWK Toy.platform)), sB1).
Proof.
  apply (handshake_delivers_first_message 1 Toy.alice Toy.bob Toy.alice_rnd
           Toy.bob_rnd Toy.alice_rnd Toy.iv12 10 None (Some "alice") "hi"
           ∅ ∅).
  - apply (toy_identity _ 161). reflexivity.
  - apply (toy_identity _ 177). reflexivity.
  - apply toy_draw_alice.
  - apply toy_draw_bob.
  - apply toy_dh.
  - apply toy_aes.
  - reflexivity.
  - discriminate.
  - lia.
Defined.

(** ... and Alice's answer, numbered c, reaches Bob. *)
Lemma answer_is_delivered_after_handshake_witness :
  exists R2 sA3 sB2,
    replyToThread 2 Toy.alice Toy.alice_rnd Toy.iv12 "a3" "hello bob" false
      (snd Toy.step3)
    = (inr R2, sA3)
    /\ jwk (header R2) = None
    /\ epk (payload R2) = None
    /\ re (payload R2) = Some "b3"
    /\ JS.parseInt16_opt (messageId (payload R2)) = JS.Num 12
    /\ appendThread 3 Toy.bob Toy.bob_rnd R2 None (snd Toy.step2)
       = (inr ("b3", "hello bob"), sB2).
Proof.
  apply (answer_is_delivered_after_handshake 1 Toy.alice Toy.bob
           Toy.alice_rnd Toy.bob_rnd Toy.alice_rnd Toy.bob_rnd Toy.iv12
           Toy.iv12 10 None (Some "alice") "hi" "hello bob" ∅ ∅
           (snd Toy.step1) (snd Toy.step2) (snd Toy.step3) Toy.invite
           Toy.reply1).
  - apply (toy_identity _ 161). reflexivity.
  - apply (toy_identity _ 177). reflexivity.
  - apply toy_draw_alice.
  - apply toy_draw_bob.
  - apply toy_dh.
  - apply toy_aes.
  - reflexivity.
  - reflexivity.
  - discriminate.
  - lia.
  - apply run_eq. reflexivity.
  - exact run_step2.
  - exact run_step3.
Defined.

(** Alice's answer is settled by two levels, whatever the depth
    allowed. *)
Lemma appendThread_recurses_at_most_once_witness :
  appendThread 7 Toy.bob Toy.bob_rnd Toy.reply2 None (snd Toy.step2)
  = appendThread 2 Toy.bob Toy.bob_rnd Toy.reply2 None (snd Toy.step2)
  /\ fst (appendThread 2 Toy.bob Toy.bob_rnd Toy.reply2 None (snd Toy.step2))
     <> inl OutOfFuel.
Proof.
  apply (appendThread_recurses_at_most_once 5 Toy.bob Toy.bob_rnd Toy.reply2
           None (snd Toy.step2)).
  right. right. reflexivity.
Defined.

(** An envelope without [re], and a storage with an entry under
    [thread-info:undefined]. *)
Lemma appendThread_unaddressed_witness :
  appendThread 1 Toy.alice Toy.alice_rnd Stage.unaddressed None ∅
  = (inl ThreadNotFound, ∅)
  /\ appendThread 9 Toy.alice Toy.alice_rnd Stage.unaddressed None
       Stage.odd_store
     = (inl OutOfFuel, Stage.odd_store).
Proof.
  destruct (appendThread_unaddressed Toy.alice Toy.alice_rnd
              Stage.unaddressed ∅ eq_refl eq_refl) as [Hnone _].
  split; [apply Hnone; reflexivity|].
  destruct (appendThread_unaddressed Toy.alice Toy.alice_rnd
              Stage.unaddressed Stage.odd_store eq_refl eq_refl)
    as [_ Hloop].
  apply Hloop. eexists. reflexivity.
Defined.

(** Carol is generated, stored under c1, and loaded again. *)
Lemma generateClient_then_loadClient_witness :
  fst Stage.carol
  = inr (mkClient "c1" (Toy.keypair 193) (Toy.keypair 194))
  /\ loadClient Stage.vault (snd Stage.carol) "c1" "secret"
     = inr (mkClient "c1" (Toy.keypair 193) (Toy.keypair 194)).
Proof.
  destruct (generateClient_then_loadClient Stage.vault (Toy.keypair 193)
              (Toy.keypair 194) tt tt "secret" ∅ eq_refl eq_refl eq_refl
              eq_refl eq_refl eq_refl) as (Hgen & Hload & _).
  split.
  - unfold Stage.carol. rewrite Hgen. reflexivity.
  - unfold Stage.carol. rewrite Hgen. exact Hload.
Defined.

(** Carol's record does not open under another password, and nobody is
    stored under c2. *)
Lemma loadClient_outcomes_witness :
  loadClient Stage.vault (snd Stage.carol) "c1" "guess" = inl UnwrapFailed
  /\ loadClient Stage.vault (snd Stage.carol) "c2" "secret"
     = inl NoIdentityFound.
Proof.
  split.
  - destruct (loadClient_outcomes Stage.vault (snd Stage.carol) "c1" "guess")
      as (_ & Hwrong & _).
    eapply Hwrong; reflexivity.
  - destruct (loadClient_outcomes Stage.vault (snd Stage.carol) "c2" "secret")
      as (Hnone & _).
    apply Hnone. reflexivity.
Defined.

(** Naming one key does not change what another shows. *)
Lemma getNickname_shows_the_key_tail_witness :
  getNickname "abcdefgh" (setNickname "zz" "bob" ∅) = "undefined(defgh)"
  /\ getNickname "abc" (setNickname "abc" "al" ∅) = "al(abc)".
Proof.
  destruct (getNickname_shows_the_key_tail "abcdefgh" ∅)
    as (_ & _ & _ & _ & _ & Hother).
  split.
  - rewrite Hother by discriminate. reflexivity.
  - destruct (getNickname_shows_the_key_tail "abc" ∅)
      as (_ & _ & _ & _ & Hset & _).
    apply Hset.
Defined.

(** A thread-info key under a registered thumbprint, and one under a
    thumbprint nobody named. *)
Lemma nicknamedKey_by_namespace_witness :
  nicknamedKey (setNickname "a3" "thread[alice]" ∅) "thread-info:a3"
  = "thread-info:[thread[alice]]"
  /\ nicknamedKey (setNickname "a3" "thread[alice]" ∅) "thread-info:b3"
     = "thread-info:b3".
Proof.
  destruct (nicknamedKey_by_namespace (setNickname "a3" "thread[alice]" ∅))
    as (_ & _ & Hsplit & _).
  split.
  - destruct (Hsplit "thread-info" "a3" ltac:(discriminate) eq_refl)
      as [_ Hnamed].
    apply (Hnamed "thread[alice]"). reflexivity.
  - destruct (Hsplit "thread-info" "b3" ltac:(discriminate) eq_refl)
      as [Hplain _].
    apply Hplain. reflexivity.
Defined.

(** Two thread keys of Alice, a3 and a5, in one dump: with her nickname
    unchanged, and with [setClientNickname] called between the two. *)
Lemma thread_keys_share_one_nickname_witness :
  serializeWithNicknames Stage.keys_only
    [("thread-info:a3", 1); ("thread-info:a5", 2)]
    (nicknameThreadKey "alice" Stage.alice_rnd2
       (nicknameThreadKey "alice" Toy.alice_rnd ∅))
  = Stage.keys_only
      [("thread-info:[thread[alice]]", 1); ("thread-info:[thread[alice]]", 2)]
  /\ serializeWithNicknames Stage.keys_only
       [("thread-info:a3", 1); ("thread-info:a5", 2)]
       (nicknameThreadKey "al" Stage.alice_rnd2
          (snd (setClientNickname Toy.alice "al"
                  (nicknameThreadKey "alice" Toy.alice_rnd ∅))))
     = Stage.keys_only
         [("thread-info:[thread[alice]]", 1); ("thread-info:[thread[al]]", 2)].
Proof.
  split.
  - destruct (thread_keys_share_one_nickname "alice" "alice" Toy.alice_rnd
                Stage.alice_rnd2 ∅
                (nicknameThreadKey "alice" Toy.alice_rnd ∅)
                "thread-info" 1 2 Stage.keys_only
                ltac:(discriminate) eq_refl eq_refl) as (_ & _ & H & _).
    exact (H eq_refl).
  - destruct (thread_keys_share_one_nickname "alice" "al" Toy.alice_rnd
                Stage.alice_rnd2 ∅
                (snd (setClientNickname Toy.alice "al"
                        (nicknameThreadKey "alice" Toy.alice_rnd ∅)))
                "thread-info" 1 2 Stage.keys_only
                ltac:(discriminate) eq_refl eq_refl) as (_ & _ & _ & H & _).
    destruct H as [_ H]; [discriminate|discriminate|]. exact H.
Defined.

(** Alice's answer leaves her thread-info and her key backup as they
    were. *)
Lemma replyToThread_touches_only_its_thread_witness :
  snd Toy.step4 !! "thread-info:a3" = snd Toy.step3 !! "thread-info:a3"
  /\ snd Toy.step4 !! "encrypted-thread-key:a3"
     = snd Toy.step3 !! "encrypted-thread-key:a3".
Proof.
  pose proof (replyToThread_touches_only_its_thread 2 Toy.alice Toy.alice_rnd
                Toy.iv12 "a3" "hello bob" false (snd Toy.step3)
                (snd Toy.step4) (inr Toy.reply2) ltac:(discriminate)
                run_step4) as Hframe.
  split; apply Hframe; discriminate.
Defined.

(** The invitation Bob answered is still in Alice's storage. *)
Lemma invitations_are_never_consumed_witness :
  snd Toy.step3 !! "invitation:a3" = snd Toy.step1 !! "invitation:a3"
  /\ snd Toy.step1 !! "invitation:a3" = Some (VJWS Toy.invite).
Proof.
  destruct (invitations_are_never_consumed 2 Toy.alice Toy.alice_rnd Toy.iv12
              Toy.reply1 Toy.invite None "a3" "hi" false (snd Toy.step1)
              "a3") as (Happend & _ & _).
  split; [apply (Happend _ _ run_step3)|reflexivity].
Defined.

(** Bob's reply to the invitation writes nothing about a thread a3;
    Alice's ingestion of it leaves her invitation as it was. *)
Lemma starting_a_thread_touches_only_that_thread_witness :
  snd Toy.step2 !! "thread-info:a3" = None
  /\ snd Toy.step3 !! "invitation:a3" = snd Toy.step1 !! "invitation:a3".
Proof.
  split.
  - destruct (starting_a_thread_touches_only_that_thread 2 Toy.bob
                Toy.bob_rnd ∅ (snd Toy.step2) "b3" 161 "thread-info:a3"
                ltac:(discriminate) ltac:(discriminate) ltac:(discriminate)
                ltac:(discriminate) ltac:(discriminate) ltac:(discriminate)
                ltac:(discriminate)) as [Hreply _].
    apply (Hreply Toy.iv12 Toy.invite "hi" (inr Toy.reply1) eq_refl eq_refl
             run_step2).
  - destruct (starting_a_thread_touches_only_that_thread 1 Toy.alice
                Toy.alice_rnd (snd Toy.step1) (snd Toy.step3) "a3" 177
                "invitation:a3"
                ltac:(discriminate) ltac:(discriminate) ltac:(discriminate)
                ltac:(discriminate) ltac:(discriminate) ltac:(discriminate)
                ltac:(discriminate)) as [_ Hingest].
    apply (Hingest Toy.reply1 Toy.invite 163 (inr ("a3", "hi")) eq_refl
             eq_refl eq_refl eq_refl run_step3).
Defined.
